(** * Retail Arbitrage Scout: a shallow embedding of the profit calculator,
      the utilities, the scraper item parsers, the search orchestrator and
      the price-comparison engine.

    Conventions of the embedding.
    - Money amounts in the profit calculator, the orchestrator and the
      price-comparison engine are exact rationals [Q]: arithmetic is exact,
      and [round(x, 2)] is rounding to the nearest hundredth with ties to the
      even hundredth.  This idealises the doubles of the code; NaN and
      infinities are outside it, and a figure within float error of a tie can
      round to the other cent in the code.
    - Where a statement depends on the rounding itself
      ([calculate_discount_percent]) a [float] is an IEEE-754 binary64 number
      ([Float64]), with the correctly rounded operations of the hardware and
      the [round] of CPython.
    - A [str] is a [string] of bytes where only its ASCII content matters, and
      the list of its code points where the code looks at each character
      ([validate_upc_checksum]).
    - A Python [dict] with string keys is a [gmap string _]; a dict whose
      iteration order matters is an association list.
    - An object is the map of its attributes; reading an attribute the object
      does not have raises [AttributeError].
    - A function that can raise returns a [result]; [try]/[except Exception]
      is [try_except]. *)

From Stdlib Require Import QArith Qround Lqa ZArith Lia Ascii String SpecFloat.
From stdpp Require Import base option gmap strings list sorting.

Open Scope Q_scope.

(** ** Python values, exceptions and rounding *)

Module Py.

Inductive exn : Type :=
| AttributeError (attr : string)
| KeyError (key : string)
| TypeError
| ValueError
| RuntimeError (msg : string).

Inductive result (A : Type) : Type :=
| Ok (a : A)
| Raise (e : exn).
Arguments Ok {A} a.
Arguments Raise {A} e.

#[global] Instance result_ret : MRet result := fun A a => Ok a.
#[global] Instance result_bind : MBind result :=
  fun A B f m => match m with Ok a => f a | Raise e => Raise e end.

#[global] Instance result_fmap : FMap result :=
  fun A B f m => match m with Ok a => Ok (f a) | Raise e => Raise e end.

(** [try: m except Exception as e: h e] *)
Definition try_except {A} (m : result A) (h : exn -> result A) : result A :=
  match m with Ok a => Ok a | Raise e => h e end.

Definition Qltb (x y : Q) : bool := negb (Qle_bool y x).
Definition Qgeb (x y : Q) : bool := Qle_bool y x.
Definition Qgtb (x y : Q) : bool := Qltb y x.

(** Truth value of a float: every float but zero is true. *)
Definition truthy (x : Q) : bool := negb (Qeq_bool x 0).

(** [x or d] where [x] is an optional float argument ([None] when it is not
    passed) and [d] is evaluated only when [x] is falsy. *)
Definition or_else {E : Type} (x : option Q) (d : E) (inj : Q -> E) : E :=
  match x with
  | Some q => if truthy q then inj q else d
  | None => d
  end.

(** Built-in [min(a, b)] and [max(a, b)] on two floats: the first argument
    wins a tie. *)
Definition min2 (a b : Q) : Q := if Qltb b a then b else a.
Definition max2 (a b : Q) : Q := if Qgtb b a then b else a.

(** [min(iterable, key=...)], [max(iterable, key=...)]: the first extremal
    element is returned; an empty iterable raises [ValueError]. *)
Fixpoint min_from {A} (key : A -> Q) (best : A) (l : list A) : A :=
  match l with
  | [] => best
  | x :: l' => min_from key (if Qltb (key x) (key best) then x else best) l'
  end.

Fixpoint max_from {A} (key : A -> Q) (best : A) (l : list A) : A :=
  match l with
  | [] => best
  | x :: l' => max_from key (if Qgtb (key x) (key best) then x else best) l'
  end.

Definition min_key {A} (l : list A) (key : A -> Q) : result A :=
  match l with [] => Raise ValueError | x :: l' => Ok (min_from key x l') end.

Definition max_key {A} (l : list A) (key : A -> Q) : result A :=
  match l with [] => Raise ValueError | x :: l' => Ok (max_from key x l') end.

(** [not l] for a list or a dict. *)
Definition is_empty {A} (l : list A) : bool :=
  match l with [] => true | _ :: _ => false end.

(** [l.sort(key=..., reverse=True)]: descending keys, and elements with equal
    keys stay in their original order.  Each element is inserted behind the
    elements already placed whose key is not smaller. *)
Fixpoint insert_desc {A} (key : A -> Q) (x : A) (l : list A) : list A :=
  match l with
  | [] => [x]
  | y :: l' => if Qltb (key y) (key x) then x :: y :: l' else y :: insert_desc key x l'
  end.

Definition sort_desc {A} (key : A -> Q) (l : list A) : list A :=
  foldl (fun acc x => insert_desc key x acc) [] l.

(** [l.sort(key=...)]: ascending keys, stable. *)
Fixpoint insert_asc {A} (key : A -> Q) (x : A) (l : list A) : list A :=
  match l with
  | [] => [x]
  | y :: l' => if Qltb (key x) (key y) then x :: y :: l' else y :: insert_asc key x l'
  end.

Definition sort_asc {A} (key : A -> Q) (l : list A) : list A :=
  foldl (fun acc x => insert_asc key x acc) [] l.

(** Nearest integer, ties to even. *)
Definition round_half_even (x : Q) : Z :=
  let n := Qfloor x in
  match Qcompare (x - inject_Z n) (1 # 2) with
  | Lt => n
  | Gt => (n + 1)%Z
  | Eq => if Z.even n then n else (n + 1)%Z
  end.

(** [round(x, 2)] of an exact amount: the nearest hundredth, ties to the even
    one.  ([Float64.round2] is the rounding of a double.) *)
Definition round2 (x : Q) : Q := round_half_even (x * 100) # 100.

(** Attribute values of the configuration objects: a float or a dict of
    floats. *)
Inductive pyval : Type :=
| VFloat (q : Q)
| VDict (d : gmap string Q).

(** [o.name] *)
Definition getattr (o : gmap string pyval) (name : string) : result pyval :=
  match o !! name with
  | Some v => Ok v
  | None => Raise (AttributeError name)
  end.

(** A value used as a number. *)
Definition as_float (v : pyval) : result Q :=
  match v with VFloat q => Ok q | VDict _ => Raise TypeError end.

(** [v.get(key, default)]: only a dict has the method. *)
Definition dict_get (v : pyval) (key : string) (dflt : Q) : result Q :=
  match v with
  | VDict d => Ok (default dflt (d !! key))
  | VFloat _ => Raise (AttributeError "get")
  end.

(** [d[key]] *)
Definition getitem {V} (d : gmap string V) (key : string) : result V :=
  match d !! key with
  | Some v => Ok v
  | None => Raise (KeyError key)
  end.

(** ASCII case folding and white space, as [str.lower] and [str.split]
    see them on ASCII text; other characters are left alone. *)
Definition lower_ascii (c : Ascii.ascii) : Ascii.ascii :=
  let n := Ascii.nat_of_ascii c in
  if ((65 <=? n) && (n <=? 90))%nat then Ascii.ascii_of_nat (n + 32) else c.

Fixpoint lower (s : string) : string :=
  match s with
  | EmptyString => EmptyString
  | String c s' => String (lower_ascii c) (lower s')
  end.

Definition is_space (c : Ascii.ascii) : bool :=
  let n := Ascii.nat_of_ascii c in
  (((9 <=? n) && (n <=? 13)) || ((28 <=? n) && (n <=? 32)))%nat.

(** [s.split()]: maximal runs of non-space characters, in order. *)
Fixpoint split_from (cur : string) (s : string) : list string :=
  match s with
  | EmptyString => if String.eqb cur "" then [] else [String.rev cur]
  | String c s' =>
      if is_space c
      then (if String.eqb cur "" then split_from "" s'
            else String.rev cur :: split_from "" s')
      else split_from (String c cur) s'
  end.

Definition split (s : string) : list string := split_from "" s.

End Py.

(** ** Python floats, bit for bit *)

Module Float64.

(** A [float] is an IEEE-754 binary64 number: 53 bits of precision, exponent
    of the infinities 1024. *)
Definition float : Type := spec_float.
Definition prec : Z := 53.
Definition emax : Z := 1024.

Definition zero : float := S754_zero false.

(** [float(n)] for an integer [n] *)
Definition of_Z (n : Z) : float := binary_normalize prec emax n 0 false.

(** [x + y], [x - y], [x * y], [x / y]: rounded to nearest, ties to even. *)
Definition add : float -> float -> float := SFadd prec emax.
Definition sub : float -> float -> float := SFsub prec emax.
Definition mul : float -> float -> float := SFmul prec emax.
Definition div : float -> float -> float := SFdiv prec emax.

(** [x < y], [x <= y], [x > y], [x >= y]: false when either is NaN. *)
Definition lt (x y : float) : bool := SFltb x y.
Definition le (x y : float) : bool := SFleb x y.
Definition gt (x y : float) : bool := SFltb y x.
Definition ge (x y : float) : bool := SFleb y x.

(** Truth value: every float but the two zeros is true. *)
Definition truthy (x : float) : bool :=
  match x with S754_zero _ => false | _ => true end.

(** The floats a price can be: zero or a finite number in its canonical
    representation. *)
Definition finite (x : float) : bool :=
  match x with
  | S754_nan | S754_infinity _ => false
  | _ => valid_binary prec emax x
  end.

(** The exact value of the finite float of mantissa [m] and exponent [e]. *)
Definition magnitude (m : positive) (e : Z) : Q :=
  match e with
  | Zneg p => Zpos m # (2 ^ p)
  | _ => inject_Z (Zpos m * 2 ^ e)
  end.

(** [round(x, 2)]: the exact value of [x] is rounded to the nearest
    hundredth, ties to the even hundredth, and the float nearest to that
    decimal is returned; the sign is kept, NaN and the infinities round to
    themselves. *)
Definition round2 (x : float) : float :=
  match x with
  | S754_finite s m e =>
      match Py.round_half_even (magnitude m e * 100) with
      | Zpos n => div (S754_finite s n 0) (S754_finite false 100 0)
      | _ => S754_zero s
      end
  | _ => x
  end.

End Float64.
Export Py.

(** ** config.py *)

Module Config.

(** [ProfitConfig()]: the attributes of the dataclass instance. *)
Definition ProfitConfig : gmap string pyval :=
  list_to_map
    [ ("AMAZON_FEE_PERCENT", VFloat (15 # 100));
      ("EBAY_FEE_PERCENT", VFloat (13 # 100));
      ("PAYPAL_FEE_PERCENT", VFloat (29 # 1000));
      ("PAYPAL_FEE_FIXED", VFloat (30 # 100));
      ("DEFAULT_SALES_TAX", VFloat (8 # 100));
      ("DEFAULT_SHIPPING_COST", VFloat 5);
      ("MIN_PROFIT_AMOUNT", VFloat 5);
      ("MIN_PROFIT_MARGIN", VFloat (20 # 100)) ].

Definition PROFIT_CONFIG : gmap string pyval := ProfitConfig.

(** The module-level table of category rates.  It is a global of config.py,
    not an attribute of [PROFIT_CONFIG]. *)
Definition CATEGORY_MARGINS : gmap string Q :=
  list_to_map
    [ ("Electronics", 15 # 100);
      ("Home & Garden", 15 # 100);
      ("Toys", 15 # 100);
      ("Clothing", 17 # 100);
      ("Books", 15 # 100);
      ("Other", 15 # 100) ].

(** The configuration object profit_calculator.py reads from: the instance
    above with the category table reachable as an attribute. *)
Definition PROFIT_CONFIG_with_margins : gmap string pyval :=
  <["CATEGORY_MARGINS" := VDict CATEGORY_MARGINS]> PROFIT_CONFIG.

End Config.

(** ** profit_calculator.py *)

Module ProfitCalculator.

(** [ProfitAnalysis] *)
Record ProfitAnalysis : Type := {
  buy_price : Q;
  sales_tax_rate : Q;
  sales_tax_amount : Q;
  total_buy_cost : Q;
  sell_price : Q;
  marketplace : string;
  platform_fees : Q;
  payment_processing_fees : Q;
  fulfillment_fees : Q;
  total_fees : Q;
  estimated_shipping : Q;
  gross_revenue : Q;
  net_profit : Q;
  profit_margin : Q;
  roi_percent : Q;
  is_profitable : bool;
  opportunity_score : Q;
  recommendation : string;
  fee_breakdown : gmap string Q
}.

(** The attributes [__init__] sets on [self]. *)
Record calculator : Type := {
  self_sales_tax_rate : Q;
  self_shipping_cost : Q;
  self_min_profit_amount : Q;
  self_min_profit_margin : Q
}.

(** [_estimate_fba_fee] *)
Definition _estimate_fba_fee (sell_price : Q) : Q :=
  if Qltb sell_price 10 then 322 # 100
  else if Qltb sell_price 20 then 450 # 100
  else if Qltb sell_price 50 then 550 # 100
  else if Qltb sell_price 100 then 650 # 100
  else 8.

(** [_calculate_opportunity_score] *)
Definition _calculate_opportunity_score (net_profit profit_margin roi_percent : Q) : Q :=
  let profit_score := min2 (net_profit / 20) 40 in
  let margin_score := min2 (profit_margin / 2) 30 in
  let roi_score := min2 (roi_percent / 3) 30 in
  let total_score := profit_score + margin_score + roi_score in
  min2 total_score 100.

(** [_generate_recommendation] *)
Definition _generate_recommendation
    (is_profitable : bool) (net_profit profit_margin roi_percent : Q) : string :=
  if negb is_profitable then
    if Qltb net_profit 0 then "AVOID: Negative profit potential"
    else if Qltb profit_margin 10 then "LOW MARGIN: Insufficient profit margin"
    else "BELOW THRESHOLD: Doesn't meet minimum criteria"
  else if Qgtb net_profit 20 && Qgtb roi_percent 50
    then "EXCELLENT: High profit and ROI opportunity"
  else if Qgtb net_profit 10 && Qgtb roi_percent 30
    then "GOOD: Solid profit potential"
  else if Qgtb roi_percent 50 then "PROMISING: High ROI, monitor closely"
  else "ACCEPTABLE: Meets minimum criteria".

Section WithConfig.

(** The global [PROFIT_CONFIG] the module imports from config.py. *)
Variable PROFIT_CONFIG : gmap string pyval.

Definition config_float (name : string) : result Q :=
  getattr PROFIT_CONFIG name ≫= as_float.

(** [__init__]: every argument defaults to [None]. *)
Definition init (sales_tax_rate shipping_cost min_profit_amount min_profit_margin : option Q)
  : result calculator :=
  tax ← or_else sales_tax_rate (config_float "DEFAULT_SALES_TAX") Ok;
  ship ← or_else shipping_cost (config_float "DEFAULT_SHIPPING_COST") Ok;
  amount ← or_else min_profit_amount (config_float "MIN_PROFIT_AMOUNT") Ok;
  margin ← or_else min_profit_margin (config_float "MIN_PROFIT_MARGIN") Ok;
  mret {| self_sales_tax_rate := tax; self_shipping_cost := ship;
          self_min_profit_amount := amount; self_min_profit_margin := margin |}.

(** [calculate_buy_cost] *)
Definition calculate_buy_cost (self : calculator) (item_price : Q)
    (sales_tax_rate : option Q) : gmap string Q :=
  let tax_rate := or_else sales_tax_rate (self_sales_tax_rate self) id in
  let tax_amount := item_price * tax_rate in
  <["item_price" := item_price]>
  (<["sales_tax_rate" := tax_rate]>
  (<["sales_tax_amount" := round2 tax_amount]>
  (<["total_buy_cost" := round2 (item_price + tax_amount)]> ∅))).

(** [calculate_amazon_fees] *)
Definition calculate_amazon_fees (self : calculator) (sell_price : Q)
    (category : string) : result (gmap string Q) :=
  margins ← getattr PROFIT_CONFIG "CATEGORY_MARGINS";
  fallback ← config_float "AMAZON_FEE_PERCENT";
  referral_rate ← dict_get margins category fallback;
  let referral_fee := sell_price * referral_rate in
  let fba_fee := _estimate_fba_fee sell_price in
  let closing_fee :=
    if bool_decide (category ∈ ["Books"; "Music"; "DVD"]) then 180 # 100 else 0 in
  let total_fees := referral_fee + fba_fee + closing_fee in
  mret (<["referral_fee" := round2 referral_fee]>
       (<["fulfillment_fee" := round2 fba_fee]>
       (<["closing_fee" := round2 closing_fee]>
       (<["total_fees" := round2 total_fees]> ∅)))).

(** [calculate_ebay_fees] *)
Definition calculate_ebay_fees (self : calculator) (sell_price : Q)
  : result (gmap string Q) :=
  ebay_rate ← config_float "EBAY_FEE_PERCENT";
  let final_value_fee := sell_price * ebay_rate in
  paypal_rate ← config_float "PAYPAL_FEE_PERCENT";
  paypal_fixed ← config_float "PAYPAL_FEE_FIXED";
  let payment_fee := sell_price * paypal_rate + paypal_fixed in
  let insertion_fee := 0 in
  let total_fees := final_value_fee + payment_fee + insertion_fee in
  mret (<["final_value_fee" := round2 final_value_fee]>
       (<["payment_processing_fee" := round2 payment_fee]>
       (<["insertion_fee" := round2 insertion_fee]>
       (<["total_fees" := round2 total_fees]> ∅)))).

(** [fees.get('referral_fee') or fees.get('final_value_fee', 0)] *)
Definition platform_fee_of (fees : gmap string Q) : Q :=
  or_else (fees !! "referral_fee") (default 0 (fees !! "final_value_fee")) id.

(** [calculate_profit] *)
Definition calculate_profit (self : calculator) (buy_price sell_price : Q)
    (marketplace category : string) (include_shipping : bool)
  : result ProfitAnalysis :=
  let buy_cost := calculate_buy_cost self buy_price None in
  total_buy_cost ← getitem buy_cost "total_buy_cost";
  fees ← (if String.eqb (lower marketplace) "amazon"
          then calculate_amazon_fees self sell_price category
          else calculate_ebay_fees self sell_price);
  total_fees ← getitem fees "total_fees";
  let shipping_cost := if include_shipping then self_shipping_cost self else 0 in
  let gross_revenue := sell_price in
  let total_costs := total_buy_cost + total_fees + shipping_cost in
  let net_profit := gross_revenue - total_costs in
  let profit_margin :=
    if Qgtb sell_price 0 then (net_profit / sell_price) * 100 else 0 in
  let roi_percent :=
    if Qgtb total_buy_cost 0 then (net_profit / total_buy_cost) * 100 else 0 in
  let is_profitable :=
    Qgeb net_profit (self_min_profit_amount self)
    && Qgeb profit_margin (self_min_profit_margin self * 100) in
  let opportunity_score :=
    _calculate_opportunity_score net_profit profit_margin roi_percent in
  let recommendation :=
    _generate_recommendation is_profitable net_profit profit_margin roi_percent in
  tax_rate ← getitem buy_cost "sales_tax_rate";
  tax_amount ← getitem buy_cost "sales_tax_amount";
  mret {| buy_price := buy_price;
          sales_tax_rate := tax_rate;
          sales_tax_amount := tax_amount;
          total_buy_cost := total_buy_cost;
          sell_price := sell_price;
          marketplace := marketplace;
          platform_fees := platform_fee_of fees;
          payment_processing_fees := default 0 (fees !! "payment_processing_fee");
          fulfillment_fees := default 0 (fees !! "fulfillment_fee");
          total_fees := total_fees;
          estimated_shipping := shipping_cost;
          gross_revenue := gross_revenue;
          net_profit := round2 net_profit;
          profit_margin := round2 profit_margin;
          roi_percent := round2 roi_percent;
          is_profitable := is_profitable;
          opportunity_score := round2 opportunity_score;
          recommendation := recommendation;
          fee_breakdown := fees |}.

(** [amazon_price and amazon_price > 0] *)
Definition price_given (price : option Q) : option Q :=
  match price with
  | Some p => if truthy p && Qgtb p 0 then Some p else None
  | None => None
  end.

(** [compare_marketplaces]: the dict is kept in insertion order. *)
Definition compare_marketplaces (self : calculator) (buy_price : Q)
    (amazon_price ebay_price : option Q) (category : string)
  : result (list (string * ProfitAnalysis)) :=
  results ← match price_given amazon_price with
            | Some p =>
                a ← calculate_profit self buy_price p "amazon" category true;
                mret [("amazon", a)]
            | None => mret []
            end;
  match price_given ebay_price with
  | Some p =>
      a ← calculate_profit self buy_price p "ebay" category true;
      mret (results ++ [("ebay", a)])
  | None => mret results
  end.

(** [find_best_marketplace] *)
Definition find_best_marketplace (self : calculator) (buy_price : Q)
    (amazon_price ebay_price : option Q) (category : string)
  : result (option ProfitAnalysis) :=
  comparisons ← compare_marketplaces self buy_price amazon_price ebay_price category;
  if is_empty comparisons then mret None
  else
    let profitable := filter (fun kv => is_profitable kv.2 = true) comparisons in
    if is_empty profitable then
      Some <$> min_key (comparisons.*2) net_profit
    else
      Some <$> max_key (profitable.*2) net_profit.

(** An item dict of [batch_analyze]: each key may be missing. *)
Record analysis_item : Type := {
  item_buy_price : option Q;
  item_sell_price : option Q;
  item_marketplace : option string;
  item_category : option string
}.

(** One turn of the loop of [batch_analyze]: the analysis to append, if any;
    an exception is printed and the item skipped. *)
Definition batch_step (self : calculator) (min_p min_m : Q) (item : analysis_item)
  : option ProfitAnalysis :=
  match calculate_profit self
          (default 0 (item_buy_price item)) (default 0 (item_sell_price item))
          (default "amazon" (item_marketplace item))
          (default "Other" (item_category item)) true with
  | Ok analysis =>
      if Qgeb (net_profit analysis) min_p && Qgeb (profit_margin analysis) (min_m * 100)
      then Some analysis else None
  | Raise _ => None
  end.

(** [batch_analyze] *)
Definition batch_analyze (self : calculator) (items : list analysis_item)
    (min_profit min_margin : option Q) : list ProfitAnalysis :=
  let min_p := or_else min_profit (self_min_profit_amount self) id in
  let min_m := or_else min_margin (self_min_profit_margin self) id in
  let results := omap (batch_step self min_p min_m) items in
  sort_desc opportunity_score results.

(** [calculate_arbitrage_profit] *)
Definition calculate_arbitrage_profit (buy_price sell_price : Q) (marketplace : string)
    (sales_tax_rate : option Q) : result ProfitAnalysis :=
  calculator ← init sales_tax_rate None None None;
  calculate_profit calculator buy_price sell_price marketplace "Other" true.

(** [find_best_opportunity] *)
Definition find_best_opportunity (buy_price : Q) (amazon_price ebay_price : option Q)
  : result (option ProfitAnalysis) :=
  calculator ← init None None None None;
  find_best_marketplace calculator buy_price amazon_price ebay_price "Other".

End WithConfig.

End ProfitCalculator.

(** ** utils.py *)

Module Utils.

(** [calculate_discount_percent], on floats as the code computes it. *)
Definition calculate_discount_percent (original current : Float64.float)
  : option Float64.float :=
  if negb (Float64.truthy original) || Float64.le original Float64.zero
     || Float64.ge current original
  then None
  else
    let discount :=
      Float64.mul (Float64.div (Float64.sub original current) original)
                  (Float64.of_Z 100) in
    Some (Float64.round2 discount).

(** [set(name.lower().split())] *)
Definition word_set (product_name : string) : gset string :=
  list_to_set (split (lower product_name)).

(** [len(a) / len(b)] on two sizes. *)
Definition ratio (a b : nat) : Q := inject_Z (Z.of_nat a) / inject_Z (Z.of_nat b).

(** [fuzzy_match_products] *)
Definition fuzzy_match_products (product_name1 product_name2 : string) : Q :=
  let words1 := word_set product_name1 in
  let words2 := word_set product_name2 in
  if bool_decide (words1 = ∅) || bool_decide (words2 = ∅) then 0
  else
    let intersection := words1 ∩ words2 in
    let union := words1 ∪ words2 in
    ratio (size intersection) (size union).

(** [re.sub(r'[^0-9]', '', s)]: the ASCII digits of [s], in order. *)
Definition digit_char (c : Ascii.ascii) : bool :=
  let n := Ascii.nat_of_ascii c in ((48 <=? n) && (n <=? 57))%nat.

Fixpoint digits_only (s : string) : string :=
  match s with
  | EmptyString => EmptyString
  | String c s' => if digit_char c then String c (digits_only s') else digits_only s'
  end.

(** [clean_upc] *)
Definition clean_upc (upc : string) : option string :=
  if String.eqb upc "" then None
  else
    let cleaned := digits_only upc in
    if bool_decide (String.length cleaned ∈ [12; 13; 14]%nat) then Some cleaned
    else None.

(** A [str] read as its sequence of code points. *)
Definition codepoints : Type := list N.

(** The code points of a text that is all ASCII. *)
Definition of_ascii (s : string) : codepoints :=
  (fun c => N_of_ascii c) <$> list_ascii_of_string s.

(** The decimal digits of all scripts (Unicode category Nd, as of Unicode
    14): they come in runs of ten consecutive code points, zero to nine,
    listed here by the code point of their zero. *)
Definition decimal_digit_runs : list N :=
  [48; 1632; 1776; 1984; 2406; 2534; 2662; 2790; 2918; 3046; 3174; 3302; 3430;
   3558; 3664; 3792; 3872; 4160; 4240; 6112; 6160; 6470; 6608; 6784; 6800;
   6992; 7088; 7232; 7248; 42528; 43216; 43264; 43472; 43504; 43600; 44016;
   65296; 66720; 68912; 69734; 69872; 69942; 70096; 70384; 70736; 70864;
   71248; 71360; 71472; 71904; 72016; 72784; 73040; 73120; 92768; 92864;
   93008; 120782; 120792; 120802; 120812; 120822; 123200; 123632; 125264;
   130032]%N.

(** [int(d)] for a one-character string: the value of a decimal digit of any
    script; [None] stands for [ValueError]. *)
Definition int_of_char (c : N) : option Z :=
  (fun zero => Z.of_N (c - zero)) <$>
    List.find (fun zero => (zero <=? c)%N && (c <? zero + 10)%N) decimal_digit_runs.

(** [[int(d) for d in upc]] *)
Fixpoint digits_of (upc : codepoints) : option (list Z) :=
  match upc with
  | [] => Some []
  | c :: s' => d ← int_of_char c; ds ← digits_of s'; Some (d :: ds)
  end.

(** [sum(digits[i] for i in indices)]: [None] stands for [IndexError]. *)
Definition sum_at (digits : list Z) (indices : list nat) : option Z :=
  foldr (fun i acc => d ← digits !! i; a ← acc; Some (d + a)%Z) (Some 0%Z) indices.

(** The check digit the code derives from the first eleven digits. *)
Definition check_digit_of (digits : list Z) : option Z :=
  odd_sum ← sum_at digits [0; 2; 4; 6; 8; 10]%nat;
  even_sum ← sum_at digits [1; 3; 5; 7; 9]%nat;
  let total := (odd_sum * 3 + even_sum)%Z in
  Some ((10 - total `mod` 10) `mod` 10)%Z.

(** [validate_upc_checksum]: [len] counts code points; [ValueError] and
    [IndexError] give [False]. *)
Definition validate_upc_checksum (upc : codepoints) : bool :=
  if is_empty upc || negb (length upc =? 12)%nat then false
  else
    match digits_of upc with
    | None => false
    | Some digits =>
        match check_digit_of digits, digits !! 11%nat with
        | Some check_digit, Some last => (check_digit =? last)%Z
        | _, _ => false
        end
    end.

(** [text[:k]] for an integer [k]: a negative [k] counts from the end. *)
Fixpoint take_string (n : nat) (s : string) : string :=
  match n, s with
  | O, _ => EmptyString
  | S n', String c s' => String c (take_string n' s')
  | S _, EmptyString => EmptyString
  end.

Definition slice_to (text : string) (k : Z) : string :=
  if (0 <=? k)%Z then take_string (Z.to_nat k) text
  else take_string (Z.to_nat (Z.of_nat (String.length text) + k)) text.

(** [truncate_string] *)
Definition truncate_string (text : string) (max_length : Z) (suffix : string) : string :=
  if (Z.of_nat (String.length text) <=? max_length)%Z then text
  else slice_to text (max_length - Z.of_nat (String.length suffix)) +:+ suffix.

(** [chunk_list]: [range(0, len(items), chunk_size)] raises [ValueError] for
    a zero step, is empty for a negative one, and otherwise holds the
    multiples of the step below the length. *)
Definition chunk_list {A} (items : list A) (chunk_size : Z) : result (list (list A)) :=
  if (chunk_size =? 0)%Z then Raise ValueError
  else if (chunk_size <? 0)%Z then Ok []
  else
    let n := Z.to_nat chunk_size in
    Ok ((fun k => take n (drop (k * n) items))
          <$> seq 0 ((length items + n - 1) / n)%nat).

(** [calculate_opportunity_tier] *)
Definition calculate_opportunity_tier (score : Q) : string :=
  if Qgeb score 80 then "Excellent"
  else if Qgeb score 60 then "Good"
  else if Qgeb score 40 then "Fair"
  else if Qgeb score 20 then "Poor"
  else "Avoid".

(** [get_tier_color] *)
Definition tier_colors : gmap string string :=
  list_to_map
    [ ("Excellent", "#28a745"); ("Good", "#6fbf73"); ("Fair", "#ffc107");
      ("Poor", "#fd7e14"); ("Avoid", "#dc3545") ].

Definition get_tier_color (tier : string) : string :=
  default "#6c757d" (tier_colors !! tier).

(** [retry_with_backoff] with its default [exceptions=(Exception,)].  [func]
    is given by the outcome of each of its successive calls; the result comes
    with the delays slept, in order.  [Ok None] is the final [return None]. *)
Fixpoint retry_from {A} (func : nat -> result A) (max_retries attempt remaining : nat)
    (delay backoff_factor : Q) : list Q * result (option A) :=
  match remaining with
  | O => ([], Ok None)
  | S remaining' =>
      match func attempt with
      | Ok a => ([], Ok (Some a))
      | Raise e =>
          if (attempt =? max_retries - 1)%nat then ([], Raise e)
          else
            let '(slept, r) :=
              retry_from func max_retries (S attempt) remaining'
                (delay * backoff_factor) backoff_factor in
            (delay :: slept, r)
      end
  end.

Definition retry_with_backoff {A} (func : nat -> result A) (max_retries : nat)
    (initial_delay backoff_factor : Q) : list Q * result (option A) :=
  retry_from func max_retries 0 max_retries initial_delay backoff_factor.

(** [Cache]: the entries with their expiry times, and the default lifetime.
    The current time is an argument of every method. *)
Record Cache (V : Type) : Type := {
  cache_data : gmap string (V * Q);
  cache_default_ttl : Q
}.
Arguments cache_data {V} _.
Arguments cache_default_ttl {V} _.

(** [Cache.get] *)
Definition cache_get {V} (now : Q) (key : string) (c : Cache V) : option V * Cache V :=
  match cache_data c !! key with
  | None => (None, c)
  | Some (value, expires) =>
      if Qgtb now expires
      then (None, {| cache_data := delete key (cache_data c);
                     cache_default_ttl := cache_default_ttl c |})
      else (Some value, c)
  end.

(** [Cache.set] *)
Definition cache_set {V} (now : Q) (key : string) (value : V) (ttl : option Q)
    (c : Cache V) : Cache V :=
  let expires := now + or_else ttl (cache_default_ttl c) id in
  {| cache_data := <[key := (value, expires)]> (cache_data c);
     cache_default_ttl := cache_default_ttl c |}.

(** [Cache.delete] *)
Definition cache_delete {V} (key : string) (c : Cache V) : Cache V :=
  {| cache_data := delete key (cache_data c);
     cache_default_ttl := cache_default_ttl c |}.

(** [Cache.clear] *)
Definition cache_clear {V} (c : Cache V) : Cache V :=
  {| cache_data := ∅; cache_default_ttl := cache_default_ttl c |}.

(** [Cache.cleanup] *)
Definition cache_cleanup {V} (now : Q) (c : Cache V) : Cache V :=
  {| cache_data := filter (fun kv => Qgtb now kv.2.2 = false) (cache_data c);
     cache_default_ttl := cache_default_ttl c |}.

(** [RateLimiter]: the limits and the times of the recorded calls. *)
Record RateLimiter : Type := {
  max_calls : nat;
  time_window : Q;
  calls : list Q
}.

(** [RateLimiter.can_call]: old calls are dropped, then the count is
    compared. *)
Definition can_call (now : Q) (r : RateLimiter) : bool * RateLimiter :=
  let kept := filter (fun c => Qltb (now - c) (time_window r) = true) (calls r) in
  ((length kept <? max_calls r)%nat,
   {| max_calls := max_calls r; time_window := time_window r; calls := kept |}).

(** [RateLimiter.record_call] *)
Definition record_call (now : Q) (r : RateLimiter) : RateLimiter :=
  {| max_calls := max_calls r; time_window := time_window r;
     calls := calls r ++ [now] |}.

(** [min(self.calls)] *)
Definition oldest_call (l : list Q) : result Q :=
  match l with
  | [] => Raise ValueError
  | c :: l' => Ok (foldl (fun best x => if Qltb x best then x else best) c l')
  end.

(** [RateLimiter.wait_time].  The clock is read twice: once by [can_call]
    ([now]) and once more after it ([later]). *)
Definition wait_time (now later : Q) (r : RateLimiter) : result Q * RateLimiter :=
  let '(free, r') := can_call now r in
  if free then (Ok 0, r')
  else
    (oldest ← oldest_call (calls r');
     Ok (max2 0 (time_window r' - (later - oldest))), r').

End Utils.

(** ** scraper_module.py: the item parsers *)

Module Scraper.

(** A value produced by [json.loads]. *)
#[local] Unset Elimination Schemes.
Inductive json : Type :=
| JNull
| JBool (b : bool)
| JNum (q : Q)
| JStr (s : string)
| JArr (l : list json)
| JObj (o : list (string * json)).
#[local] Set Elimination Schemes.

(** [ScrapedItem].  Fields the parsers copy from the payload without
    conversion keep the payload's value; [None] is [JNull]. *)
Record ScrapedItem : Type := {
  product_id : string;
  product_name : json;
  current_price : Q;
  original_price : option Q;
  discount_percent : option Q;
  upc : json;
  stock_status : string;
  product_url : option string;
  image_url : json;
  brand : json;
  category : json;
  deal_type : string;
  raw_data : option json
}.

(** Truth value of a payload value. *)
Definition jtruthy (v : json) : bool :=
  match v with
  | JNull => false
  | JBool b => b
  | JNum q => truthy q
  | JStr s => negb (String.eqb s "")
  | JArr l => negb (is_empty l)
  | JObj o => negb (is_empty o)
  end.

(** [a or b] *)
Definition jor (a b : json) : json := if jtruthy a then a else b.

Fixpoint assoc (key : string) (o : list (string * json)) : option json :=
  match o with
  | [] => None
  | (k, v) :: o' => if String.eqb k key then Some v else assoc key o'
  end.

(** [v.get(key, default)] *)
Definition jget (v : json) (key : string) (dflt : json) : result json :=
  match v with
  | JObj o => Ok (default dflt (assoc key o))
  | _ => Raise (AttributeError "get")
  end.

(** Numbers, with [bool] as the integers 0 and 1. *)
Definition as_number (v : json) : option Q :=
  match v with
  | JNum q => Some q
  | JBool b => Some (if b then 1 else 0)
  | _ => None
  end.

(** Characters and the price pattern of the HTML parsers. *)
Definition is_digit (c : Ascii.ascii) : bool :=
  let n := Ascii.nat_of_ascii c in ((48 <=? n) && (n <=? 57))%nat.

Definition is_digit_or_comma (c : Ascii.ascii) : bool :=
  is_digit c || Ascii.eqb c ","%char.

(** The longest prefix whose characters satisfy [p], and the rest. *)
Fixpoint span (p : Ascii.ascii -> bool) (s : string) : string * string :=
  match s with
  | EmptyString => (EmptyString, EmptyString)
  | String c s' =>
      if p c then let '(a, b) := span p s' in (String c a, b)
      else (EmptyString, s)
  end.

(** [re.search] with the price pattern, and [group(1)] on a match.  The
    pattern is a dollar sign followed by the group: one or more digits or
    commas, an optional dot, any number of digits.  Every part after the
    first run is optional, so the greedy choice is the match. *)
Fixpoint search_price (text : string) : option string :=
  match text with
  | EmptyString => None
  | String c s' =>
      if Ascii.eqb c "$"%char then
        let '(run, rest) := span is_digit_or_comma s' in
        if String.eqb run "" then search_price s'
        else match rest with
             | String c' rest' =>
                 if Ascii.eqb c' "."%char then Some (run +:+ "." +:+ (span is_digit rest').1)
                 else Some run
             | EmptyString => Some run
             end
      else search_price s'
  end.

(** [s.replace(',', '')] *)
Fixpoint remove_commas (s : string) : string :=
  match s with
  | EmptyString => EmptyString
  | String c s' =>
      if Ascii.eqb c ","%char then remove_commas s' else String c (remove_commas s')
  end.

(** [s.strip()] *)
Fixpoint lstrip (s : string) : string :=
  match s with
  | EmptyString => EmptyString
  | String c s' => if is_space c then lstrip s' else s
  end.

Definition strip (s : string) : string :=
  String.rev (lstrip (String.rev (lstrip s))).

(** The value of a string of decimal digits. *)
Fixpoint digits_value (acc : Z) (s : string) : Z :=
  match s with
  | EmptyString => acc
  | String c s' =>
      digits_value (10 * acc + Z.of_nat (Ascii.nat_of_ascii c - 48))%Z s'
  end.

(** [float(s)] on a text made of digits and dots, the only texts the price
    pattern lets through: digits, an optional dot, digits, with a digit
    somewhere; anything else is a [ValueError]. *)
Definition float_of_decimal (s : string) : result Q :=
  let '(ip, rest) := span is_digit s in
  match rest with
  | EmptyString =>
      if String.eqb ip "" then Raise ValueError
      else Ok (inject_Z (digits_value 0 ip))
  | String c fp =>
      if Ascii.eqb c "."%char
         && String.eqb (span is_digit fp).2 ""
         && negb (String.eqb ip "" && String.eqb fp "")
      then Ok (inject_Z (digits_value 0 ip)
               + inject_Z (digits_value 0 fp) / inject_Z (10 ^ Z.of_nat (String.length fp)))
      else Raise ValueError
  end.

(** What a parser reads off one BeautifulSoup element: its attributes and
    the outcome of each [elem.find(...)] the parser issues (the text of the
    first match, or the attributes of the first [img]). *)
Record Tag : Type := {
  attrs : gmap string string;
  find_title : option string;
  find_price : option string;
  find_img : option (gmap string string)
}.

(** [elem.get(name)] with [None] as [JNull]. *)
Definition tag_get (attrs : gmap string string) (name : string) : json :=
  match attrs !! name with Some v => JStr v | None => JNull end.

Section Parsers.

(** [str(v)] of a payload value that is not a string, [float(s)] of an
    arbitrary string and [a > b] on two arrays are left abstract. *)
Variable render : json -> string.
Variable float_of_str : string -> result Q.
Variable array_gt : list json -> list json -> result bool.

(** [self.base_url] *)
Variable base_url : string.

(** [str(v)] and the formatting of [v] in an f-string. *)
Definition str_of (v : json) : string :=
  match v with JStr s => s | _ => render v end.

(** [float(v)] *)
Definition float_of (v : json) : result Q :=
  match v with
  | JNum q => Ok q
  | JBool b => Ok (if b then 1 else 0)
  | JStr s => float_of_str s
  | _ => Raise TypeError
  end.

(** [a > b] *)
Definition jgt (a b : json) : result bool :=
  match as_number a, as_number b with
  | Some x, Some y => Ok (Qgtb x y)
  | _, _ =>
      match a, b with
      | JStr s, JStr t => Ok (String.ltb t s)
      | JArr l, JArr m => array_gt l m
      | _, _ => Raise TypeError
      end
  end.

(** [round(((a - b) / a) * 100, 2)]: arithmetic is defined on numbers only. *)
Definition discount_of (a b : json) : result Q :=
  match as_number a, as_number b with
  | Some x, Some y => Ok (round2 (((x - y) / x) * 100))
  | _, _ => Raise TypeError
  end.

(** The body of the [try] of [_parse_walmart_product]. *)
Definition parse_walmart_product_body (product : json) (deal_type : string)
  : result (option ScrapedItem) :=
  id1 ← jget product "id" JNull;
  product_id ← (if jtruthy id1 then mret id1 else jget product "usItemId" JNull);
  if negb (jtruthy product_id) then mret None else
  price_info ← jget product "price" (JObj []);
  current_info ← jget price_info "currentPrice" (JObj []);
  current_price ← jget current_info "price" (JNum 0);
  was_info ← jget price_info "wasPrice" (JObj []);
  original_price ← jget was_info "price" (JNum 0);
  if negb (jtruthy current_price) then mret None else
  higher ← (if jtruthy original_price then jgt original_price current_price
            else mret false);
  discount_percent ← (if (higher : bool)
                      then fmap (M:=result) Some (discount_of original_price current_price)
                      else mret None);
  upc1 ← jget product "upc" JNull;
  upc ← (if jtruthy upc1 then mret upc1 else jget product "gtin" JNull);
  name ← jget product "name" (JStr "Unknown Product");
  brand ← jget product "brand" (JStr "");
  category ← jget product "category" (JStr "");
  image_url ← jget product "imageUrl" (JStr "");
  let product_url := base_url +:+ "/ip/" +:+ str_of product_id in
  inventory ← jget product "inventory" (JObj []);
  available ← jget inventory "availableOnline" JNull;
  let stock_status := if jtruthy available then "In Stock" else "Unknown" in
  price ← float_of current_price;
  original ← (if jtruthy original_price
              then fmap (M:=result) Some (float_of original_price)
              else mret None);
  mret (Some {| product_id := str_of product_id;
                product_name := name;
                current_price := price;
                original_price := original;
                discount_percent := discount_percent;
                upc := upc;
                stock_status := stock_status;
                product_url := Some product_url;
                image_url := image_url;
                brand := brand;
                category := category;
                deal_type := deal_type;
                raw_data := Some product |}).

(** [_parse_walmart_product]: any exception is caught and gives [None]. *)
Definition _parse_walmart_product (product : json) (deal_type : string)
  : option ScrapedItem :=
  match parse_walmart_product_body product deal_type with
  | Ok r => r
  | Raise _ => None
  end.

(** The price block shared by the two HTML parsers. *)
Definition html_current_price (price_elem : option string) : result Q :=
  match price_elem with
  | Some text =>
      let price_text := strip text in
      match search_price price_text with
      | Some group1 => float_of_decimal (remove_commas group1)
      | None => Ok 0
      end
  | None => Ok 0
  end.

(** The rest of the two HTML parsers, from the product id on; [path] is
    ["/ip/"] for Walmart and ["/p/"] for Home Depot. *)
Definition parse_html_element_body (product_id : json) (path : string)
    (elem : Tag) (deal_type : string) : result (option ScrapedItem) :=
  if negb (jtruthy product_id) then mret None else
  let name := match find_title elem with
              | Some text => strip text
              | None => "Unknown"
              end in
  current_price ← html_current_price (find_price elem);
  let image_url := match find_img elem with
                   | Some img => default "" (img !! "src")
                   | None => ""
                   end in
  mret (Some {| product_id := str_of product_id;
                product_name := JStr name;
                current_price := current_price;
                original_price := None;
                discount_percent := None;
                upc := JNull;
                stock_status := "Unknown";
                product_url := Some (base_url +:+ path +:+ str_of product_id);
                image_url := JStr image_url;
                brand := JNull;
                category := JNull;
                deal_type := deal_type;
                raw_data := None |}).

(** [_parse_walmart_html_element] *)
Definition _parse_walmart_html_element (elem : Tag) (deal_type : string)
  : option ScrapedItem :=
  let product_id := tag_get (attrs elem) "data-item-id" in
  match parse_html_element_body product_id "/ip/" elem deal_type with
  | Ok r => r
  | Raise _ => None
  end.

(** [_parse_homedepot_html_element] *)
Definition _parse_homedepot_html_element (elem : Tag) (deal_type : string)
  : option ScrapedItem :=
  let product_id :=
    jor (tag_get (attrs elem) "data-productid") (tag_get (attrs elem) "data-itemid") in
  match parse_html_element_body product_id "/p/" elem deal_type with
  | Ok r => r
  | Raise _ => None
  end.

(** [for x in v]: a list yields its elements, a dict its keys, a string its
    characters; anything else is not iterable. *)
Fixpoint chars_of (s : string) : list json :=
  match s with
  | EmptyString => []
  | String c s' => JStr (String c EmptyString) :: chars_of s'
  end.

Definition jiter (v : json) : result (list json) :=
  match v with
  | JArr l => Ok l
  | JObj o => Ok (JStr <$> o.*1)
  | JStr s => Ok (chars_of s)
  | _ => Raise TypeError
  end.

(** The inner loop of [_parse_nextjs_data]: a product whose parse gives
    nothing is skipped. *)
Definition parse_products (products : list json) (deal_type : string)
  : list ScrapedItem :=
  omap (fun product => _parse_walmart_product product deal_type) products.

(** The outer loop of [_parse_nextjs_data] over the item stacks.  An
    exception ends the loop; the items collected so far are kept. *)
Fixpoint parse_stacks (stacks : list json) (deal_type : string) : list ScrapedItem :=
  match stacks with
  | [] => []
  | stack :: stacks' =>
      match jget stack "items" (JArr []) ≫= jiter with
      | Ok products => parse_products products deal_type ++ parse_stacks stacks' deal_type
      | Raise _ => []
      end
  end.

(** [_parse_nextjs_data] *)
Definition _parse_nextjs_data (data : json) (deal_type : string) : list ScrapedItem :=
  match (props ← jget data "props" (JObj []);
         page_props ← jget props "pageProps" (JObj []);
         initial_data ← jget page_props "initialData" (JObj []);
         search_result ← jget initial_data "searchResult" (JObj []);
         item_stacks ← jget search_result "itemStacks" (JArr []);
         jiter item_stacks) with
  | Ok stacks => parse_stacks stacks deal_type
  | Raise _ => []
  end.

End Parsers.

End Scraper.

(** ** api.py: the search orchestrator *)

Module Api.

Import Scraper.

(** One entry of the global [active_searches]. *)
Record SearchState : Type := {
  status : string;
  stores_found : nat;
  items_scraped : nat;
  opportunities_found : nat;
  error : option string
}.

(** A store dict as [StoreLocator] builds it; the orchestrator reads three
    of its keys. *)
Record Store : Type := {
  store_id : string;
  retailer : string;
  zip_code : json
}.

(** [SearchRequest] *)
Record SearchRequest : Type := {
  req_zip_code : string;
  req_radius : Z;
  req_retailers : list string;
  req_check_prices : bool;
  req_min_profit : Q;
  req_min_margin : Q
}.

(** [MarketplaceListing], and the row [get_best_price] returns. *)
Record MarketplaceListing : Type := {
  price : Q;
  shipping_cost : Q;
  total_price : Q
}.

Record BestComparison : Type := {
  best_total_price : Q;
  best_marketplace : string
}.

(** The collaborators of the orchestrator: the database session, the
    repositories, the scrapers and the marketplace checker.  Each call acts
    on the outside world [W] and either returns or raises. *)
Class Env (W : Type) : Type := {
  session_open : W -> W * result unit;
  session_flush : W -> W * result unit;
  session_commit : W -> W * result unit;
  session_rollback : W -> W * result unit;
  session_close : W -> W * result unit;
  update_status :
    nat -> string -> option (nat * nat * nat) -> option string -> W -> W * result unit;
  find_stores : string -> Z -> W -> W * result (gmap string (list Store));
  scrape_walmart_store : string -> json -> W -> W * result (list ScrapedItem);
  scrape_homedepot_store : string -> json -> W -> W * result (list ScrapedItem);
  store_create_or_update : Store -> W -> W * result unit;
  inventory_create_or_update : string -> ScrapedItem -> W -> W * result nat;
  check_marketplace_prices :
    json -> json -> W -> W * result (list (string * list MarketplaceListing));
  price_create_or_update : nat -> string -> MarketplaceListing -> W -> W * result unit;
  get_best_price : nat -> W -> W * result (option BestComparison);
  opportunity_create_or_update :
    nat -> BestComparison -> Q -> ProfitCalculator.ProfitAnalysis -> W -> W * result unit;
  get_high_opportunities : Q -> W -> W * result nat
}.

(** The program state: the global dict and the outside world. *)
Record State (W : Type) : Type := {
  active_searches : gmap nat SearchState;
  world : W
}.
Arguments active_searches {W} _.
Arguments world {W} _.

(** Computations that read and write the state and may raise. *)
Definition M (W A : Type) : Type := State W -> State W * result A.

Definition ret {W A} (a : A) : M W A := fun st => (st, Ok a).

Definition raise {W A} (e : exn) : M W A := fun st => (st, Raise e).

Definition bind {W A B} (m : M W A) (k : A -> M W B) : M W B :=
  fun st =>
    match m st with
    | (st', Ok a) => k a st'
    | (st', Raise e) => (st', Raise e)
    end.

Notation "'let*' x ':=' m 'in' k" := (bind m (fun x => k))
  (at level 10, x name, m at level 100, k at level 200).
Notation "m '>>' k" := (bind m (fun _ => k))
  (at level 100, k at level 200, right associativity).

(** [try: m except Exception as e: h e] *)
Definition try_catch {W A} (m : M W A) (h : exn -> M W A) : M W A :=
  fun st =>
    match m st with
    | (st', Ok a) => (st', Ok a)
    | (st', Raise e) => h e st'
    end.

(** [try: m finally: f] *)
Definition finally {W A} (m : M W A) (f : M W unit) : M W A :=
  fun st =>
    match m st with
    | (st', r) =>
        match f st' with
        | (st'', Ok _) => (st'', r)
        | (st'', Raise e) => (st'', Raise e)
        end
    end.

(** [for x in l: body x] *)
Fixpoint for_each {W A} (l : list A) (body : A -> M W unit) : M W unit :=
  match l with
  | [] => ret tt
  | x :: l' => body x >> for_each l' body
  end.

(** A call to a collaborator. *)
Definition lift {W A} (op : W -> W * result A) : M W A :=
  fun st =>
    let '(w, r) := op (world st) in
    ({| active_searches := active_searches st; world := w |}, r).

(** A pure computation that may raise. *)
Definition of_result {W A} (r : result A) : M W A := fun st => (st, r).

(** [active_searches[search_id]] *)
Definition get_search {W} (search_id : nat) : M W SearchState :=
  fun st =>
    match active_searches st !! search_id with
    | Some s => (st, Ok s)
    | None => (st, Raise (KeyError "search_id"))
    end.

(** [active_searches[search_id][field] = ...]: the entry is looked up, then
    updated in place. *)
Definition update_search {W} (search_id : nat) (f : SearchState -> SearchState)
  : M W unit :=
  let* s := get_search search_id in
  fun st =>
    ({| active_searches := <[search_id := f s]> (active_searches st);
        world := world st |}, Ok tt).

Definition set_status (v : string) (s : SearchState) : SearchState :=
  {| status := v; stores_found := stores_found s; items_scraped := items_scraped s;
     opportunities_found := opportunities_found s; error := error s |}.

Definition set_stores_found (n : nat) (s : SearchState) : SearchState :=
  {| status := status s; stores_found := n; items_scraped := items_scraped s;
     opportunities_found := opportunities_found s; error := error s |}.

Definition incr_items_scraped (s : SearchState) : SearchState :=
  {| status := status s; stores_found := stores_found s;
     items_scraped := S (items_scraped s);
     opportunities_found := opportunities_found s; error := error s |}.

Definition set_opportunities_found (n : nat) (s : SearchState) : SearchState :=
  {| status := status s; stores_found := stores_found s; items_scraped := items_scraped s;
     opportunities_found := n; error := error s |}.

Definition set_error (v : option string) (s : SearchState) : SearchState :=
  {| status := status s; stores_found := stores_found s; items_scraped := items_scraped s;
     opportunities_found := opportunities_found s; error := v |}.

(** [str(e)] *)
Definition str_exn (e : exn) : string :=
  match e with
  | AttributeError a => "object has no attribute '" +:+ a +:+ "'"
  | KeyError k => "'" +:+ k +:+ "'"
  | TypeError => "TypeError"
  | ValueError => "ValueError"
  | RuntimeError msg => msg
  end.

Section Orchestrator.

Context {W : Type} `{Env W}.

(** [with get_db_session() as session: body] *)
Definition with_db_session {A} (body : M W A) : M W A :=
  lift session_open >>
  finally
    (try_catch
       (let* a := body in lift session_commit >> ret a)
       (fun e => lift session_rollback >> raise e))
    (lift session_close).

(** [check_and_save_prices] *)
Definition check_and_save_prices (inventory_item_id : nat) (upc product_name : json)
  : M W unit :=
  try_catch
    (let* prices := lift (check_marketplace_prices upc product_name) in
     for_each prices (fun '(marketplace, listings) =>
       for_each (take 3 listings) (fun listing =>
         try_catch
           (lift (price_create_or_update inventory_item_id marketplace listing))
           (fun e => ret tt))))
    (fun e => ret tt).

(** [calculate_and_save_opportunity] *)
Definition calculate_and_save_opportunity (inventory_item_id : nat)
    (buy_price min_profit min_margin : Q) : M W unit :=
  try_catch
    (let* best_comparison := lift (get_best_price inventory_item_id) in
     match best_comparison with
     | None => ret tt
     | Some best =>
         let* calculator :=
           of_result (ProfitCalculator.init Config.PROFIT_CONFIG
                        None None (Some min_profit) (Some min_margin)) in
         let* analysis :=
           of_result (ProfitCalculator.calculate_profit Config.PROFIT_CONFIG calculator
                        buy_price (best_total_price best) (best_marketplace best)
                        "Other" true) in
         if ProfitCalculator.is_profitable analysis
         then lift (opportunity_create_or_update inventory_item_id best buy_price analysis)
         else ret tt
     end)
    (fun e => ret tt).

(** The body of the [with get_db_session()] block of the item loop: the item
    is saved, priced and analysed, then counted. *)
Definition item_body (store_id : string) (search_id : nat)
    (min_profit min_margin : Q) (item : ScrapedItem) : M W unit :=
  let* db_item_id := lift (inventory_create_or_update store_id item) in
  lift session_flush >>
  (if jtruthy (upc item)
   then check_and_save_prices db_item_id (upc item) (product_name item)
   else ret tt) >>
  calculate_and_save_opportunity db_item_id (current_price item)
    min_profit min_margin >>
  update_search search_id incr_items_scraped.

(** One turn of the item loop of [process_store_inventory]: the [try] and
    its [except Exception: print(...); continue]. *)
Definition process_item (store_id : string) (search_id : nat)
    (min_profit min_margin : Q) (item : ScrapedItem) : M W unit :=
  try_catch
    (with_db_session (item_body store_id search_id min_profit min_margin item))
    (fun e => ret tt).

(** The scraping step at the head of [process_store_inventory]: [None] is
    the early [return] for an unknown retailer. *)
Definition scrape_store (store : Store) : M W (option (list ScrapedItem)) :=
  if String.eqb (retailer store) "walmart" then
    let* items := lift (scrape_walmart_store (store_id store) (zip_code store)) in
    ret (Some items)
  else if String.eqb (retailer store) "homedepot" then
    let* items := lift (scrape_homedepot_store (store_id store) (zip_code store)) in
    ret (Some items)
  else ret None.

(** [process_store_inventory] *)
Definition process_store_inventory (store : Store) (search_id : nat)
    (min_profit min_margin : Q) : M W unit :=
  try_catch
    (let* scraped := scrape_store store in
     match scraped with
     | None => ret tt
     | Some items =>
         with_db_session (lift (store_create_or_update store)) >>
         for_each items (process_item (store_id store) search_id min_profit min_margin)
     end)
    (fun e => ret tt).

(** The first part of the [try] of [run_full_search], up to the list of
    stores to process. *)
Definition discover_stores (search_id : nat) (request : SearchRequest)
  : M W (list Store) :=
  update_search search_id (set_status "running") >>
  with_db_session (lift (update_status search_id "running" None None)) >>
  let* all_stores := lift (find_stores (req_zip_code request) (req_radius request)) in
  let stores_to_process :=
    flat_map (fun retailer => default [] (all_stores !! retailer))
             (req_retailers request) in
  update_search search_id (set_stores_found (length stores_to_process)) >>
  ret stores_to_process.

(** The store loop of [run_full_search]. *)
Definition process_stores (search_id : nat) (request : SearchRequest)
    (stores_to_process : list Store) : M W unit :=
  for_each stores_to_process (fun store =>
    process_store_inventory store search_id
      (req_min_profit request) (req_min_margin request)).

(** The last part of the [try]: the opportunity count and the completion. *)
Definition complete_search (search_id : nat) (request : SearchRequest) : M W unit :=
  with_db_session
    (let* opportunities := lift (get_high_opportunities (req_min_profit request)) in
     update_search search_id (set_opportunities_found opportunities)) >>
  update_search search_id (set_status "completed") >>
  with_db_session
    (let* s := get_search search_id in
     lift (update_status search_id "completed"
             (Some (stores_found s, items_scraped s, opportunities_found s)) None)).

(** The [except Exception as e] of [run_full_search]. *)
Definition fail_search (search_id : nat) (e : exn) : M W unit :=
  update_search search_id (set_status "failed") >>
  update_search search_id (set_error (Some (str_exn e))) >>
  with_db_session (lift (update_status search_id "failed" None (Some (str_exn e)))).

(** [run_full_search] *)
Definition run_full_search (search_id : nat) (request : SearchRequest) : M W unit :=
  try_catch
    (let* stores_to_process := discover_stores search_id request in
     process_stores search_id request stores_to_process >>
     complete_search search_id request)
    (fail_search search_id).

(** The status [get_search_status] reports for a running or finished
    search. *)
Definition status_of (search_id : nat) (st : State W) : option string :=
  status <$> (active_searches st !! search_id).

Definition items_scraped_of (search_id : nat) (st : State W) : option nat :=
  items_scraped <$> (active_searches st !! search_id).

End Orchestrator.

End Api.

(** ** market_checker.py: the price-comparison engine *)

Module MarketChecker.

(** [MarketplaceListing] *)
Record Listing : Type := {
  marketplace : string;
  listing_id : option string;
  price : Q;
  shipping_cost : Q;
  total_price : Q
}.

(** The four searches of the two clients, each given by its outcome on a
    query: a list of listings, or an exception. *)
Record Searches : Type := {
  ebay_by_upc : string -> result (list Listing);
  ebay_by_keyword : string -> result (list Listing);
  amazon_by_upc : string -> result (list Listing);
  amazon_by_keyword : string -> result (list Listing)
}.

(** [if upc:] for an optional string. *)
Definition given (s : option string) : option string :=
  match s with
  | Some v => if String.eqb v "" then None else Some v
  | None => None
  end.

(** The task queued for one marketplace, if any: by UPC when there is one,
    else by name. *)
Definition task_for (check : bool) (by_upc by_keyword : string -> result (list Listing))
    (upc product_name : option string) : option (result (list Listing)) :=
  if check then
    match given upc, given product_name with
    | Some u, _ => Some (by_upc u)
    | None, Some n => Some (by_keyword n)
    | None, None => None
    end
  else None.

(** What [asyncio.gather(..., return_exceptions=True)] and the loop after it
    leave for one marketplace: the list, or the initial [[]] when there was no
    task or the task raised. *)
Definition gathered (task : option (result (list Listing))) : list Listing :=
  match task with
  | Some (Ok listings) => listings
  | Some (Raise _) => []
  | None => []
  end.

(** [PriceComparisonEngine.compare_prices]: the dict, in insertion order. *)
Definition compare_prices (s : Searches) (upc product_name : option string)
    (check_ebay check_amazon : bool) : list (string * list Listing) :=
  [ ("ebay", gathered (task_for check_ebay (ebay_by_upc s) (ebay_by_keyword s)
                         upc product_name));
    ("amazon", gathered (task_for check_amazon (amazon_by_upc s) (amazon_by_keyword s)
                           upc product_name)) ].

(** [PriceComparisonEngine.get_best_price] *)
Definition get_best_price (s : Searches) (upc product_name : option string)
  : option Listing :=
  let results := compare_prices s upc product_name true true in
  let all_listings := concat (results.*2) in
  if is_empty all_listings then None
  else head (sort_asc total_price all_listings).

(** [PriceComparisonEngine.calculate_fees] *)
Definition calculate_fees (PROFIT_CONFIG : gmap string pyval) (listing : Listing)
  : result (gmap string Q) :=
  let price := price listing in
  if String.eqb (marketplace listing) "amazon" then
    rate ← getattr PROFIT_CONFIG "AMAZON_FEE_PERCENT" ≫= as_float;
    let referral_fee := price * rate in
    let fba_fee := 550 # 100 in
    let total_fees := referral_fee + fba_fee in
    mret (<["referral_fee" := referral_fee]>
         (<["fulfillment_fee" := fba_fee]>
         (<["total_fees" := total_fees]> ∅)))
  else if String.eqb (marketplace listing) "ebay" then
    ebay_rate ← getattr PROFIT_CONFIG "EBAY_FEE_PERCENT" ≫= as_float;
    let final_value_fee := price * ebay_rate in
    paypal_rate ← getattr PROFIT_CONFIG "PAYPAL_FEE_PERCENT" ≫= as_float;
    paypal_fixed ← getattr PROFIT_CONFIG "PAYPAL_FEE_FIXED" ≫= as_float;
    let paypal_fee := price * paypal_rate + paypal_fixed in
    let total_fees := final_value_fee + paypal_fee in
    mret (<["final_value_fee" := final_value_fee]>
         (<["paypal_fee" := paypal_fee]>
         (<["total_fees" := total_fees]> ∅)))
  else mret {["total_fees" := 0]}.

End MarketChecker.

(** ** Reference values used in the statements below *)

Module Reference.

Import ProfitCalculator Scraper.

(** The calculator built by [ProfitCalculator()] under the shipped
    configuration. *)
Definition default_calculator : calculator :=
  {| self_sales_tax_rate := 8 # 100; self_shipping_cost := 5;
     self_min_profit_amount := 5; self_min_profit_margin := 20 # 100 |}.

(** The score as the specification words it: profit on a per-$0.50 scale
    capped at 40, margin over 2 capped at 30, ROI over 3 capped at 30, the sum
    clamped to 100. *)
Definition spec_opportunity_score (net_profit profit_margin roi_percent : Q) : Q :=
  min2 (min2 (net_profit / (1 # 2)) 40
        + min2 (profit_margin / 2) 30
        + min2 (roi_percent / 3) 30) 100.

(** The referral rate and closing fee [calculate_amazon_fees] works with once
    the category table is reachable. *)
Definition referral_rate (cat : string) : Q :=
  default (15 # 100) (Config.CATEGORY_MARGINS !! cat).
Definition closing_fee (cat : string) : Q :=
  if bool_decide (cat ∈ ["Books"; "Music"; "DVD"]) then 180 # 100 else 0.
Definition amazon_total_fees (p : Q) (cat : string) : Q :=
  round2 (p * referral_rate cat + _estimate_fba_fee p + closing_fee cat).

(** An element with a product id and no price element, as either HTML parser
    may meet it. *)
Definition priceless_walmart_tag : Tag :=
  {| attrs := {["data-item-id" := "12345"]};
     find_title := Some "Widget"; find_price := None; find_img := None |}.

Definition priceless_homedepot_tag : Tag :=
  {| attrs := {["data-productid" := "205"]};
     find_title := Some "Drill"; find_price := Some "Call for price";
     find_img := None |}.

(** [price_info.get('currentPrice', {}).get('price', 0)] of a Walmart
    product payload. *)
Definition walmart_price_field (product : json) : result json :=
  price_info ← jget product "price" (JObj []);
  current_info ← jget price_info "currentPrice" (JObj []);
  jget current_info "price" (JNum 0).

(** The state a computation leaves behind. *)
Definition exec {W A} (m : Api.M W A) (st : Api.State W) : Api.State W := (m st).1.

(** [m] returns normally from every state. *)
Definition never_raises {W} (m : Api.M W unit) : Prop :=
  forall st, (m st).2 = Ok tt.

(** Every run of [m] takes a state to one related to it by [R]. *)
Definition respects {W A} (R : relation (Api.State W)) (m : Api.M W A) : Prop :=
  forall st, R st (m st).1.

(** The global dict is untouched. *)
Definition same_searches {W} (st st' : Api.State W) : Prop :=
  Api.active_searches st' = Api.active_searches st.

(** No search changes status. *)
Definition same_status {W} (st st' : Api.State W) : Prop :=
  forall search_id, Api.status_of search_id st' = Api.status_of search_id st.

(** The state after the store loop, as the fold of every store's run. *)
Definition after_stores {W} `{Api.Env W} (search_id : nat) (request : Api.SearchRequest)
    (stores : list Api.Store) (st : Api.State W) : Api.State W :=
  foldl (fun st store =>
           exec (Api.process_store_inventory store search_id
                   (Api.req_min_profit request) (Api.req_min_margin request)) st)
        st stores.

(** The state after the item loop of one store. *)
Definition after_items {W} `{Api.Env W} (store_id : string) (search_id : nat)
    (min_profit min_margin : Q) (items : list Scraper.ScrapedItem)
    (st : Api.State W) : Api.State W :=
  foldl (fun st item =>
           exec (Api.process_item store_id search_id min_profit min_margin item) st)
        st items.

(** A concrete outside world for the statements below: the world is the log
    of the calls made.  Scraping store "W1" raises, saving item "A" raises,
    every other call returns. *)
Definition logged {A} (name : string) (r : result A) (w : list string)
  : list string * result A := (w ++ [name], r).

Definition demo_item (id : string) : Scraper.ScrapedItem :=
  {| Scraper.product_id := id; Scraper.product_name := Scraper.JStr id;
     Scraper.current_price := 10; Scraper.original_price := None;
     Scraper.discount_percent := None; Scraper.upc := Scraper.JNull;
     Scraper.stock_status := "Unknown"; Scraper.product_url := None;
     Scraper.image_url := Scraper.JNull; Scraper.brand := Scraper.JNull;
     Scraper.category := Scraper.JNull; Scraper.deal_type := "Clearance";
     Scraper.raw_data := None |}.

Definition demo_store (id : string) : Api.Store :=
  {| Api.store_id := id; Api.retailer := "walmart"; Api.zip_code := Scraper.JStr "72712" |}.

#[global] Instance demo_env : Api.Env (list string) := {|
  Api.session_open := logged "open" (Ok tt);
  Api.session_flush := logged "flush" (Ok tt);
  Api.session_commit := logged "commit" (Ok tt);
  Api.session_rollback := logged "rollback" (Ok tt);
  Api.session_close := logged "close" (Ok tt);
  Api.update_status := fun _ status _ _ => logged ("status " +:+ status) (Ok tt);
  Api.find_stores := fun _ _ =>
    logged "find_stores" (Ok {["walmart" := [demo_store "W1"; demo_store "W2"]]});
  Api.scrape_walmart_store := fun store_id _ =>
    logged ("scrape " +:+ store_id)
      (if String.eqb store_id "W1" then Raise (RuntimeError "browser crashed")
       else Ok [demo_item "A"; demo_item "B"]);
  Api.scrape_homedepot_store := fun store_id _ => logged ("scrape " +:+ store_id) (Ok []);
  Api.store_create_or_update := fun store =>
    logged ("save store " +:+ Api.store_id store) (Ok tt);
  Api.inventory_create_or_update := fun _ item =>
    logged ("save item " +:+ Scraper.product_id item)
      (if String.eqb (Scraper.product_id item) "A"
       then Raise (RuntimeError "constraint violated") else Ok 7%nat);
  Api.check_marketplace_prices := fun _ _ => logged "check prices" (Ok []);
  Api.price_create_or_update := fun _ _ _ => logged "save price" (Ok tt);
  Api.get_best_price := fun _ => logged "best price" (Ok None);
  Api.opportunity_create_or_update := fun _ _ _ _ => logged "save opportunity" (Ok tt);
  Api.get_high_opportunities := fun _ => logged "count opportunities" (Ok 0%nat)
|}.

Definition demo_request : Api.SearchRequest :=
  {| Api.req_zip_code := "72712"; Api.req_radius := 20;
     Api.req_retailers := ["walmart"; "homedepot"]; Api.req_check_prices := true;
     Api.req_min_profit := 5; Api.req_min_margin := 20 # 100 |}.

(** The state [start_search] leaves for search 1. *)
Definition demo_state : Api.State (list string) :=
  {| Api.active_searches :=
       {[ 1%nat := {| Api.status := "running"; Api.stores_found := 0;
                      Api.items_scraped := 0; Api.opportunities_found := 0;
                      Api.error := None |} ]};
     Api.world := [] |}.

(** The unrounded figures [calculate_profit] derives from the rounded cost
    and fee totals of an analysis. *)
Definition raw_net_profit (a : ProfitAnalysis) : Q :=
  sell_price a - (total_buy_cost a + total_fees a + estimated_shipping a).

Definition raw_profit_margin (a : ProfitAnalysis) : Q :=
  if Qgtb (sell_price a) 0 then (raw_net_profit a / sell_price a) * 100 else 0.

Definition raw_roi_percent (a : ProfitAnalysis) : Q :=
  if Qgtb (total_buy_cost a) 0 then (raw_net_profit a / total_buy_cost a) * 100 else 0.

(** Two items for [batch_analyze]: one without a marketplace key (so priced
    on the default 'amazon' model) and one for eBay. *)
Definition demo_batch : list analysis_item :=
  [ {| item_buy_price := Some 5; item_sell_price := Some 40;
       item_marketplace := None; item_category := None |};
    {| item_buy_price := Some 5; item_sell_price := Some 40;
       item_marketplace := Some "ebay"; item_category := None |} ].

(** A float that is zero, positive or plus infinity. *)
Definition not_negative (v : Float64.float) : Prop :=
  match v with
  | S754_nan => False
  | S754_zero _ => True
  | S754_infinity s | S754_finite s _ _ => s = false
  end.

(** Every character is an ASCII digit. *)
Fixpoint all_digits (s : string) : bool :=
  match s with
  | EmptyString => true
  | String c s' => Utils.digit_char c && all_digits s'
  end.

(** The tiers in increasing order of merit. *)
Definition tier_rank (tier : string) : nat :=
  if String.eqb tier "Excellent" then 4
  else if String.eqb tier "Good" then 3
  else if String.eqb tier "Fair" then 2
  else if String.eqb tier "Poor" then 1
  else 0.

(** The delays of [retry_with_backoff] before the first [k] retries. *)
Fixpoint backoff_delays (delay backoff_factor : Q) (k : nat) : list Q :=
  match k with
  | O => []
  | S k' => delay :: backoff_delays (delay * backoff_factor) backoff_factor k'
  end.

(** A function that fails twice and then succeeds. *)
Definition flaky (attempt : nat) : result nat :=
  if (attempt <? 2)%nat then Raise (RuntimeError "timeout") else Ok 42%nat.

(** A limiter of two calls per minute with two calls on record. *)
Definition busy_limiter : Utils.RateLimiter :=
  {| Utils.max_calls := 2; Utils.time_window := 60; Utils.calls := [10; 25] |}.

(** An element with a product id and a price text. *)
Definition priced_walmart_tag : Tag :=
  {| attrs := {["data-item-id" := "777"]};
     find_title := Some "Patio set"; find_price := Some "Now $1,234.50";
     find_img := None |}.

(** A product payload as the Walmart pages embed it. *)
Definition demo_product : json :=
  JObj [ ("id", JStr "123");
         ("name", JStr "Blender");
         ("price", JObj [ ("currentPrice", JObj [("price", JNum 30)]);
                          ("wasPrice", JObj [("price", JNum 40)]) ]) ].

Definition demo_page : json :=
  JObj [ ("props", JObj [ ("pageProps", JObj [ ("initialData", JObj [
           ("searchResult", JObj [ ("itemStacks", JArr [
              JObj [("items", JArr [demo_product; JObj [("id", JStr "9")]])];
              JNum 3;
              JObj [("items", JArr [demo_product])] ]) ]) ]) ]) ]) ].

(** Searches are never dropped and their counters never decrease. *)
Definition counters_grow {W} (st st' : Api.State W) : Prop :=
  forall search_id s,
    Api.active_searches st !! search_id = Some s ->
    exists s',
      Api.active_searches st' !! search_id = Some s' /\
      (Api.items_scraped s <= Api.items_scraped s')%nat /\
      Api.stores_found s' = Api.stores_found s /\
      Api.opportunities_found s' = Api.opportunities_found s /\
      Api.error s' = Api.error s.

(** A world whose best comparison is always an Amazon listing. *)
Definition amazon_env : Api.Env (list string) := {|
  Api.session_open := logged "open" (Ok tt);
  Api.session_flush := logged "flush" (Ok tt);
  Api.session_commit := logged "commit" (Ok tt);
  Api.session_rollback := logged "rollback" (Ok tt);
  Api.session_close := logged "close" (Ok tt);
  Api.update_status := fun _ status _ _ => logged ("status " +:+ status) (Ok tt);
  Api.find_stores := fun _ _ => logged "find_stores" (Raise (RuntimeError "locator down"));
  Api.scrape_walmart_store := fun _ _ => logged "scrape" (Ok []);
  Api.scrape_homedepot_store := fun _ _ => logged "scrape" (Ok []);
  Api.store_create_or_update := fun _ => logged "save store" (Ok tt);
  Api.inventory_create_or_update := fun _ _ => logged "save item" (Ok 1%nat);
  Api.check_marketplace_prices := fun _ _ => logged "check prices" (Ok []);
  Api.price_create_or_update := fun _ _ _ => logged "save price" (Ok tt);
  Api.get_best_price := fun _ =>
    logged "best price"
      (Ok (Some {| Api.best_total_price := 100; Api.best_marketplace := "amazon" |}));
  Api.opportunity_create_or_update := fun _ _ _ _ => logged "save opportunity" (Ok tt);
  Api.get_high_opportunities := fun _ => logged "count opportunities" (Ok 0%nat)
|}.

(** Searches in which eBay always raises and Amazon finds two listings. *)
Definition amazon_offer (price : Q) : MarketChecker.Listing :=
  {| MarketChecker.marketplace := "amazon"; MarketChecker.listing_id := None;
     MarketChecker.price := price; MarketChecker.shipping_cost := 0;
     MarketChecker.total_price := price |}.

Definition ebay_down : MarketChecker.Searches :=
  {| MarketChecker.ebay_by_upc := fun _ => Raise (RuntimeError "eBay API error");
     MarketChecker.ebay_by_keyword := fun _ => Raise (RuntimeError "eBay API error");
     MarketChecker.amazon_by_upc := fun _ => Ok [amazon_offer 30; amazon_offer 25];
     MarketChecker.amazon_by_keyword := fun _ => Ok [] |}.

(** Whether the session now open has saved an item, in a world that is the
    log of the calls made. *)
Definition item_in_session (w : list string) : bool :=
  foldl (fun found entry =>
           if String.eqb entry "open" then false
           else found || String.eqb entry "save item") false w.

(** A world in which the commit of a session that saved an item fails (the
    database is locked); every other call returns.  The one store found has
    the one item "A". *)
Definition locked_env : Api.Env (list string) := {|
  Api.session_open := logged "open" (Ok tt);
  Api.session_flush := logged "flush" (Ok tt);
  Api.session_commit := fun w =>
    logged "commit"
      (if item_in_session w then Raise (RuntimeError "database is locked") else Ok tt) w;
  Api.session_rollback := logged "rollback" (Ok tt);
  Api.session_close := logged "close" (Ok tt);
  Api.update_status := fun _ status _ _ => logged ("status " +:+ status) (Ok tt);
  Api.find_stores := fun _ _ => logged "find_stores" (Ok {["walmart" := [demo_store "W2"]]});
  Api.scrape_walmart_store := fun _ _ => logged "scrape" (Ok [demo_item "A"]);
  Api.scrape_homedepot_store := fun _ _ => logged "scrape" (Ok []);
  Api.store_create_or_update := fun _ => logged "save store" (Ok tt);
  Api.inventory_create_or_update := fun _ _ => logged "save item" (Ok 7%nat);
  Api.check_marketplace_prices := fun _ _ => logged "check prices" (Ok []);
  Api.price_create_or_update := fun _ _ _ => logged "save price" (Ok tt);
  Api.get_best_price := fun _ => logged "best price" (Ok None);
  Api.opportunity_create_or_update := fun _ _ _ _ => logged "save opportunity" (Ok tt);
  Api.get_high_opportunities := fun _ => logged "count opportunities" (Ok 0%nat)
|}.

(** An argument of [__init__] that is not passed, or is passed as zero. *)
Definition missing (x : option Q) : Prop :=
  match x with
  | None => True
  | Some q => q == 0
  end.

(** The item stacks [_parse_nextjs_data] walks down to, each level
    defaulting when its key is absent, and the products of one stack. *)
Definition item_stacks (data : json) : result (list json) :=
  props ← jget data "props" (JObj []);
  page_props ← jget props "pageProps" (JObj []);
  initial_data ← jget page_props "initialData" (JObj []);
  search_result ← jget initial_data "searchResult" (JObj []);
  item_stacks ← jget search_result "itemStacks" (JArr []);
  jiter item_stacks.

Definition stack_products (stack : json) : result (list json) :=
  jget stack "items" (JArr []) ≫= jiter.

(** Searches in which Amazon always raises and eBay finds one listing by
    name. *)
Definition ebay_offer (price : Q) : MarketChecker.Listing :=
  {| MarketChecker.marketplace := "ebay"; MarketChecker.listing_id := None;
     MarketChecker.price := price; MarketChecker.shipping_cost := 0;
     MarketChecker.total_price := price |}.

Definition amazon_down : MarketChecker.Searches :=
  {| MarketChecker.ebay_by_upc := fun _ => Ok [];
     MarketChecker.ebay_by_keyword := fun _ => Ok [ebay_offer 12];
     MarketChecker.amazon_by_upc := fun _ => Raise (RuntimeError "blocked");
     MarketChecker.amazon_by_keyword := fun _ => Raise (RuntimeError "blocked") |}.

End Reference.

(* ===================================================================== *)
(** * Properties *)
(* ===================================================================== *)

Import ProfitCalculator Reference.

(** ** Rationals, rounding and the built-in minimum *)

Lemma Qltb_lt x y : Qltb x y = true <-> x < y.
Proof.
  unfold Qltb. rewrite negb_true_iff, <- not_true_iff_false, Qle_bool_iff.
  split; [apply Qnot_le_lt | apply Qlt_not_le].
Qed.

Lemma Qltb_ge x y : Qltb x y = false <-> y <= x.
Proof. unfold Qltb. rewrite negb_false_iff. apply Qle_bool_iff. Qed.

Lemma Qgeb_ge x y : Qgeb x y = true <-> y <= x.
Proof. apply Qle_bool_iff. Qed.

Lemma round_half_even_bounds x :
  inject_Z (round_half_even x) - (1 # 2) <= x /\ x <= inject_Z (round_half_even x) + (1 # 2).
Proof.
  unfold round_half_even.
  pose proof (Qfloor_le x) as Hlo. pose proof (Qlt_floor x) as Hhi.
  rewrite inject_Z_plus in Hhi. change (inject_Z 1) with 1 in Hhi.
  destruct (Qcompare (x - inject_Z (Qfloor x)) (1 # 2)) eqn:Hc.
  - apply Qeq_alt in Hc.
    destruct (Z.even (Qfloor x)); rewrite ?inject_Z_plus; change (inject_Z 1) with 1; lra.
  - apply Qlt_alt in Hc. lra.
  - apply Qgt_alt in Hc. rewrite inject_Z_plus. change (inject_Z 1) with 1. lra.
Qed.

Lemma round_half_even_range x :
  round_half_even x = Qfloor x \/ round_half_even x = (Qfloor x + 1)%Z.
Proof.
  unfold round_half_even.
  destruct (Qcompare _ _); [destruct (Z.even _)|..]; auto.
Qed.

Lemma round_half_even_same_floor x y :
  x <= y -> Qfloor x = Qfloor y -> (round_half_even x <= round_half_even y)%Z.
Proof.
  intros Hxy Heq. unfold round_half_even. rewrite <- Heq.
  set (n := Qfloor x).
  destruct (Qcompare (x - inject_Z n) (1 # 2)) eqn:Hx.
  - apply Qeq_alt in Hx.
    destruct (Qcompare (y - inject_Z n) (1 # 2)) eqn:Hy.
    + destruct (Z.even n); lia.
    + apply Qlt_alt in Hy. exfalso. lra.
    + destruct (Z.even n); lia.
  - destruct (Qcompare (y - inject_Z n) (1 # 2)); [destruct (Z.even n)|..]; lia.
  - apply Qgt_alt in Hx.
    destruct (Qcompare (y - inject_Z n) (1 # 2)) eqn:Hy.
    + apply Qeq_alt in Hy. exfalso. lra.
    + apply Qlt_alt in Hy. exfalso. lra.
    + lia.
Qed.

Lemma round_half_even_mono x y : x <= y -> (round_half_even x <= round_half_even y)%Z.
Proof.
  intros Hxy.
  destruct (Z.eq_dec (Qfloor x) (Qfloor y)) as [Heq|Hne].
  - by apply round_half_even_same_floor.
  - pose proof (Qfloor_resp_le _ _ Hxy) as Hfl.
    destruct (round_half_even_range x) as [-> | ->],
             (round_half_even_range y) as [-> | ->]; lia.
Qed.

Lemma Qmake_100 z : z # 100 == inject_Z z * (1 # 100).
Proof. unfold Qeq, inject_Z, Qmult. cbn [Qnum Qden]. lia. Qed.

Lemma round2_bounds x : x - (1 # 200) <= round2 x /\ round2 x <= x + (1 # 200).
Proof.
  unfold round2.
  pose proof (round_half_even_bounds (x * 100)) as Hb.
  pose proof (Qmake_100 (round_half_even (x * 100))) as Hm.
  set (r := round_half_even (x * 100) # 100) in *.
  set (z := inject_Z (round_half_even (x * 100))) in *.
  lra.
Qed.

Lemma round2_mono x y : x <= y -> round2 x <= round2 y.
Proof.
  intros Hxy. unfold round2.
  assert (Hz : (round_half_even (x * 100) <= round_half_even (y * 100))%Z)
    by (apply round_half_even_mono; lra).
  unfold Qle. cbn [Qnum Qden]. lia.
Qed.

Lemma round2_zero : round2 0 == 0.
Proof. reflexivity. Qed.

Lemma round2_nonpos x : x <= 0 -> round2 x <= 0.
Proof.
  intros Hx. pose proof (round2_mono x 0 Hx). pose proof round2_zero. lra.
Qed.

Lemma round2_nonneg x : 0 <= x -> 0 <= round2 x.
Proof.
  intros Hx. pose proof (round2_mono 0 x Hx). pose proof round2_zero. lra.
Qed.

Lemma min2_le_l a b : min2 a b <= a.
Proof.
  unfold min2. destruct (Qltb b a) eqn:E; [apply Qltb_lt in E | ]; lra.
Qed.

Lemma min2_le_r a b : min2 a b <= b.
Proof.
  unfold min2. destruct (Qltb b a) eqn:E; [|apply Qltb_ge in E]; lra.
Qed.

Lemma min2_glb a b c : c <= a -> c <= b -> c <= min2 a b.
Proof. intros. unfold min2. destruct (Qltb b a); lra. Qed.

Lemma min2_mono_l a a' b : a <= a' -> min2 a b <= min2 a' b.
Proof.
  intros Ha. apply min2_glb.
  - pose proof (min2_le_l a b). lra.
  - apply min2_le_r.
Qed.

Lemma default_calculator_init :
  init Config.PROFIT_CONFIG None None None None = Ok default_calculator.
Proof. vm_compute. reflexivity. Qed.

Lemma opportunity_score_le_100 n m r : _calculate_opportunity_score n m r <= 100.
Proof. unfold _calculate_opportunity_score. apply min2_le_r. Qed.

Lemma Qdiv_le_mono a b c : 0 < c -> a <= b -> a / c <= b / c.
Proof.
  intros Hc Hab. unfold Qdiv. apply Qmult_le_compat_r; [exact Hab|].
  apply Qlt_le_weak, Qinv_lt_0_compat, Hc.
Qed.

Lemma opportunity_score_monotone n n' m m' r r' :
  n <= n' -> m <= m' -> r <= r' ->
  _calculate_opportunity_score n m r <= _calculate_opportunity_score n' m' r'.
Proof.
  intros Hn Hm Hr. unfold _calculate_opportunity_score.
  apply min2_mono_l.
  assert (H1 : min2 (n / 20) 40 <= min2 (n' / 20) 40) 
    by (apply min2_mono_l, Qdiv_le_mono; [reflexivity|exact Hn]).
  assert (H2 : min2 (m / 2) 30 <= min2 (m' / 2) 30)
    by (apply min2_mono_l, Qdiv_le_mono; [reflexivity|exact Hm]).
  assert (H3 : min2 (r / 3) 30 <= min2 (r' / 3) 30)
    by (apply min2_mono_l, Qdiv_le_mono; [reflexivity|exact Hr]).
  lra.
Qed.

(** C3 (code defect): the score is documented as lying in 0-100, but the code
    has no lower clamp.  On the loss-making inputs (-20, 0, 0) it returns -1,
    and [calculate_profit] on buying and selling at 10 on the eBay model
    reports an opportunity score of -62.57. *)
Theorem opportunity_score_negative :
  _calculate_opportunity_score (-20) 0 0 == -1 /\
  exists a,
    calculate_profit Config.PROFIT_CONFIG default_calculator 10 10 "ebay" "Other" true
      = Ok a /\
    opportunity_score a == -6257 # 100 /\ opportunity_score a < 0.
Proof.
  split; [reflexivity|].
  eexists. split; [vm_compute; reflexivity|]. split; reflexivity.
Qed.

(** C4 (code defect): the profit component divides by 20 where the comment
    beside it and the specification award the 40 points from a 20 dollar
    profit on.  At (20, 0, 0) the code gives 1 and the documented scale
    gives 40. *)
Theorem opportunity_score_profit_scale :
  _calculate_opportunity_score 20 0 0 == 1 /\
  spec_opportunity_score 20 0 0 == 40 /\
  ~ _calculate_opportunity_score 20 0 0 == spec_opportunity_score 20 0 0.
Proof. split; [reflexivity|]. split; [reflexivity|]. discriminate. Qed.

(** ** The profit calculator *)

Lemma amazon_fees_raise self p cat :
  calculate_amazon_fees Config.PROFIT_CONFIG self p cat
  = Raise (AttributeError "CATEGORY_MARGINS").
Proof. reflexivity. Qed.

Lemma buy_cost_total self p :
  getitem (calculate_buy_cost self p None) "total_buy_cost"
  = Ok (round2 (p + p * self_sales_tax_rate self)).
Proof. reflexivity. Qed.

Lemma calculate_profit_amazon_raise self b p m cat sh :
  lower m = "amazon" ->
  calculate_profit Config.PROFIT_CONFIG self b p m cat sh
  = Raise (AttributeError "CATEGORY_MARGINS").
Proof.
  intros Hm. unfold calculate_profit. rewrite buy_cost_total. rewrite Hm.
  reflexivity.
Qed.

Lemma ebay_fees_ok self p :
  calculate_ebay_fees Config.PROFIT_CONFIG self p
  = Ok (<["final_value_fee" := round2 (p * (13 # 100))]>
       (<["payment_processing_fee" := round2 (p * (29 # 1000) + (30 # 100))]>
       (<["insertion_fee" := round2 0]>
       (<["total_fees" := round2 (p * (13 # 100) + (p * (29 # 1000) + (30 # 100)) + 0)]> ∅)))).
Proof. reflexivity. Qed.

Lemma calculate_profit_ebay self b p m cat :
  lower m <> "amazon" ->
  exists a,
    calculate_profit Config.PROFIT_CONFIG self b p m cat true = Ok a /\
    total_buy_cost a = round2 (b + b * self_sales_tax_rate self) /\
    total_fees a = round2 (p * (13 # 100) + (p * (29 # 1000) + (30 # 100)) + 0) /\
    estimated_shipping a = self_shipping_cost self /\
    net_profit a = round2 (p - (total_buy_cost a + total_fees a + estimated_shipping a)) /\
    is_profitable a =
      Qgeb (p - (total_buy_cost a + total_fees a + estimated_shipping a))
           (self_min_profit_amount self)
      && Qgeb (if Qgtb p 0
               then (p - (total_buy_cost a + total_fees a + estimated_shipping a)) / p * 100
               else 0)
              (self_min_profit_margin self * 100).
Proof.
  intros Hm. apply String.eqb_neq in Hm.
  unfold calculate_profit. rewrite buy_cost_total, Hm, ebay_fees_ok.
  eexists. split; [reflexivity|]. repeat split.
Qed.

Lemma sell_at_cost_ebay p m cat :
  0 <= p -> lower m <> "amazon" ->
  exists a,
    calculate_profit Config.PROFIT_CONFIG default_calculator p p m cat true = Ok a /\
    net_profit a < 0 /\ is_profitable a = false.
Proof.
  intros Hp Hm.
  destruct (calculate_profit_ebay default_calculator p p m cat Hm)
    as (a & Ha & Hbuy & Hfees & Hship & Hnet & Hprof).
  exists a. split; [exact Ha|].
  pose proof (round2_bounds (p + p * (8 # 100))) as [Hb1 _].
  pose proof (round2_bounds (p * (13 # 100) + (p * (29 # 1000) + (30 # 100)) + 0)) as [Hf1 _].
  cbn [default_calculator self_sales_tax_rate self_shipping_cost
       self_min_profit_amount self_min_profit_margin] in *.
  rewrite <- Hbuy in Hb1. rewrite <- Hfees in Hf1.
  assert (Hraw : p - (total_buy_cost a + total_fees a + estimated_shipping a) <= -(5)).
  { rewrite Hship. lra. }
  split.
  - rewrite Hnet.
    pose proof (round2_mono _ _ Hraw) as Hr.
    assert (Hc : round2 (-(5)) == -(5)) by reflexivity. lra.
  - rewrite Hprof. apply andb_false_iff. left.
    unfold Qgeb. rewrite <- not_true_iff_false, Qle_bool_iff. lra.
Qed.

Lemma amazon_fees_with_margins self p cat :
  calculate_amazon_fees Config.PROFIT_CONFIG_with_margins self p cat
  = Ok (<["referral_fee" := round2 (p * referral_rate cat)]>
       (<["fulfillment_fee" := round2 (_estimate_fba_fee p)]>
       (<["closing_fee" := round2 (closing_fee cat)]>
       (<["total_fees" := amazon_total_fees p cat]> ∅)))).
Proof. reflexivity. Qed.

Lemma referral_rate_nonneg cat : 0 <= referral_rate cat.
Proof.
  unfold referral_rate.
  destruct (Config.CATEGORY_MARGINS !! cat) as [q|] eqn:E; [|cbn; lra].
  apply elem_of_list_to_map_2 in E. cbn.
  repeat (apply elem_of_cons in E as [E|E]; [injection E as _ ->; lra|]).
  by apply elem_of_nil in E.
Qed.

Lemma fba_fee_range p : 322 # 100 <= _estimate_fba_fee p <= 8.
Proof.
  unfold _estimate_fba_fee.
  repeat (match goal with |- context [Qltb ?a ?b] => destruct (Qltb a b) end);
    split; lra.
Qed.

Lemma closing_fee_nonneg cat : 0 <= closing_fee cat.
Proof. unfold closing_fee. case_bool_decide; lra. Qed.

Lemma calculate_profit_amazon_with_margins self b p m cat :
  lower m = "amazon" ->
  exists a,
    calculate_profit Config.PROFIT_CONFIG_with_margins self b p m cat true = Ok a /\
    total_buy_cost a = round2 (b + b * self_sales_tax_rate self) /\
    total_fees a = amazon_total_fees p cat /\
    estimated_shipping a = self_shipping_cost self /\
    net_profit a = round2 (p - (total_buy_cost a + total_fees a + estimated_shipping a)).
Proof.
  intros Hm.
  unfold calculate_profit. rewrite buy_cost_total, Hm, amazon_fees_with_margins.
  eexists. split; [reflexivity|]. repeat split.
Qed.

Lemma sell_at_cost_amazon_with_margins p m cat :
  0 <= p -> lower m = "amazon" ->
  exists a,
    calculate_profit Config.PROFIT_CONFIG_with_margins default_calculator p p m cat true
      = Ok a /\
    net_profit a < 0.
Proof.
  intros Hp Hm.
  destruct (calculate_profit_amazon_with_margins default_calculator p p m cat Hm)
    as (a & Ha & Hbuy & Hfees & Hship & Hnet).
  exists a. split; [exact Ha|].
  pose proof (round2_bounds (p + p * (8 # 100))) as [Hb1 _].
  pose proof (round2_bounds (p * referral_rate cat + _estimate_fba_fee p + closing_fee cat))
    as [Hf1 _].
  pose proof (referral_rate_nonneg cat) as Hr.
  pose proof (fba_fee_range p) as [Hfba _].
  pose proof (closing_fee_nonneg cat) as Hcl.
  pose proof (Qmult_le_0_compat _ _ Hp Hr) as Hpr.
  cbn [default_calculator self_sales_tax_rate self_shipping_cost] in *.
  unfold amazon_total_fees in Hfees.
  rewrite <- Hbuy in Hb1. rewrite <- Hfees in Hf1.
  assert (Hraw : p - (total_buy_cost a + total_fees a + estimated_shipping a) <= -(5)).
  { rewrite Hship. lra. }
  rewrite Hnet.
  pose proof (round2_mono _ _ Hraw) as Hr'.
  assert (Hc : round2 (-(5)) == -(5)) by reflexivity. lra.
Qed.

(** C6 (code defect): on the end-to-end fixture the code raises
    [AttributeError]: [calculate_amazon_fees] reads
    [PROFIT_CONFIG.CATEGORY_MARGINS], and the table is a module global of
    config.py, not an attribute of the configuration object.  With the table
    reachable the code computes exactly the figures of the claim. *)
Theorem amazon_fixture_raises :
  calculate_profit Config.PROFIT_CONFIG default_calculator 10 25 "amazon" "Other" true
    = Raise (AttributeError "CATEGORY_MARGINS") /\
  exists a,
    calculate_profit Config.PROFIT_CONFIG_with_margins default_calculator
      10 25 "amazon" "Other" true = Ok a /\
    total_buy_cost a == 10.80 /\ platform_fees a == 3.75 /\
    fulfillment_fees a == 5.50 /\ total_fees a == 9.25 /\
    estimated_shipping a == 5 /\ net_profit a == -0.05 /\
    is_profitable a = false.
Proof.
  split; [reflexivity|].
  eexists. split; [vm_compute; reflexivity|]. repeat split.
Qed.

(** C7 (code defect): on the Amazon fee model [calculate_profit] yields no
    net profit at all: for every price and category it raises the
    [AttributeError] of C6. *)
Theorem sell_at_cost_amazon_raises p cat :
  calculate_profit Config.PROFIT_CONFIG default_calculator p p "amazon" cat true
    = Raise (AttributeError "CATEGORY_MARGINS").
Proof. apply calculate_profit_amazon_raise. reflexivity. Qed.

(** C5 (code defect): a caller-supplied minimum profit of 0 is falsy, so
    [__init__] replaces it by the default 5.  Buying at 8 and selling at 20 on
    the eBay model clears the supplied thresholds (net profit 2.88 >= 0,
    margin 14.4 >= 10) and is still reported as not profitable. *)
Theorem zero_threshold_replaced_by_default :
  exists c a,
    init Config.PROFIT_CONFIG None None (Some 0) (Some (10 # 100)) = Ok c /\
    self_min_profit_amount c == 5 /\
    calculate_profit Config.PROFIT_CONFIG c 8 20 "ebay" "Other" true = Ok a /\
    net_profit a == 2.88 /\ profit_margin a == 14.4 /\
    0 <= net_profit a /\ (10 # 100) * 100 <= profit_margin a /\
    is_profitable a = false.
Proof.
  do 2 eexists. split; [vm_compute; reflexivity|].
  split; [reflexivity|]. split; [vm_compute; reflexivity|].
  repeat split; discriminate.
Qed.

(** C1 (code defect): with an Amazon candidate the call raises the
    [AttributeError] of C6 instead of returning a result.  With the category
    table reachable, and no candidate profitable, the code takes [min] over
    the net profits: it returns the Amazon analysis (-0.05) although the eBay
    candidate loses less (0.72). *)
Theorem find_best_marketplace_failing_input :
  find_best_marketplace Config.PROFIT_CONFIG default_calculator
    10 (Some 25) (Some 20) "Other" = Raise (AttributeError "CATEGORY_MARGINS") /\
  exists a e,
    find_best_marketplace Config.PROFIT_CONFIG_with_margins default_calculator
      10 (Some 25) (Some 20) "Other" = Ok (Some a) /\
    calculate_profit Config.PROFIT_CONFIG_with_margins default_calculator
      10 20 "ebay" "Other" true = Ok e /\
    marketplace a = "amazon" /\ net_profit a == -0.05 /\ is_profitable a = false /\
    marketplace e = "ebay" /\ net_profit e == 0.72 /\ is_profitable e = false /\
    net_profit a < net_profit e.
Proof.
  split; [reflexivity|].
  do 2 eexists. split; [vm_compute; reflexivity|].
  split; [vm_compute; reflexivity|]. repeat split.
Qed.

(** ** utils.py *)

Import Utils.

Lemma truthy_true x : truthy x = true <-> ~ x == 0.
Proof.
  unfold truthy. rewrite negb_true_iff, <- not_true_iff_false, Qeq_bool_iff. tauto.
Qed.

(** *** Binary64 arithmetic *)

Section Binary64.

Import Float64.

Lemma digits2_pos_bounds m :
  (2 ^ (Zpos (digits2_pos m) - 1) <= Zpos m < 2 ^ Zpos (digits2_pos m))%Z.
Proof.
  induction m as [p IH|p IH|]; cbn [digits2_pos].
  - rewrite Pos2Z.inj_succ, Z.pow_succ_r by lia.
    replace (Z.succ (Z.pos (digits2_pos p)) - 1)%Z
      with (Z.succ (Z.pos (digits2_pos p) - 1))%Z by lia.
    rewrite Z.pow_succ_r by lia. lia.
  - rewrite Pos2Z.inj_succ, Z.pow_succ_r by lia.
    replace (Z.succ (Z.pos (digits2_pos p)) - 1)%Z
      with (Z.succ (Z.pos (digits2_pos p) - 1))%Z by lia.
    rewrite Z.pow_succ_r by lia. lia.
  - cbn. lia.
Qed.

Lemma bounded_inv m e :
  bounded prec emax m e = true ->
  (Zpos m < 2 ^ 53 /\ -1074 <= e /\ (-1074 < e -> 2 ^ 52 <= Zpos m))%Z.
Proof.
  unfold bounded, canonical_mantissa, fexp, emin, prec, emax.
  intros [Hc _]%andb_true_iff. apply Z.eqb_eq in Hc.
  pose proof (digits2_pos_bounds m) as [Hlo Hhi].
  set (d := Zpos (digits2_pos m)) in *.
  assert (Hd : (d <= 53)%Z) by lia.
  split; [|split].
  - eapply Z.lt_le_trans; [exact Hhi|]. apply Z.pow_le_mono_r; lia.
  - lia.
  - intros He. assert (d = 53)%Z as Hd53 by lia. rewrite Hd53 in Hlo. exact Hlo.
Qed.

Lemma iter_xO m d : Zpos (Pos.iter xO m d) = (Zpos m * 2 ^ Zpos d)%Z.
Proof.
  induction d as [|d IH] using Pos.peano_ind.
  - cbn. lia.
  - rewrite Pos.iter_succ, Pos2Z.inj_xO, IH, Pos2Z.inj_succ, Z.pow_succ_r by lia. lia.
Qed.

Lemma shl_align_fst mx ex ez :
  (ez <= ex)%Z -> Zpos (shl_align mx ex ez).1 = (Zpos mx * 2 ^ (ex - ez))%Z.
Proof.
  intros Hle. unfold shl_align.
  destruct (ez - ex)%Z as [|p|p] eqn:E.
  - replace (ex - ez)%Z with 0%Z by lia. cbn [fst]. lia.
  - lia.
  - cbn [fst]. rewrite iter_xO. f_equal. f_equal. lia.
Qed.

Lemma iter_pos_invariant {A} (P : A -> Prop) (f : A -> A) :
  (forall x, P x -> P (f x)) -> forall p x, P x -> P (SpecFloat.iter_pos f p x).
Proof.
  intros Hf p. induction p as [p IH|p IH|]; intros x Hx; cbn [SpecFloat.iter_pos]; auto.
Qed.

Lemma shr_1_nonneg r : (0 <= shr_m r)%Z -> (0 <= shr_m (shr_1 r))%Z.
Proof.
  destruct r as [m r s]. cbn [shr_m]. intros Hm.
  destruct m as [|[p|p|]|p]; cbn; lia.
Qed.

Lemma shr_fexp_nonneg m e l :
  (0 <= m)%Z -> (0 <= shr_m (shr_fexp prec emax m e l).1)%Z.
Proof.
  intros Hm. unfold shr_fexp, shr.
  assert (H0 : (0 <= shr_m (shr_record_of_loc m l))%Z)
    by (destruct l as [|[]]; exact Hm).
  destruct (fexp prec emax (Zdigits2 m + e) - e)%Z; cbn [fst]; try exact H0.
  by apply iter_pos_invariant; [apply shr_1_nonneg|].
Qed.

Lemma round_nearest_even_nonneg m l : (0 <= m)%Z -> (0 <= round_nearest_even m l)%Z.
Proof.
  intros Hm. destruct l as [|[]]; cbn [round_nearest_even]; try lia.
  destruct (Z.even m); lia.
Qed.

Lemma binary_round_aux_not_negative mx ex lx :
  (0 <= mx)%Z -> not_negative (binary_round_aux prec emax false mx ex lx).
Proof.
  intros Hm. unfold binary_round_aux.
  pose proof (shr_fexp_nonneg mx ex lx Hm) as H1.
  destruct (shr_fexp prec emax mx ex lx) as [mrs' e'].
  cbn [fst] in H1.
  pose proof (shr_fexp_nonneg _ e' loc_Exact
                (round_nearest_even_nonneg _ (loc_of_shr_record mrs') H1)) as H2.
  destruct (shr_fexp prec emax _ e' loc_Exact) as [mrs'' e''].
  cbn [fst] in H2.
  destruct (shr_m mrs'') as [|p|p]; [exact I| |lia].
  destruct (e'' <=? emax - prec)%Z; reflexivity.
Qed.

Lemma binary_round_not_negative m e : not_negative (binary_round prec emax false m e).
Proof.
  unfold binary_round. destruct (shl_align _ _ _) as [mz ez].
  apply binary_round_aux_not_negative. lia.
Qed.

Lemma div_not_negative x my ey :
  not_negative x -> not_negative (div x (S754_finite false my ey)).
Proof.
  destruct x as [s|s| |s mx ex]; cbn [not_negative]; try done.
  - intros ->. reflexivity.
  - intros ->. unfold div, SFdiv.
    destruct (SFdiv_core_binary prec emax (Z.pos mx) ex (Z.pos my) ey)
      as [[mz ez] lz] eqn:Hcore.
    cbn [xorb]. apply binary_round_aux_not_negative.
    unfold SFdiv_core_binary in Hcore.
    match type of Hcore with
    | context [Z.div_eucl ?a ?b] =>
        pose proof (Z_div_mod a b eq_refl) as Hdm;
        assert (Ha : (0 <= a)%Z)
    end.
    { destruct (_ - _ - _)%Z; [lia| |lia]. apply Z.shiftl_nonneg. lia. }
    destruct (Z.div_eucl _ _) as [q r]. injection Hcore as <- _ _.
    nia.
Qed.

Lemma mul_not_negative x my ey :
  not_negative x -> not_negative (mul x (S754_finite false my ey)).
Proof.
  destruct x as [s|s| |s mx ex]; cbn [not_negative]; try done.
  - intros ->. reflexivity.
  - intros ->. unfold mul, SFmul. cbn [xorb].
    apply binary_round_aux_not_negative. lia.
Qed.

Lemma round2_not_negative x : not_negative x -> not_negative (round2 x).
Proof.
  destruct x as [s|s| |s m e]; cbn [not_negative round2]; try done.
  intros ->. destruct (round_half_even _); [exact I| |exact I].
  by apply div_not_negative.
Qed.

Lemma not_negative_le v : not_negative v -> le zero v = true.
Proof. destruct v as [s|s| |s m e]; cbn; try done; by intros ->. Qed.

Lemma SFcompare_antisym x y c :
  SFcompare x y = Some c -> SFcompare y x = Some (CompOpp c).
Proof.
  destruct x as [s1|s1| |s1 m1 e1], y as [s2|s2| |s2 m2 e2]; cbn [SFcompare];
    try discriminate;
    try (intros [= <-]; by repeat match goal with s : bool |- _ => destruct s end).
  intros [= <-]. f_equal.
  pose proof (Pos.compare_cont_antisym m1 m2 Eq) as Hm. cbn [CompOpp] in Hm.
  rewrite (Z.compare_antisym e1 e2), <- Hm.
  destruct s1, s2; try reflexivity;
    destruct (e1 ?= e2)%Z; cbn [CompOpp]; try reflexivity;
    destruct (Pos.compare_cont Eq m1 m2); reflexivity.
Qed.

Lemma finite_compare x y :
  finite x = true -> finite y = true -> exists c, SFcompare x y = Some c.
Proof.
  destruct x as [s1|s1| |s1 m1 e1], y as [s2|s2| |s2 m2 e2]; try discriminate;
    intros _ _; cbn [SFcompare]; by eexists.
Qed.

(** On finite floats the guard of [calculate_discount_percent] lets through
    exactly original > 0 and current < original. *)
Lemma guard_spec original current :
  finite original = true -> finite current = true ->
  negb (truthy original) || le original zero || ge current original = false
  <-> lt zero original = true /\ lt current original = true.
Proof.
  intros Ho Hc. unfold le, ge, lt, SFleb, SFltb, zero.
  destruct (finite_compare original (S754_zero false) Ho eq_refl) as [c0 H0].
  destruct (finite_compare original current Ho Hc) as [c1 H1].
  rewrite (SFcompare_antisym _ _ _ H0), (SFcompare_antisym _ _ _ H1), H0, H1.
  assert (Ht : truthy original = false -> c0 = Eq).
  { destruct original; try discriminate. cbn in H0. by injection H0 as <-. }
  destruct (truthy original); [|rewrite (Ht eq_refl)];
    destruct c0, c1; cbn; intuition discriminate.
Qed.

Lemma sub_not_negative original current :
  finite original = true -> finite current = true ->
  lt zero original = true -> lt current original = true ->
  not_negative (sub original current).
Proof.
  intros Ho Hc H0 H1.
  destruct original as [so|so| |so mo eo]; try discriminate.
  destruct so; [discriminate|]. clear H0.
  destruct current as [sc|sc| |sc mc ec]; try discriminate; [reflexivity|].
  unfold sub, SFsub. cbn [finite valid_binary] in Ho, Hc.
  apply bounded_inv in Ho as (Ho1 & Ho2 & Ho3), Hc as (Hc1 & Hc2 & Hc3).
  pose proof (shl_align_fst mo eo (Z.min eo ec) ltac:(lia)) as Eo.
  pose proof (shl_align_fst mc ec (Z.min eo ec) ltac:(lia)) as Ec.
  assert (Hpos : (0 < cond_Zopp false (Z.pos (shl_align mo eo (Z.min eo ec)).1)
                      - cond_Zopp sc (Z.pos (shl_align mc ec (Z.min eo ec)).1))%Z).
  { destruct sc; cbn [cond_Zopp]; [lia|].
    rewrite Eo, Ec. unfold lt, SFltb in H1. cbn [SFcompare] in H1.
    destruct (ec ?= eo)%Z eqn:Ecmp.
    - apply Z.compare_eq in Ecmp. subst ec.
      rewrite Z.min_id, Z.sub_diag, Z.pow_0_r.
      destruct (Pos.compare_cont Eq mc mo) eqn:Em; try discriminate.
      change (mc < mo)%positive in Em. lia.
    - change (ec < eo)%Z in Ecmp.
      rewrite Z.min_r by lia. rewrite Z.sub_diag, Z.pow_0_r.
      assert (2 ^ 52 <= Z.pos mo)%Z by (apply Ho3; lia).
      assert (2 ^ 1 <= 2 ^ (eo - ec))%Z by (apply Z.pow_le_mono_r; lia).
      nia.
    - discriminate. }
  match goal with
  | |- context [binary_normalize _ _ ?d _ _] => destruct d as [|p|p]; [lia| |lia]
  end.
  cbn [binary_normalize]. apply binary_round_not_negative.
Qed.

(** C9, counterexample: a discount below 0.005 percent rounds to zero, so the
    value returned is not always strictly positive. *)
Lemma discount_percent_can_be_zero :
  calculate_discount_percent (Float64.of_Z 100000) (Float64.of_Z 99999)
    = Some (S754_zero false) /\
  Float64.lt Float64.zero (S754_zero false) = false.
Proof. split; vm_compute; reflexivity. Qed.

(** C9, amended: for finite floats, a value is returned exactly when
    original > 0 and current < original; it is
    ((original - current) / original) * 100 computed in double precision and
    rounded to two decimals by [round], and it is never negative (it is zero
    when the discount rounds to zero).  [calculate_discount_percent 100 75] is
    25.0 and [calculate_discount_percent 50 60] is absent. *)
Theorem discount_percent_amended original current :
  finite original = true -> finite current = true ->
  (is_Some (calculate_discount_percent original current)
     <-> lt zero original = true /\ lt current original = true) /\
  (forall v, calculate_discount_percent original current = Some v ->
     v = round2 (mul (div (sub original current) original) (of_Z 100)) /\
     not_negative v /\ le zero v = true) /\
  calculate_discount_percent (of_Z 100) (of_Z 75) = Some (of_Z 25) /\
  calculate_discount_percent (of_Z 50) (of_Z 60) = None.
Proof.
  intros Ho Hc. pose proof (guard_spec original current Ho Hc) as Hg.
  unfold calculate_discount_percent.
  destruct (negb (truthy original) || le original zero || ge current original).
  - split; [|split; [|split; vm_compute; reflexivity]].
    + split; [intros [v Hv]; discriminate|].
      intros H. apply Hg in H. discriminate.
    + intros v Hv. discriminate.
  - destruct (proj1 Hg eq_refl) as [H0 H1].
    split; [|split; [|split; vm_compute; reflexivity]].
    + split; [done|by eexists].
    + intros v [= <-]. split; [reflexivity|].
      assert (Hn : not_negative
                (round2 (mul (div (sub original current) original) (of_Z 100)))).
      { apply round2_not_negative. change (of_Z 100) with
          (S754_finite false 7036874417766400 (-46)).
        apply mul_not_negative.
        destruct original as [so|so| |so mo eo]; try discriminate.
        destruct so; [discriminate|].
        apply div_not_negative. by apply sub_not_negative. }
      split; [exact Hn|by apply not_negative_le].
Qed.

Lemma discount_percent_amended_witness :
  calculate_discount_percent (Float64.of_Z 160) (Float64.of_Z 73)
    = Some (S754_finite false 7651897241879183 (-47)) /\
  Float64.le Float64.zero (S754_finite false 7651897241879183 (-47)) = true.
Proof.
  assert (Hv : calculate_discount_percent (Float64.of_Z 160) (Float64.of_Z 73)
               = Some (S754_finite false 7651897241879183 (-47)))
    by (vm_compute; reflexivity).
  split; [exact Hv|].
  destruct (discount_percent_amended (Float64.of_Z 160) (Float64.of_Z 73))
    as (_ & H & _); [reflexivity|reflexivity|].
  destruct (H _ Hv) as (_ & _ & Hle). exact Hle.
Defined.

End Binary64.

Lemma ratio_range a b : (a <= b)%nat -> 0 <= ratio a b /\ ratio a b <= 1.
Proof.
  intros Hab. unfold ratio.
  destruct (Nat.eq_dec b 0%nat) as [->|Hb].
  - assert (a = 0%nat) as -> by lia. split; discriminate.
  - assert (Hpos : 0 < inject_Z (Z.of_nat b)).
    { change 0 with (inject_Z 0). rewrite <- Zlt_Qlt. lia. }
    assert (Ha : 0 <= inject_Z (Z.of_nat a)).
    { change 0 with (inject_Z 0). rewrite <- Zle_Qle. lia. }
    assert (Hle : inject_Z (Z.of_nat a) <= inject_Z (Z.of_nat b)).
    { rewrite <- Zle_Qle. lia. }
    split.
    + apply Qle_shift_div_l; [exact Hpos|]. lra.
    + apply Qle_shift_div_r; [exact Hpos|]. lra.
Qed.

Lemma intersection_subseteq_union (X Y : gset string) : X ∩ Y ⊆ X ∪ Y.
Proof. intros x. rewrite elem_of_intersection, elem_of_union. tauto. Qed.

Lemma ratio_same n : n <> 0%nat -> ratio n n == 1.
Proof.
  intros Hn. unfold ratio. apply Qmult_inv_r.
  intros E. apply Hn.
  unfold Qeq in E. cbn in E. lia.
Qed.

(** C10: [fuzzy_match_products] is symmetric, its value lies in [0, 1], and
    it is 1 when both names have the same non-empty set of lowercased words. *)
Theorem fuzzy_match_products_symmetric_bounded (a b : string) :
  fuzzy_match_products a b = fuzzy_match_products b a /\
  (0 <= fuzzy_match_products a b /\ fuzzy_match_products a b <= 1) /\
  (word_set a = word_set b -> word_set a <> ∅ -> fuzzy_match_products a b == 1).
Proof.
  unfold fuzzy_match_products. repeat split.
  - rewrite (orb_comm (bool_decide (word_set a = ∅))).
    rewrite (comm_L (∩) (word_set a)), (comm_L (∪) (word_set a)). reflexivity.
  - destruct (_ || _); [discriminate|].
    apply ratio_range, subseteq_size, intersection_subseteq_union.
  - destruct (_ || _); [discriminate|].
    apply ratio_range, subseteq_size, intersection_subseteq_union.
  - intros Heq Hne. rewrite <- Heq.
    rewrite bool_decide_eq_false_2 by exact Hne. cbn [orb].
    rewrite (idemp_L (∩)), (idemp_L (∪)).
    apply ratio_same. intros Hs. apply Hne. apply leibniz_equiv. by apply size_empty_inv.
Qed.

Lemma fuzzy_match_products_witness :
  fuzzy_match_products "Red Widget" "widget  RED" == 1.
Proof.
  apply (fuzzy_match_products_symmetric_bounded "Red Widget" "widget  RED").
  - vm_compute. reflexivity.
  - intros E. assert (Hin : "red" ∈ word_set "Red Widget") by (vm_compute; set_solver).
    rewrite E in Hin. set_solver.
Defined.

(** ** scraper_module.py *)

Import Scraper.

Lemma html_price_missing : html_current_price None = Ok 0.
Proof. reflexivity. Qed.

Lemma html_price_no_match text :
  search_price (strip text) = None -> html_current_price (Some text) = Ok 0.
Proof. intros H. unfold html_current_price. by rewrite H. Qed.

(** Whatever the element, an HTML parser that finds an id and no price
    pattern emits the item with price 0. *)
Lemma html_element_zero_price render base_url id path elem deal_type :
  jtruthy id = true ->
  html_current_price (find_price elem) = Ok 0 ->
  exists item,
    parse_html_element_body render base_url id path elem deal_type = Ok (Some item) /\
    current_price item = 0.
Proof.
  intros Hid Hp. unfold parse_html_element_body. rewrite Hid, Hp.
  eexists. split; reflexivity.
Qed.

(** C8 (code defect): the two HTML element parsers do not drop an item
    without a price.  An element with a product id and no price element, or
    with a price text that holds no price, is emitted with [current_price]
    0, where the JSON product parsers return nothing. *)
Theorem html_parsers_emit_placeholder_price render :
  (exists item,
     _parse_walmart_html_element render "https://www.walmart.com"
       priceless_walmart_tag "Clearance" = Some item /\
     current_price item = 0) /\
  (exists item,
     _parse_homedepot_html_element render "https://www.homedepot.com"
       priceless_homedepot_tag "Special Buy" = Some item /\
     current_price item = 0).
Proof. split; eexists; split; reflexivity. Qed.

Ltac bind_step H :=
  match type of H with
  | context [if negb (jtruthy ?x) then _ else _] =>
      let E := fresh "T" in
      destruct (jtruthy x) eqn:E; cbn [negb mbind result_bind mret result_ret] in H;
      [|discriminate H]
  | context [mbind _ ?m] =>
      lazymatch m with
      | context [mbind] => fail
      | _ => let E := fresh "E" in
             destruct m eqn:E; cbn [mbind result_bind mret result_ret] in H;
             [|discriminate H]
      end
  end.

(** The JSON product parser drops what the HTML parsers let through: an item
    it emits has a price field that is present and truthy, converted by
    [float]. *)
Lemma walmart_product_price_present render float_of_str array_gt base_url
    product deal_type item :
  _parse_walmart_product render float_of_str array_gt base_url product deal_type
    = Some item ->
  exists v,
    walmart_price_field product = Ok v /\ jtruthy v = true /\
    float_of float_of_str v = Ok (current_price item).
Proof.
  unfold _parse_walmart_product, parse_walmart_product_body, walmart_price_field.
  intros H. repeat bind_step H.
  injection H as <-. cbn [current_price].
  match goal with
  | E1 : jget product "price" _ = Ok ?p,
    E2 : jget ?p "currentPrice" _ = Ok ?c,
    E3 : jget ?c "price" _ = Ok ?v |- _ =>
      exists v; cbn [mbind result_bind]; rewrite E2;
      cbn [mbind result_bind]; rewrite E3
  end.
  split; [reflexivity|]. split; assumption.
Qed.

(** ** api.py *)

Import Scraper Api.

#[global] Instance same_searches_preorder {W} : PreOrder (@same_searches W).
Proof.
  split; [intros st; reflexivity|].
  intros a b c Hab Hbc. unfold same_searches in *. congruence.
Qed.

#[global] Instance same_status_preorder {W} : PreOrder (@same_status W).
Proof.
  split; [intros st id; reflexivity|].
  intros a b c Hab Hbc id. rewrite Hbc, Hab. reflexivity.
Qed.

Section Combinators.

Context {W : Type}.

Lemma bind_ok_inv {A B} (m : M W A) (k : A -> M W B) st st' b :
  bind m k st = (st', Ok b) ->
  exists st1 a, m st = (st1, Ok a) /\ k a st1 = (st', Ok b).
Proof.
  unfold bind. destruct (m st) as [st1 [a|e]]; [eauto|discriminate].
Qed.

Lemma bind_ok {A B} (m : M W A) (k : A -> M W B) st st1 a :
  m st = (st1, Ok a) -> bind m k st = k a st1.
Proof. unfold bind. by intros ->. Qed.

Lemma bind_raise {A B} (m : M W A) (k : A -> M W B) st st1 e :
  m st = (st1, Raise e) -> bind m k st = (st1, Raise e).
Proof. unfold bind. by intros ->. Qed.

(** A [try] whose handler only logs returns normally. *)
Lemma try_catch_never_raises (m : M W unit) :
  never_raises (try_catch m (fun _ => ret tt)).
Proof.
  intros st. unfold try_catch. destruct (m st) as [st' [[]|e]]; reflexivity.
Qed.

(** A loop whose body returns normally runs the body on every element. *)
Lemma for_each_all {A} (l : list A) (body : A -> M W unit) st :
  (forall x, never_raises (body x)) ->
  for_each l body st = (foldl (fun st x => exec (body x) st) st l, Ok tt).
Proof.
  intros Hbody. revert st. induction l as [|x l IH]; intros st; [reflexivity|].
  cbn [for_each foldl]. unfold bind, exec.
  specialize (Hbody x st). destruct (body x st) as [st' r]. cbn in Hbody. subst r.
  apply IH.
Qed.

Section Respects.

Context (R : relation (State W)) `{!PreOrder R}.

Lemma respects_ret {A} (a : A) : respects R (ret a).
Proof. intros st. reflexivity. Qed.

Lemma respects_raise {A} e : respects R (@raise W A e).
Proof. intros st. reflexivity. Qed.

Lemma respects_of_result {A} (r : result A) : respects R (of_result r).
Proof. intros st. reflexivity. Qed.

Lemma respects_bind {A B} (m : M W A) (k : A -> M W B) :
  respects R m -> (forall a, respects R (k a)) -> respects R (bind m k).
Proof.
  intros Hm Hk st. unfold bind. specialize (Hm st).
  destruct (m st) as [st1 [a|e]]; cbn in *; [|exact Hm].
  etransitivity; [exact Hm|apply Hk].
Qed.

Lemma respects_try_catch {A} (m : M W A) h :
  respects R m -> (forall e, respects R (h e)) -> respects R (try_catch m h).
Proof.
  intros Hm Hh st. unfold try_catch. specialize (Hm st).
  destruct (m st) as [st1 [a|e]]; cbn in *; [exact Hm|].
  etransitivity; [exact Hm|apply Hh].
Qed.

Lemma respects_finally {A} (m : M W A) f :
  respects R m -> respects R f -> respects R (finally m f).
Proof.
  intros Hm Hf st. unfold finally. specialize (Hm st).
  destruct (m st) as [st1 r]. specialize (Hf st1).
  destruct (f st1) as [st2 [u|e]]; cbn in *; etransitivity; eassumption.
Qed.

Lemma respects_for_each {A} (l : list A) (body : A -> M W unit) :
  (forall x, respects R (body x)) -> respects R (for_each l body).
Proof.
  intros Hbody. induction l as [|x l IH]; [apply respects_ret|].
  cbn [for_each]. apply respects_bind; [apply Hbody|intros _; exact IH].
Qed.

End Respects.

Lemma same_searches_status (st st' : State W) :
  same_searches st st' -> same_status st st'.
Proof. intros Hs id. unfold status_of. by rewrite Hs. Qed.

Lemma respects_lift {A} (op : W -> W * result A) :
  respects (@same_searches W) (lift op).
Proof. intros st. unfold lift. destruct (op (world st)). reflexivity. Qed.

Lemma respects_get_search id : respects (@same_searches W) (get_search id).
Proof.
  intros st. unfold get_search. destruct (active_searches st !! id); reflexivity.
Qed.

Lemma respects_weaken {A} (m : M W A) :
  respects (@same_searches W) m -> respects (@same_status W) m.
Proof. intros Hm st. apply same_searches_status, Hm. Qed.

(** An update that leaves the status field alone changes no status. *)
Lemma respects_update_search id f :
  (forall s, status (f s) = status s) ->
  respects (@same_status W) (update_search id f).
Proof.
  intros Hf st id'. unfold update_search, bind, get_search, status_of.
  destruct (active_searches st !! id) as [s|] eqn:E; cbn; [|reflexivity].
  destruct (decide (id = id')) as [->|Hne].
  - rewrite lookup_insert_eq, E. cbn. by rewrite Hf.
  - by rewrite lookup_insert_ne.
Qed.

(** A status assignment that returns has set the status. *)
Lemma update_search_status id v (st st' : State W) :
  update_search id (set_status v) st = (st', Ok tt) ->
  status_of id st' = Some v.
Proof.
  unfold update_search, bind, get_search, status_of.
  destruct (active_searches st !! id) as [s|]; [|discriminate].
  intros [= <-]. cbn. by rewrite lookup_insert_eq.
Qed.

End Combinators.

Lemma lift_same_status {W B} (op : W -> W * result B) :
  respects (@same_status W) (lift op).
Proof. apply respects_weaken, respects_lift. Qed.

(** One step of a proof that a computation respects a relation: the rule of
    its head combinator. *)
Ltac respects_step :=
  lazymatch goal with
  | |- respects ?R (ret _) => apply (respects_ret R)
  | |- respects ?R (raise _) => apply (respects_raise R)
  | |- respects ?R (of_result _) => apply (respects_of_result R)
  | |- respects ?R (bind _ _) => apply (respects_bind R); [|intros ?]
  | |- respects ?R (try_catch _ _) => apply (respects_try_catch R); [|intros ?]
  | |- respects ?R (finally _ _) => apply (respects_finally R)
  | |- respects ?R (for_each _ _) => apply (respects_for_each R); intros ?
  | |- respects same_searches (lift _) => apply respects_lift
  | |- respects same_status (lift _) => apply lift_same_status
  | |- respects same_searches (get_search _) => apply respects_get_search
  | |- respects same_status (get_search _) => apply respects_weaken, respects_get_search
  | |- respects _ (match ?x with _ => _ end) => destruct x
  end.

Section OrchestratorProperties.

Context {W : Type} `{Env W}.

Lemma with_db_session_same_searches {A} (body : M W A) :
  respects same_searches body -> respects same_searches (with_db_session body).
Proof. intros Hbody. unfold with_db_session. repeat respects_step. exact Hbody. Qed.

Lemma with_db_session_same_status {A} (body : M W A) :
  respects same_status body -> respects same_status (with_db_session body).
Proof. intros Hbody. unfold with_db_session. repeat respects_step. exact Hbody. Qed.

Lemma check_and_save_prices_same_searches id upc name :
  respects same_searches (check_and_save_prices id upc name).
Proof. unfold check_and_save_prices. repeat respects_step. Qed.

Lemma calculate_and_save_opportunity_same_searches id buy_price min_profit min_margin :
  respects same_searches
    (calculate_and_save_opportunity id buy_price min_profit min_margin).
Proof. unfold calculate_and_save_opportunity. repeat respects_step. Qed.

Lemma incr_items_scraped_status s : status (incr_items_scraped s) = status s.
Proof. reflexivity. Qed.

Lemma process_item_same_status store_id search_id min_profit min_margin item :
  respects same_status (process_item store_id search_id min_profit min_margin item).
Proof.
  unfold process_item. respects_step; [|respects_step].
  apply with_db_session_same_status. unfold item_body. repeat respects_step.
  - apply respects_weaken, check_and_save_prices_same_searches.
  - apply respects_weaken, calculate_and_save_opportunity_same_searches.
  - apply respects_update_search, incr_items_scraped_status.
Qed.

Lemma process_item_never_raises store_id search_id min_profit min_margin item :
  never_raises (process_item store_id search_id min_profit min_margin item).
Proof. apply try_catch_never_raises. Qed.

Lemma scrape_store_same_searches store : respects same_searches (scrape_store store).
Proof. unfold scrape_store. repeat respects_step. Qed.

Lemma process_store_inventory_same_status store search_id min_profit min_margin :
  respects same_status (process_store_inventory store search_id min_profit min_margin).
Proof.
  unfold process_store_inventory. respects_step; [|respects_step].
  respects_step; [apply respects_weaken, scrape_store_same_searches|].
  respects_step; [|respects_step]. respects_step.
  - apply with_db_session_same_status. respects_step.
  - respects_step. apply process_item_same_status.
Qed.

Lemma process_store_inventory_never_raises store search_id min_profit min_margin :
  never_raises (process_store_inventory store search_id min_profit min_margin).
Proof. apply try_catch_never_raises. Qed.

(** The store loop runs every store, whatever each run meets. *)
Lemma process_stores_all search_id request stores st :
  process_stores search_id request stores st
  = (after_stores search_id request stores st, Ok tt).
Proof.
  unfold process_stores, after_stores. apply for_each_all.
  intros store. apply process_store_inventory_never_raises.
Qed.

Lemma after_stores_same_status search_id request stores st :
  same_status st (after_stores search_id request stores st).
Proof.
  unfold after_stores. revert st.
  induction stores as [|store stores IH]; intros st; [reflexivity|].
  cbn [foldl]. etransitivity; [|apply IH].
  apply process_store_inventory_same_status.
Qed.

(** Once a store is scraped and saved, its item loop runs every item. *)
Lemma process_store_inventory_items store search_id min_profit min_margin
    st st1 st2 items :
  scrape_store store st = (st1, Ok (Some items)) ->
  with_db_session (lift (store_create_or_update store)) st1 = (st2, Ok tt) ->
  process_store_inventory store search_id min_profit min_margin st
  = (after_items (store_id store) search_id min_profit min_margin items st2, Ok tt).
Proof.
  intros Hscrape Hsave. unfold process_store_inventory, try_catch.
  rewrite (bind_ok _ _ _ _ _ Hscrape).
  rewrite (bind_ok _ _ _ _ _ Hsave).
  unfold after_items. rewrite for_each_all; [reflexivity|].
  intros item. apply process_item_never_raises.
Qed.

(** A store whose scraping raises leaves the search state as it was. *)
Lemma process_store_inventory_scrape_fails store search_id min_profit min_margin
    st st1 e :
  scrape_store store st = (st1, Raise e) ->
  process_store_inventory store search_id min_profit min_margin st = (st1, Ok tt) /\
  active_searches st1 = active_searches st.
Proof.
  intros Hscrape. split.
  - unfold process_store_inventory, try_catch.
    by rewrite (bind_raise _ _ _ _ _ Hscrape).
  - pose proof (scrape_store_same_searches store st) as Hs.
    rewrite Hscrape in Hs. exact Hs.
Qed.

Lemma discover_stores_running search_id request st st1 stores :
  discover_stores search_id request st = (st1, Ok stores) ->
  status_of search_id st1 = Some "running".
Proof.
  unfold discover_stores. intros Hd.
  apply bind_ok_inv in Hd as (sta & [] & Hset & Hrest).
  apply update_search_status in Hset. rewrite <- Hset.
  assert (Hr : respects same_status
    (with_db_session (lift (update_status search_id "running" None None)) >>
     let* all_stores := lift (find_stores (req_zip_code request) (req_radius request)) in
     update_search search_id
       (set_stores_found
          (length (flat_map (fun retailer => default [] (all_stores !! retailer))
                     (req_retailers request)))) >>
     ret (flat_map (fun retailer => default [] (all_stores !! retailer))
            (req_retailers request)))).
  { respects_step; [apply with_db_session_same_status; respects_step|].
    repeat respects_step. by apply respects_update_search. }
  specialize (Hr sta). rewrite Hrest in Hr. apply Hr.
Qed.

Lemma complete_search_completed search_id request st st2 :
  complete_search search_id request st = (st2, Ok tt) ->
  status_of search_id st2 = Some "completed".
Proof.
  unfold complete_search. intros Hc.
  apply bind_ok_inv in Hc as (sta & [] & _ & Hc).
  apply bind_ok_inv in Hc as (stb & [] & Hset & Hc).
  apply update_search_status in Hset. rewrite <- Hset.
  assert (Hr : respects same_status
    (with_db_session
       (let* s := get_search search_id in
        lift (update_status search_id "completed"
                (Some (stores_found s, items_scraped s, opportunities_found s)) None)))).
  { apply with_db_session_same_status. repeat respects_step. }
  specialize (Hr stb). rewrite Hc in Hr. apply Hr.
Qed.

End OrchestratorProperties.

(** When the orchestrator's own steps succeed (the store discovery before
    the loop and the completion after it), no failure inside a store or an
    item reaches the search: every store run and every item run returns
    normally, the store loop runs every store and the item loop every item,
    the status stays "running" throughout the loop, the [except] branch of
    [run_full_search] is not taken and the search ends "completed". *)
Lemma store_and_item_failures_isolated {W : Type} `{Env W}
    search_id request (st0 st1 st2 : State W) stores :
  discover_stores search_id request st0 = (st1, Ok stores) ->
  complete_search search_id request (after_stores search_id request stores st1)
    = (st2, Ok tt) ->
  (forall store, never_raises
     (process_store_inventory store search_id
        (req_min_profit request) (req_min_margin request))) /\
  (forall store_id item, never_raises
     (process_item store_id search_id
        (req_min_profit request) (req_min_margin request) item)) /\
  process_stores search_id request stores st1
    = (after_stores search_id request stores st1, Ok tt) /\
  (forall store st sta stb items,
     scrape_store store st = (sta, Ok (Some items)) ->
     with_db_session (lift (store_create_or_update store)) sta = (stb, Ok tt) ->
     process_store_inventory store search_id
       (req_min_profit request) (req_min_margin request) st
     = (after_items (store_id store) search_id
          (req_min_profit request) (req_min_margin request) items stb, Ok tt)) /\
  (forall k, status_of search_id (after_stores search_id request (take k stores) st1)
             = Some "running") /\
  run_full_search search_id request st0 = (st2, Ok tt) /\
  status_of search_id st2 = Some "completed".
Proof.
  intros Hdiscover Hcomplete.
  split; [intros; apply process_store_inventory_never_raises|].
  split; [intros; apply process_item_never_raises|].
  split; [apply process_stores_all|].
  split; [intros; by eapply process_store_inventory_items|].
  split.
  { intros k. rewrite after_stores_same_status.
    by eapply discover_stores_running. }
  split; [|by eapply complete_search_completed].
  unfold run_full_search, try_catch.
  rewrite (bind_ok _ _ _ _ _ Hdiscover).
  rewrite (bind_ok _ _ _ _ _ (process_stores_all search_id request stores st1)).
  by rewrite Hcomplete.
Qed.

Lemma store_and_item_failures_isolated_witness :
  status_of 1 (exec (run_full_search 1 demo_request) demo_state) = Some "completed".
Proof.
  edestruct (store_and_item_failures_isolated 1%nat demo_request demo_state)
    as (_ & _ & _ & _ & _ & Hrun & Hstatus).
  - vm_compute. reflexivity.
  - vm_compute. reflexivity.
  - unfold exec. rewrite Hrun. exact Hstatus.
Defined.

(** *** What a failing store or item contributes *)

Section ItemFailures.

Context {W : Type} `{Env W}.

Lemma bind_raise_inv {A B} (m : M W A) (k : A -> M W B) st st' e :
  bind m k st = (st', Raise e) ->
  m st = (st', Raise e) \/ exists st1 a, m st = (st1, Ok a) /\ k a st1 = (st', Raise e).
Proof.
  unfold bind. destruct (m st) as [st1 [a|e1]]; [eauto|].
  intros [= <- <-]. by left.
Qed.

Lemma lift_searches {A} (op : W -> W * result A) st st' r :
  lift op st = (st', r) -> active_searches st' = active_searches st.
Proof. intros Hop. pose proof (respects_lift op st) as Hs. by rewrite Hop in Hs. Qed.

Lemma respects_searches {A} (m : M W A) st st' r :
  respects same_searches m -> m st = (st', r) -> active_searches st' = active_searches st.
Proof. intros Hm Hr. specialize (Hm st). by rewrite Hr in Hm. Qed.

Lemma update_search_raise id f (st st' : State W) e :
  update_search id f st = (st', Raise e) -> st' = st.
Proof.
  unfold update_search, bind, get_search.
  destruct (active_searches st !! id); [discriminate|]. by intros [= <- _].
Qed.

Lemma update_search_ok id f (st st' : State W) :
  update_search id f st = (st', Ok tt) ->
  exists s, active_searches st !! id = Some s /\
            active_searches st' = <[id := f s]> (active_searches st).
Proof.
  unfold update_search, bind, get_search.
  destruct (active_searches st !! id) as [s|]; [|discriminate].
  intros [= <-]. by exists s.
Qed.

(** An item block that returns has counted the item. *)
Lemma item_body_counts store_id search_id min_profit min_margin item (st st' : State W) :
  item_body store_id search_id min_profit min_margin item st = (st', Ok tt) ->
  exists s, active_searches st !! search_id = Some s /\
            active_searches st' = <[search_id := incr_items_scraped s]> (active_searches st).
Proof.
  unfold item_body. intros Hb.
  apply bind_ok_inv in Hb as (s1 & id & H1 & Hb). apply lift_searches in H1.
  apply bind_ok_inv in Hb as (s2 & [] & H2 & Hb). apply lift_searches in H2.
  apply bind_ok_inv in Hb as (s3 & [] & H3 & Hb).
  apply bind_ok_inv in Hb as (s4 & [] & H4 & Hb).
  assert (E3 : active_searches s3 = active_searches s2).
  { destruct (jtruthy (upc item)); [|by injection H3 as <-].
    eapply respects_searches; [apply check_and_save_prices_same_searches|exact H3]. }
  assert (E4 : active_searches s4 = active_searches s3).
  { eapply respects_searches;
      [apply calculate_and_save_opportunity_same_searches|exact H4]. }
  apply update_search_ok in Hb as (s & Hs & Hb).
  exists s. rewrite Hb, E4, E3, H2, H1 in *. done.
Qed.

(** An item block that raises has not counted the item. *)
Lemma item_body_raise_not_counted store_id search_id min_profit min_margin item
    (st st' : State W) e :
  item_body store_id search_id min_profit min_margin item st = (st', Raise e) ->
  active_searches st' = active_searches st.
Proof.
  unfold item_body. intros Hb.
  apply bind_raise_inv in Hb as [Hb|(s1 & id & H1 & Hb)]; [by eapply lift_searches|].
  apply lift_searches in H1. rewrite <- H1.
  apply bind_raise_inv in Hb as [Hb|(s2 & [] & H2 & Hb)]; [by eapply lift_searches|].
  apply lift_searches in H2. rewrite <- H2.
  apply bind_raise_inv in Hb as [Hb|(s3 & [] & H3 & Hb)].
  { destruct (jtruthy (upc item)); [|discriminate].
    eapply respects_searches; [apply check_and_save_prices_same_searches|exact Hb]. }
  assert (E3 : active_searches s3 = active_searches s2).
  { destruct (jtruthy (upc item)); [|by injection H3 as <-].
    eapply respects_searches; [apply check_and_save_prices_same_searches|exact H3]. }
  rewrite <- E3.
  apply bind_raise_inv in Hb as [Hb|(s4 & [] & H4 & Hb)].
  { eapply respects_searches;
      [apply calculate_and_save_opportunity_same_searches|exact Hb]. }
  assert (E4 : active_searches s4 = active_searches s3).
  { eapply respects_searches;
      [apply calculate_and_save_opportunity_same_searches|exact H4]. }
  rewrite <- E4. by apply update_search_raise in Hb as ->.
Qed.

(** What [get_db_session] does after its block: commit, or roll back on
    any exception, and close in both cases. *)
Lemma with_db_session_body_raises {A} (body : M W A) (st sta stb : State W) e :
  lift session_open st = (sta, Ok tt) ->
  body sta = (stb, Raise e) ->
  exists e',
    with_db_session body st
    = (exec (lift session_close) (exec (lift session_rollback) stb), Raise e').
Proof.
  intros Hopen Hbody. unfold with_db_session.
  rewrite (bind_ok _ _ _ _ _ Hopen). unfold finally, try_catch.
  rewrite (bind_raise _ _ _ _ _ Hbody). unfold exec, bind.
  destruct (lift session_rollback stb) as [std [[]|e2]]; cbn [fst raise];
    destruct (lift session_close std) as [ste [[]|e3]]; cbn [fst]; by eexists.
Qed.

Lemma with_db_session_commit_raises {A} (body : M W A) (st sta stb stc : State W) a e :
  lift session_open st = (sta, Ok tt) ->
  body sta = (stb, Ok a) ->
  lift session_commit stb = (stc, Raise e) ->
  exists e',
    with_db_session body st
    = (exec (lift session_close) (exec (lift session_rollback) stc), Raise e').
Proof.
  intros Hopen Hbody Hcommit. unfold with_db_session.
  rewrite (bind_ok _ _ _ _ _ Hopen). unfold finally, try_catch.
  rewrite (bind_ok _ _ _ _ _ Hbody), (bind_raise _ _ _ _ _ Hcommit). unfold exec, bind.
  destruct (lift session_rollback stc) as [std [[]|e2]]; cbn [fst raise];
    destruct (lift session_close std) as [ste [[]|e3]]; cbn [fst]; by eexists.
Qed.

Lemma rolled_back_searches (st : State W) :
  active_searches (exec (lift session_close) (exec (lift session_rollback) st))
  = active_searches st.
Proof.
  unfold exec.
  destruct (lift session_rollback st) as [std r] eqn:E1. cbn [fst].
  destruct (lift session_close std) as [ste r'] eqn:E2. cbn [fst].
  apply lift_searches in E1, E2. congruence.
Qed.

(** An item that fails inside its block is not counted. *)
Lemma failed_item_not_counted store_id search_id min_profit min_margin item
    (st sta stb : State W) e :
  lift session_open st = (sta, Ok tt) ->
  item_body store_id search_id min_profit min_margin item sta = (stb, Raise e) ->
  exists st',
    process_item store_id search_id min_profit min_margin item st = (st', Ok tt) /\
    active_searches st' = active_searches st.
Proof.
  intros Hopen Hbody.
  destruct (with_db_session_body_raises _ _ _ _ _ Hopen Hbody) as [e' Hw].
  eexists. split.
  - unfold process_item, try_catch. rewrite Hw. reflexivity.
  - rewrite rolled_back_searches.
    apply item_body_raise_not_counted in Hbody. apply lift_searches in Hopen. congruence.
Qed.

(** A store whose save fails after a successful scrape contributes
    nothing. *)
Lemma failed_store_save_contributes_nothing store search_id min_profit min_margin
    (st sta stb : State W) items e :
  scrape_store store st = (sta, Ok (Some items)) ->
  with_db_session (lift (store_create_or_update store)) sta = (stb, Raise e) ->
  process_store_inventory store search_id min_profit min_margin st = (stb, Ok tt) /\
  active_searches stb = active_searches st.
Proof.
  intros Hscrape Hsave. split.
  - unfold process_store_inventory, try_catch.
    rewrite (bind_ok _ _ _ _ _ Hscrape). by rewrite (bind_raise _ _ _ _ _ Hsave).
  - transitivity (active_searches sta).
    + eapply respects_searches; [|exact Hsave].
      apply with_db_session_same_searches. respects_step.
    + eapply respects_searches; [apply scrape_store_same_searches|exact Hscrape].
Qed.

End ItemFailures.

(** C2: an item whose failure is the commit of its session is not a
    zero-result contribution.  The count [items_scraped] is incremented inside
    the [with] block, the commit comes after the block: when it raises, the
    session is rolled back and closed, the exception is caught by the item's
    [except], and the item is counted all the same. *)
Theorem failed_commit_item_still_counted {W : Type} `{Env W}
    store_id search_id min_profit min_margin item (st sta stb stc : State W) e :
  lift session_open st = (sta, Ok tt) ->
  item_body store_id search_id min_profit min_margin item sta = (stb, Ok tt) ->
  lift session_commit stb = (stc, Raise e) ->
  let st' := exec (lift session_close) (exec (lift session_rollback) stc) in
  (exists e',
     with_db_session (item_body store_id search_id min_profit min_margin item) st
     = (st', Raise e')) /\
  process_item store_id search_id min_profit min_margin item st = (st', Ok tt) /\
  exists n,
    items_scraped_of search_id st = Some n /\
    items_scraped_of search_id st' = Some (S n).
Proof.
  intros Hopen Hbody Hcommit st'.
  destruct (with_db_session_commit_raises _ _ _ _ _ _ _ Hopen Hbody Hcommit) as [e' Hw].
  fold st' in Hw. split; [by exists e'|]. split.
  - unfold process_item, try_catch. rewrite Hw. reflexivity.
  - apply item_body_counts in Hbody as (s & Hs & Hb).
    apply lift_searches in Hopen, Hcommit.
    exists (items_scraped s). unfold items_scraped_of, st'.
    rewrite rolled_back_searches, Hcommit, Hb, lookup_insert_eq, <- Hopen, Hs.
    done.
Qed.

Lemma failed_commit_item_still_counted_witness :
  (exists st',
     @process_item _ locked_env "W2" 1 5 (20 # 100) (demo_item "A") demo_state
       = (st', Ok tt) /\
     world st'
       = ["open"; "save item"; "flush"; "best price"; "commit"; "rollback"; "close"] /\
     items_scraped_of 1 demo_state = Some 0%nat /\
     items_scraped_of 1 st' = Some 1%nat) /\
  (let st := exec (@run_full_search _ locked_env 1 demo_request) demo_state in
   status_of 1 st = Some "completed" /\ items_scraped_of 1 st = Some 1%nat).
Proof.
  split; [|split; vm_compute; reflexivity].
  edestruct (@failed_commit_item_still_counted _ locked_env "W2" 1%nat 5 (20 # 100)
               (demo_item "A") demo_state) as (_ & Hrun & n & Hn & Hn').
  - vm_compute. reflexivity.
  - vm_compute. reflexivity.
  - vm_compute. reflexivity.
  - eexists. split; [exact Hrun|]. split; [vm_compute; reflexivity|].
    assert (E : n = 0%nat) by (vm_compute in Hn; by injection Hn as <-).
    subst n. split; [exact Hn|exact Hn'].
Defined.

(** ** Further properties of profit_calculator.py *)

Lemma min_from_spec {A} (key : A -> Q) best (l : list A) :
  (min_from key best l = best \/ min_from key best l ∈ l) /\
  key (min_from key best l) <= key best /\
  (forall x, x ∈ l -> key (min_from key best l) <= key x).
Proof.
  revert best. induction l as [|y l IH]; intros best; cbn [min_from].
  - split; [by left|]. split; [lra|]. intros x Hx. by apply elem_of_nil in Hx.
  - destruct (Qltb (key y) (key best)) eqn:E.
    + apply Qltb_lt in E. destruct (IH y) as (Hin & Hle & Hall).
      split; [right; destruct Hin as [->|Hin]; [left|by right]|].
      split; [lra|].
      intros x Hx. apply elem_of_cons in Hx as [->|Hx]; [exact Hle|by apply Hall].
    + apply Qltb_ge in E. destruct (IH best) as (Hin & Hle & Hall).
      split; [destruct Hin as [Heq|Hin]; [by left|right; by right]|].
      split; [exact Hle|].
      intros x Hx. apply elem_of_cons in Hx as [->|Hx]; [lra|by apply Hall].
Qed.

Lemma max_from_spec {A} (key : A -> Q) best (l : list A) :
  (max_from key best l = best \/ max_from key best l ∈ l) /\
  key best <= key (max_from key best l) /\
  (forall x, x ∈ l -> key x <= key (max_from key best l)).
Proof.
  revert best. induction l as [|y l IH]; intros best; cbn [max_from].
  - split; [by left|]. split; [lra|]. intros x Hx. by apply elem_of_nil in Hx.
  - unfold Qgtb. destruct (Qltb (key best) (key y)) eqn:E.
    + apply Qltb_lt in E. destruct (IH y) as (Hin & Hle & Hall).
      split; [right; destruct Hin as [->|Hin]; [left|by right]|].
      split; [lra|].
      intros x Hx. apply elem_of_cons in Hx as [->|Hx]; [exact Hle|by apply Hall].
    + apply Qltb_ge in E. destruct (IH best) as (Hin & Hle & Hall).
      split; [destruct Hin as [Heq|Hin]; [by left|right; by right]|].
      split; [exact Hle|].
      intros x Hx. apply elem_of_cons in Hx as [->|Hx]; [lra|by apply Hall].
Qed.

(** What [find_best_marketplace] selects from the analyses
    [compare_marketplaces] produced: nothing when there is none; otherwise one
    of them, which is a profitable one of greatest net profit when some
    analysis is profitable, and one of least net profit when none is. *)
Theorem find_best_marketplace_selection cfg self b ap ep cat cs :
  compare_marketplaces cfg self b ap ep cat = Ok cs ->
  match cs with
  | [] => find_best_marketplace cfg self b ap ep cat = Ok None
  | _ :: _ =>
      exists a,
        find_best_marketplace cfg self b ap ep cat = Ok (Some a) /\
        a ∈ cs.*2 /\
        ((exists c, c ∈ cs.*2 /\ is_profitable c = true) ->
           is_profitable a = true /\
           forall c, c ∈ cs.*2 -> is_profitable c = true -> net_profit c <= net_profit a) /\
        ((forall c, c ∈ cs.*2 -> is_profitable c = false) ->
           forall c, c ∈ cs.*2 -> net_profit a <= net_profit c)
  end.
Proof.
  intros Hcs. unfold find_best_marketplace. rewrite Hcs. cbn [mbind result_bind].
  destruct cs as [|c0 cs]; [reflexivity|]. cbn [is_empty].
  set (all := c0 :: cs).
  destruct (filter (fun kv => is_profitable kv.2 = true) all) as [|p0 ps] eqn:Hf;
    cbn [is_empty].
  - (* none profitable *)
    assert (Hnone : forall c, c ∈ all.*2 -> is_profitable c = false).
    { intros c Hc. apply list_elem_of_fmap in Hc as ([k c'] & -> & Hc). cbn [snd].
      destruct (is_profitable c') eqn:Ep; [|reflexivity].
      assert (Hin : (k, c') ∈ filter (fun kv => is_profitable kv.2 = true) all)
        by (apply list_elem_of_filter; split; [exact Ep|exact Hc]).
      rewrite Hf in Hin. by apply elem_of_nil in Hin. }
    unfold all. cbn [fmap list_fmap min_key result_fmap].
    destruct (min_from_spec net_profit c0.2 (cs.*2)) as (Hin & Hle & Hall).
    eexists. split; [reflexivity|].
    split; [destruct Hin as [->|Hin]; [left|by right]|].
    split.
    + intros (c & Hc & Hp). rewrite (Hnone c Hc) in Hp. discriminate.
    + intros _ c Hc. apply elem_of_cons in Hc as [->|Hc]; [exact Hle|by apply Hall].
  - (* some profitable *)
    assert (Hsub : forall c, c ∈ (p0 :: ps).*2 <-> c ∈ all.*2 /\ is_profitable c = true).
    { intros c. rewrite <- Hf. split.
      - intros Hc. apply list_elem_of_fmap in Hc as ([k c'] & -> & Hc).
        apply list_elem_of_filter in Hc as [Hp Hc]. split; [|exact Hp].
        apply list_elem_of_fmap. by exists (k, c').
      - intros [Hc Hp]. apply list_elem_of_fmap in Hc as ([k c'] & -> & Hc).
        apply list_elem_of_fmap. exists (k, c'). split; [reflexivity|].
        by apply list_elem_of_filter. }
    cbn [fmap list_fmap max_key result_fmap].
    destruct (max_from_spec net_profit p0.2 (ps.*2)) as (Hin & Hle & Hall).
    assert (Hmem : max_from net_profit p0.2 (ps.*2) ∈ (p0 :: ps).*2).
    { cbn [fmap list_fmap]. destruct Hin as [->|Hin]; [left|by right]. }
    apply Hsub in Hmem as [Hmem Hprof].
    eexists. split; [reflexivity|]. split; [exact Hmem|]. split.
    + intros _. split; [exact Hprof|].
      intros c Hc Hp. assert (Hc' : c ∈ (p0 :: ps).*2) by (by apply Hsub).
      cbn [fmap list_fmap] in Hc'.
      apply elem_of_cons in Hc' as [->|Hc']; [exact Hle|by apply Hall].
    + intros Hnone. rewrite (Hnone _ Hmem) in Hprof. discriminate.
Qed.

Lemma find_best_marketplace_selection_witness :
  exists a,
    find_best_marketplace Config.PROFIT_CONFIG default_calculator
      10 None (Some 20) "Other" = Ok (Some a).
Proof.
  destruct (compare_marketplaces Config.PROFIT_CONFIG default_calculator
              10 None (Some 20) "Other") as [cs|e] eqn:Hcs;
    [|vm_compute in Hcs; discriminate].
  pose proof (find_best_marketplace_selection _ _ _ _ _ _ _ Hcs) as Hsel.
  destruct cs as [|c cs]; [vm_compute in Hcs; discriminate|].
  destruct Hsel as (a & Ha & _). by exists a.
Defined.

Lemma price_given_none price :
  match price with None => True | Some p => p <= 0 end ->
  price_given price = None.
Proof.
  destruct price as [p|]; [|reflexivity]. intros Hp. unfold price_given.
  assert (E : Qgtb p 0 = false) by (by apply Qltb_ge).
  by rewrite E, andb_false_r.
Qed.

(** A price that is missing, zero or negative is no candidate: with no
    positive price at all [find_best_marketplace] returns [None], under any
    configuration and without computing a fee. *)
Theorem find_best_marketplace_without_prices cfg self b ap ep cat :
  match ap with None => True | Some p => p <= 0 end ->
  match ep with None => True | Some p => p <= 0 end ->
  find_best_marketplace cfg self b ap ep cat = Ok None.
Proof.
  intros Ha He. unfold find_best_marketplace, compare_marketplaces.
  by rewrite (price_given_none ap Ha), (price_given_none ep He).
Qed.

Lemma find_best_marketplace_without_prices_witness :
  find_best_marketplace Config.PROFIT_CONFIG default_calculator
    10 (Some 0) (Some (-(3))) "Other" = Ok None.
Proof.
  apply (find_best_marketplace_without_prices Config.PROFIT_CONFIG default_calculator
           10 (Some 0) (Some (-(3))) "Other"); discriminate.
Defined.

Lemma or_else_keep {E} (q : Q) (d : E) inj : ~ q == 0 -> or_else (Some q) d inj = inj q.
Proof. intros Hq. unfold or_else. apply truthy_true in Hq. by rewrite Hq. Qed.

Lemma or_else_zero {E} (q : Q) (d : E) inj : q == 0 -> or_else (Some q) d inj = d.
Proof.
  intros Hq. unfold or_else, truthy. apply Qeq_bool_iff in Hq. by rewrite Hq.
Qed.

Lemma or_else_missing {E} (x : option Q) (d : E) inj : missing x -> or_else x d inj = d.
Proof. destruct x as [q|]; [apply or_else_zero|reflexivity]. Qed.

Lemma or_else_cases {E} (x : option Q) (d : E) inj :
  (missing x /\ or_else x d inj = d) \/
  (exists q, x = Some q /\ ~ q == 0 /\ or_else x d inj = inj q).
Proof.
  destruct x as [q|]; [|by left].
  destruct (Qeq_dec q 0) as [Hq|Hq].
  - left. split; [exact Hq|by apply or_else_zero].
  - right. exists q. split; [reflexivity|]. split; [exact Hq|by apply or_else_keep].
Qed.

Lemma init_inv cfg tax ship amount margin self :
  init cfg tax ship amount margin = Ok self ->
  or_else tax (config_float cfg "DEFAULT_SALES_TAX") Ok = Ok (self_sales_tax_rate self) /\
  or_else ship (config_float cfg "DEFAULT_SHIPPING_COST") Ok = Ok (self_shipping_cost self) /\
  or_else amount (config_float cfg "MIN_PROFIT_AMOUNT") Ok
    = Ok (self_min_profit_amount self) /\
  or_else margin (config_float cfg "MIN_PROFIT_MARGIN") Ok
    = Ok (self_min_profit_margin self).
Proof.
  unfold init.
  destruct (or_else tax _ _) as [t|]; [|discriminate].
  destruct (or_else ship _ _) as [s|]; [|discriminate].
  destruct (or_else amount _ _) as [a|]; [|discriminate].
  destruct (or_else margin _ _) as [m|]; [|discriminate].
  cbn [mbind result_bind mret result_ret]. by intros [= <-].
Qed.

Lemma or_else_kept x d v q : or_else x d Ok = Ok v -> x = Some q -> ~ q == 0 -> v = q.
Proof. intros Hv -> Hq. rewrite or_else_keep in Hv by done. by injection Hv. Qed.

(** [__init__] keeps each argument that is passed and is not zero, whatever
    the other arguments and the configuration are; under the shipped
    configuration it always returns, and an argument that is absent or zero
    gets the configured default (8% tax, 5.00 shipping, 5.00 minimum profit,
    20% minimum margin); when all four are given no configuration is read. *)
Theorem init_keeps_nonzero_thresholds tax ship amount margin :
  (forall cfg self,
     init cfg tax ship amount margin = Ok self ->
     (forall x, tax = Some x -> ~ x == 0 -> self_sales_tax_rate self = x) /\
     (forall x, ship = Some x -> ~ x == 0 -> self_shipping_cost self = x) /\
     (forall x, amount = Some x -> ~ x == 0 -> self_min_profit_amount self = x) /\
     (forall x, margin = Some x -> ~ x == 0 -> self_min_profit_margin self = x)) /\
  (exists self,
     init Config.PROFIT_CONFIG tax ship amount margin = Ok self /\
     (missing tax -> self_sales_tax_rate self = 8 # 100) /\
     (missing ship -> self_shipping_cost self = 5) /\
     (missing amount -> self_min_profit_amount self = 5) /\
     (missing margin -> self_min_profit_margin self = 20 # 100)) /\
  (~ missing tax -> ~ missing ship -> ~ missing amount -> ~ missing margin ->
   forall cfg, exists self, init cfg tax ship amount margin = Ok self).
Proof.
  split; [|split].
  - intros cfg self Hi. apply init_inv in Hi as (Ht & Hs & Ha & Hm).
    repeat split; intros x Hx Hnz; eapply or_else_kept; eassumption.
  - assert (Hex : exists self, init Config.PROFIT_CONFIG tax ship amount margin = Ok self).
    { unfold init.
      destruct (or_else_cases tax (config_float Config.PROFIT_CONFIG "DEFAULT_SALES_TAX") Ok)
        as [[_ ->]|(? & _ & _ & ->)];
      destruct (or_else_cases ship
                  (config_float Config.PROFIT_CONFIG "DEFAULT_SHIPPING_COST") Ok)
        as [[_ ->]|(? & _ & _ & ->)];
      destruct (or_else_cases amount
                  (config_float Config.PROFIT_CONFIG "MIN_PROFIT_AMOUNT") Ok)
        as [[_ ->]|(? & _ & _ & ->)];
      destruct (or_else_cases margin
                  (config_float Config.PROFIT_CONFIG "MIN_PROFIT_MARGIN") Ok)
        as [[_ ->]|(? & _ & _ & ->)];
      by eexists. }
    destruct Hex as [self Hi]. exists self. split; [exact Hi|].
    apply init_inv in Hi as (Ht & Hs & Ha & Hm).
    repeat split; intros Hx;
      match goal with
      | H : or_else ?x _ _ = Ok ?v, Hx : missing ?x |- ?v = _ =>
          rewrite (or_else_missing x _ _ Hx) in H; by injection H
      end.
  - intros Ht Hs Ha Hm cfg. unfold init.
    destruct tax as [t|]; [|by destruct Ht].
    destruct ship as [s|]; [|by destruct Hs].
    destruct amount as [a|]; [|by destruct Ha].
    destruct margin as [m|]; [|by destruct Hm].
    cbn [missing] in *. rewrite !or_else_keep by done. by eexists.
Qed.

Lemma init_keeps_nonzero_thresholds_witness :
  exists self,
    init Config.PROFIT_CONFIG None None (Some 1) (Some 0) = Ok self /\
    self_min_profit_amount self = 1 /\ self_min_profit_margin self = 20 # 100.
Proof.
  destruct (init_keeps_nonzero_thresholds None None (Some 1) (Some 0))
    as (Hkeep & (self & Hi & _ & _ & _ & Hm) & _).
  exists self. split; [exact Hi|]. split.
  - destruct (Hkeep _ _ Hi) as (_ & _ & Ha & _). apply (Ha 1 eq_refl). discriminate.
  - apply Hm. reflexivity.
Defined.

(** The FBA fee estimate is a step function of the sell price: it never
    decreases when the price increases, and it stays between 3.22 and 8. *)
Theorem fba_fee_monotone p q :
  p <= q ->
  _estimate_fba_fee p <= _estimate_fba_fee q /\
  (322 # 100 <= _estimate_fba_fee p /\ _estimate_fba_fee p <= 8).
Proof.
  intros Hpq. split; [|apply fba_fee_range].
  unfold _estimate_fba_fee.
  repeat match goal with
         | |- context [Qltb ?a ?b] =>
             let E := fresh "E" in
             destruct (Qltb a b) eqn:E; [apply Qltb_lt in E|apply Qltb_ge in E]
         end; lra.
Qed.

Lemma fba_fee_monotone_witness : _estimate_fba_fee 15 <= _estimate_fba_fee 60.
Proof. apply (fba_fee_monotone 15 60). discriminate. Defined.

Lemma buy_cost_rate self p :
  getitem (calculate_buy_cost self p None) "sales_tax_rate"
  = Ok (self_sales_tax_rate self).
Proof. reflexivity. Qed.

Lemma buy_cost_amount self p :
  getitem (calculate_buy_cost self p None) "sales_tax_amount"
  = Ok (round2 (p * self_sales_tax_rate self)).
Proof. reflexivity. Qed.

(** How [calculate_profit] fills the analysis it returns. *)
Lemma calculate_profit_inv cfg self b p m cat sh a :
  calculate_profit cfg self b p m cat sh = Ok a ->
  buy_price a = b /\ sell_price a = p /\ gross_revenue a = p /\ marketplace a = m /\
  total_buy_cost a = round2 (b + b * self_sales_tax_rate self) /\
  sales_tax_amount a = round2 (b * self_sales_tax_rate self) /\
  estimated_shipping a = (if sh then self_shipping_cost self else 0) /\
  fee_breakdown a !! "total_fees" = Some (total_fees a) /\
  net_profit a = round2 (raw_net_profit a) /\
  profit_margin a = round2 (raw_profit_margin a) /\
  roi_percent a = round2 (raw_roi_percent a) /\
  is_profitable a
    = Qgeb (raw_net_profit a) (self_min_profit_amount self)
      && Qgeb (raw_profit_margin a) (self_min_profit_margin self * 100) /\
  opportunity_score a
    = round2 (_calculate_opportunity_score
                (raw_net_profit a) (raw_profit_margin a) (raw_roi_percent a)) /\
  recommendation a
    = _generate_recommendation (is_profitable a)
        (raw_net_profit a) (raw_profit_margin a) (raw_roi_percent a).
Proof.
  unfold calculate_profit.
  rewrite buy_cost_total, buy_cost_rate, buy_cost_amount.
  cbn [mbind result_bind].
  destruct (if String.eqb (lower m) "amazon" then _ else _) as [fees|e];
    [|discriminate].
  cbn [mbind result_bind]. unfold getitem.
  destruct (fees !! "total_fees") as [tf|] eqn:Htf; [|discriminate].
  cbn [mbind result_bind mret result_ret]. intros [= <-].
  unfold raw_net_profit, raw_profit_margin, raw_roi_percent. cbn.
  repeat split. exact Htf.
Qed.

(** A loss is never recommended: when the minimum profit of the calculator
    is not negative, an analysis whose net profit is negative is flagged not
    profitable and carries the AVOID recommendation. *)
Theorem negative_profit_is_avoided cfg self b p m cat sh a :
  0 <= self_min_profit_amount self ->
  calculate_profit cfg self b p m cat sh = Ok a ->
  net_profit a < 0 ->
  is_profitable a = false /\
  recommendation a = "AVOID: Negative profit potential".
Proof.
  intros Hmin Ha Hneg.
  destruct (calculate_profit_inv _ _ _ _ _ _ _ _ Ha)
    as (_ & _ & _ & _ & _ & _ & _ & _ & Hnet & _ & _ & Hprof & _ & Hrec).
  assert (Hraw : raw_net_profit a < 0).
  { destruct (Qlt_le_dec (raw_net_profit a) 0) as [Hlt|Hge]; [exact Hlt|].
    apply round2_nonneg in Hge. rewrite <- Hnet in Hge. lra. }
  assert (Hp : is_profitable a = false).
  { rewrite Hprof. apply andb_false_iff. left.
    unfold Qgeb. rewrite <- not_true_iff_false, Qle_bool_iff. lra. }
  split; [exact Hp|].
  rewrite Hrec, Hp. unfold _generate_recommendation. cbn [negb].
  apply Qltb_lt in Hraw. by rewrite Hraw.
Qed.

Lemma negative_profit_is_avoided_witness :
  exists a,
    calculate_profit Config.PROFIT_CONFIG default_calculator 10 10 "ebay" "Other" true
      = Ok a /\
    recommendation a = "AVOID: Negative profit potential".
Proof.
  destruct (calculate_profit Config.PROFIT_CONFIG default_calculator
              10 10 "ebay" "Other" true) as [a|e] eqn:Ha;
    [|vm_compute in Ha; discriminate].
  exists a. split; [reflexivity|].
  assert (Hmin : 0 <= self_min_profit_amount default_calculator)
    by (intros H; discriminate H).
  apply (negative_profit_is_avoided _ _ _ _ _ _ _ _ Hmin Ha).
  vm_compute in Ha. injection Ha as <-. reflexivity.
Defined.

(** *** Sorting *)

Lemma insert_desc_perm {A} (key : A -> Q) x l : insert_desc key x l ≡ₚ x :: l.
Proof.
  induction l as [|y l IH]; cbn [insert_desc]; [reflexivity|].
  destruct (Qltb (key y) (key x)); [reflexivity|].
  rewrite IH. apply Permutation_swap.
Qed.

Lemma sort_desc_perm {A} (key : A -> Q) l : sort_desc key l ≡ₚ l.
Proof.
  unfold sort_desc.
  assert (Hgen : forall acc, foldl (fun acc x => insert_desc key x acc) acc l ≡ₚ acc ++ l).
  { induction l as [|x l IH]; intros acc; cbn [foldl].
    - by rewrite app_nil_r.
    - rewrite IH, insert_desc_perm. cbn [app]. apply Permutation_middle. }
  by rewrite Hgen.
Qed.

Lemma insert_desc_sorted {A} (key : A -> Q) x l :
  StronglySorted (fun a b => key b <= key a) l ->
  StronglySorted (fun a b => key b <= key a) (insert_desc key x l).
Proof.
  induction 1 as [|y l Hsorted IH Hall]; cbn [insert_desc].
  - repeat constructor.
  - destruct (Qltb (key y) (key x)) eqn:E.
    + apply Qltb_lt in E. constructor; [by constructor|].
      constructor; [lra|].
      eapply Forall_impl; [exact Hall|]. intros z Hz. cbn in Hz. lra.
    + apply Qltb_ge in E. constructor; [exact IH|].
      rewrite insert_desc_perm. by constructor.
Qed.

Lemma sort_desc_sorted {A} (key : A -> Q) l :
  StronglySorted (fun a b => key b <= key a) (sort_desc key l).
Proof.
  unfold sort_desc.
  assert (Hgen : forall acc,
    StronglySorted (fun a b => key b <= key a) acc ->
    StronglySorted (fun a b => key b <= key a)
      (foldl (fun acc x => insert_desc key x acc) acc l)).
  { induction l as [|x l IH]; intros acc Hacc; cbn [foldl]; [exact Hacc|].
    by apply IH, insert_desc_sorted. }
  apply Hgen. constructor.
Qed.

Lemma batch_analyze_spec cfg self items min_profit min_margin :
  let min_p := or_else min_profit (self_min_profit_amount self) id in
  let min_m := or_else min_margin (self_min_profit_margin self) id in
  let results := batch_analyze cfg self items min_profit min_margin in
  StronglySorted (fun a b => opportunity_score b <= opportunity_score a) results /\
  forall r, r ∈ results <->
    exists item,
      item ∈ items /\
      calculate_profit cfg self
        (default 0 (item_buy_price item)) (default 0 (item_sell_price item))
        (default "amazon" (item_marketplace item))
        (default "Other" (item_category item)) true = Ok r /\
      min_p <= net_profit r /\ min_m * 100 <= profit_margin r.
Proof.
  intros min_p min_m results. split; [apply sort_desc_sorted|].
  intros r. unfold results, batch_analyze. rewrite sort_desc_perm.
  rewrite list_elem_of_omap. fold min_p min_m.
  split.
  - intros (item & Hin & Hstep). exists item. split; [exact Hin|].
    unfold batch_step in Hstep.
    destruct (calculate_profit _ _ _ _ _ _ _) as [a|e]; [|discriminate].
    destruct (Qgeb (net_profit a) min_p) eqn:E1; [|discriminate].
    destruct (Qgeb (profit_margin a) (min_m * 100)) eqn:E2; [|discriminate].
    injection Hstep as ->. apply Qgeb_ge in E1, E2. done.
  - intros (item & Hin & Hcalc & H1 & H2). exists item. split; [exact Hin|].
    unfold batch_step. rewrite Hcalc.
    apply Qgeb_ge in H1, H2. by rewrite H1, H2.
Qed.

(** [batch_analyze] returns its analyses in descending order of opportunity
    score; each one is the analysis of one of the items (with the defaults
    0, 0, 'amazon', 'Other' for missing keys) and meets both thresholds on
    its rounded net profit and margin; an item whose analysis raises is
    skipped. *)
Theorem batch_analyze_sorted_and_filtered cfg self items min_profit min_margin :
  let min_p := or_else min_profit (self_min_profit_amount self) id in
  let min_m := or_else min_margin (self_min_profit_margin self) id in
  let results := batch_analyze cfg self items min_profit min_margin in
  StronglySorted (fun a b => opportunity_score b <= opportunity_score a) results /\
  forall r, r ∈ results <->
    exists item,
      item ∈ items /\
      calculate_profit cfg self
        (default 0 (item_buy_price item)) (default 0 (item_sell_price item))
        (default "amazon" (item_marketplace item))
        (default "Other" (item_category item)) true = Ok r /\
      min_p <= net_profit r /\ min_m * 100 <= profit_margin r.
Proof. apply batch_analyze_spec. Qed.

(** Under the shipped configuration [batch_analyze] silently drops every item
    priced on the Amazon model, the default marketplace: its analysis raises
    and the loop swallows the exception. *)
Theorem batch_analyze_drops_amazon self items min_profit min_margin r :
  r ∈ batch_analyze Config.PROFIT_CONFIG self items min_profit min_margin ->
  lower (marketplace r) <> "amazon".
Proof.
  intros Hr Hm.
  apply batch_analyze_spec in Hr as (item & _ & Hcalc & _).
  pose proof (calculate_profit_inv _ _ _ _ _ _ _ _ Hcalc) as (_ & _ & _ & Hmk & _).
  rewrite calculate_profit_amazon_raise in Hcalc; [discriminate|].
  by rewrite <- Hmk.
Qed.

Lemma batch_analyze_drops_amazon_witness :
  exists r,
    batch_analyze Config.PROFIT_CONFIG default_calculator demo_batch None None = [r] /\
    lower (marketplace r) <> "amazon".
Proof.
  destruct (batch_analyze Config.PROFIT_CONFIG default_calculator demo_batch None None)
    as [|r [|r' rs]] eqn:Hb; [vm_compute in Hb; discriminate| |vm_compute in Hb; discriminate].
  exists r. split; [reflexivity|].
  apply (batch_analyze_drops_amazon default_calculator demo_batch None None r).
  rewrite Hb. left.
Defined.

(** ** Further properties of utils.py *)

Lemma digits_only_all_digits s : all_digits (digits_only s) = true.
Proof.
  induction s as [|c s IH]; [reflexivity|]. cbn [digits_only].
  destruct (digit_char c) eqn:E; [|exact IH]. cbn [all_digits]. by rewrite E, IH.
Qed.

Lemma digits_only_id s : all_digits s = true -> digits_only s = s.
Proof.
  induction s as [|c s IH]; [reflexivity|]. cbn [all_digits digits_only].
  intros [Hc Hs]%andb_true_iff. by rewrite Hc, IH.
Qed.

Lemma clean_upc_of_digits s :
  all_digits s = true -> String.length s ∈ [12; 13; 14]%nat -> clean_upc s = Some s.
Proof.
  intros Hd Hl. unfold clean_upc.
  destruct (String.eqb_spec s "") as [->|_].
  { cbn in Hl. repeat (apply elem_of_cons in Hl as [Hl|Hl]; [discriminate|]).
    by apply elem_of_nil in Hl. }
  rewrite (digits_only_id s Hd). by rewrite bool_decide_eq_true_2.
Qed.

(** What [clean_upc] accepts is made of digits only, is 12, 13 or 14
    characters long, and is left unchanged by a second cleaning. *)
Theorem clean_upc_result upc cleaned :
  clean_upc upc = Some cleaned ->
  cleaned = digits_only upc /\
  all_digits cleaned = true /\
  String.length cleaned ∈ [12; 13; 14]%nat /\
  clean_upc cleaned = Some cleaned.
Proof.
  unfold clean_upc. destruct (String.eqb upc ""); [discriminate|].
  case_bool_decide as Hl; [|discriminate]. intros [= <-].
  split; [reflexivity|]. split; [apply digits_only_all_digits|].
  split; [exact Hl|].
  apply clean_upc_of_digits; [apply digits_only_all_digits|exact Hl].
Qed.

Lemma clean_upc_result_witness :
  clean_upc "0-36000-29145-2" = Some "036000291452" /\
  clean_upc "036000291452" = Some "036000291452".
Proof.
  assert (H : clean_upc "0-36000-29145-2" = Some "036000291452") by reflexivity.
  split; [exact H|]. apply (clean_upc_result _ _ H).
Defined.

Lemma int_of_char_range c d : int_of_char c = Some d -> (0 <= d < 10)%Z.
Proof.
  unfold int_of_char.
  destruct (List.find _ _) as [zero|] eqn:Hf; [|discriminate].
  apply find_some in Hf as [_ [H1 H2]%andb_true_iff].
  apply N.leb_le in H1. apply N.ltb_lt in H2. intros [= <-]. lia.
Qed.

Lemma int_of_char_ascii d : (0 <= d < 10)%Z -> int_of_char (48 + Z.to_N d) = Some d.
Proof.
  intros Hd. unfold int_of_char, decimal_digit_runs. cbn [List.find].
  assert (E : ((48 <=? 48 + Z.to_N d)%N && (48 + Z.to_N d <? 48 + 10)%N) = true).
  { apply andb_true_iff. split; [apply N.leb_le|apply N.ltb_lt]; lia. }
  rewrite E. cbn [fmap option_fmap option_map]. f_equal. lia.
Qed.

Lemma int_of_char_arabic_indic d :
  (0 <= d < 10)%Z -> int_of_char (1632 + Z.to_N d) = Some d.
Proof.
  intros Hd. unfold int_of_char, decimal_digit_runs. cbn [List.find].
  assert (E1 : ((48 <=? 1632 + Z.to_N d)%N && (1632 + Z.to_N d <? 48 + 10)%N) = false).
  { apply andb_false_iff. right. apply N.ltb_ge. lia. }
  assert (E2 : ((1632 <=? 1632 + Z.to_N d)%N && (1632 + Z.to_N d <? 1632 + 10)%N) = true).
  { apply andb_true_iff. split; [apply N.leb_le|apply N.ltb_lt]; lia. }
  rewrite E1, E2. cbn [fmap option_fmap option_map]. f_equal. lia.
Qed.

Lemma digits_of_length s ds : digits_of s = Some ds -> length ds = length s.
Proof.
  revert ds. induction s as [|c s IH]; intros ds; cbn [digits_of].
  - by intros [= <-].
  - destruct (int_of_char c); [|discriminate]. cbn [mbind option_bind].
    destruct (digits_of s) as [ds'|]; [|discriminate]. cbn [mbind option_bind].
    intros [= <-]. cbn [length]. by rewrite (IH ds').
Qed.

Lemma digits_of_total s :
  Forall (fun c => is_Some (int_of_char c)) s -> is_Some (digits_of s).
Proof.
  induction 1 as [|c s [d Hd] _ [ds Hds]]; cbn [digits_of]; [by eexists|].
  rewrite Hd, Hds. by eexists.
Qed.

Lemma digits_of_snoc s c :
  digits_of (s ++ [c]) = (ds ← digits_of s; d ← int_of_char c; Some (ds ++ [d])).
Proof.
  induction s as [|a s IH].
  - cbn [app digits_of mbind option_bind]. destruct (int_of_char c); reflexivity.
  - cbn [app digits_of]. rewrite IH. destruct (int_of_char a); [|reflexivity].
    cbn [mbind option_bind].
    destruct (digits_of s); [|reflexivity]. cbn [mbind option_bind].
    destruct (int_of_char c); reflexivity.
Qed.

(** The check on a twelve-character text of which the first eleven are
    [s]: the last character must denote the digit [check_digit_of] computes
    from the digits of [s]. *)
Lemma validate_snoc s ds :
  length s = 11%nat -> digits_of s = Some ds ->
  exists k, (0 <= k < 10)%Z /\
    forall c, validate_upc_checksum (s ++ [c]) = true <-> int_of_char c = Some k.
Proof.
  intros Hlen Hds.
  pose proof (digits_of_length s ds Hds) as Hl. rewrite Hlen in Hl.
  do 12 (destruct ds as [|? ds]; try discriminate Hl). clear Hl.
  eexists ((10 - _ `mod` 10) `mod` 10)%Z. split; [apply Z.mod_pos_bound; lia|].
  intros c'. unfold validate_upc_checksum.
  assert (Hne : is_empty (s ++ [c']) = false) by (by destruct s).
  rewrite Hne, length_app, Hlen. cbn [length Nat.add Nat.eqb negb orb].
  rewrite digits_of_snoc, Hds. cbn [mbind option_bind].
  destruct (int_of_char c') as [d|]; cbn [mbind option_bind]; [|split; discriminate].
  cbn [app check_digit_of sum_at foldr lookup list_lookup mbind option_bind].
  rewrite Z.eqb_eq. split; [intros ->; reflexivity|intros [= ->]; reflexivity].
Qed.

(** Eleven decimal digits are completed by exactly one digit value: a
    twelfth character is accepted exactly when it is a decimal digit of that
    value.  The ASCII digit is accepted, and so is the digit of that value in
    any other script (here the Arabic-Indic one), so the accepted character is
    unique among ASCII digits only. *)
Theorem upc_check_digit_unique s :
  length s = 11%nat -> Forall (fun c => is_Some (int_of_char c)) s ->
  exists d,
    (0 <= d < 10)%Z /\
    (forall c, validate_upc_checksum (s ++ [c]) = true <-> int_of_char c = Some d) /\
    validate_upc_checksum (s ++ [48 + Z.to_N d]%N) = true /\
    validate_upc_checksum (s ++ [1632 + Z.to_N d]%N) = true.
Proof.
  intros Hlen Hd. destruct (digits_of_total s Hd) as [ds Hds].
  destruct (validate_snoc s ds Hlen Hds) as (k & Hk & Hiff).
  exists k. split; [exact Hk|]. split; [exact Hiff|].
  split; apply Hiff; [by apply int_of_char_ascii|by apply int_of_char_arabic_indic].
Qed.

Lemma upc_check_digit_unique_witness :
  validate_upc_checksum (of_ascii "036000291452") = true /\
  validate_upc_checksum (of_ascii "03600029145" ++ [1634%N]) = true /\
  validate_upc_checksum (of_ascii "036000291453") = false.
Proof.
  destruct (upc_check_digit_unique (of_ascii "03600029145")) as (d & Hd & Hiff & _).
  - reflexivity.
  - repeat constructor; by eexists.
  - assert (H2 : validate_upc_checksum (of_ascii "03600029145" ++ [50%N]) = true)
      by (vm_compute; reflexivity).
    apply Hiff in H2. vm_compute in H2. injection H2 as <-.
    split; [vm_compute; reflexivity|]. split.
    + apply Hiff. vm_compute. reflexivity.
    + apply not_true_iff_false. intros H3. change (of_ascii "036000291453")
        with (of_ascii "03600029145" ++ [51%N]) in H3.
      apply Hiff in H3. vm_compute in H3. discriminate.
Defined.

Lemma string_length_app s t : String.length (s +:+ t) = (String.length s + String.length t)%nat.
Proof. induction s as [|c s IH]; [reflexivity|]. simpl. f_equal. exact IH. Qed.

Lemma take_string_length n s :
  String.length (take_string n s) = Nat.min n (String.length s).
Proof.
  revert s. induction n as [|n IH]; intros [|c s]; cbn; [reflexivity..|].
  by rewrite IH.
Qed.

(** [truncate_string] returns a text that fits as it is; a longer text is
    cut so that, provided the suffix itself fits in [max_length], the result
    with the suffix appended is exactly [max_length] characters long. *)
Theorem truncate_string_length text max_length suffix :
  (Z.of_nat (String.length suffix) <= max_length)%Z ->
  (Z.of_nat (String.length text) <= max_length ->
     truncate_string text max_length suffix = text)%Z /\
  (max_length < Z.of_nat (String.length text) ->
     Z.of_nat (String.length (truncate_string text max_length suffix)) = max_length /\
     exists kept, truncate_string text max_length suffix = kept +:+ suffix)%Z.
Proof.
  intros Hs. unfold truncate_string. split.
  - intros Hfit. apply Z.leb_le in Hfit. by rewrite Hfit.
  - intros Hlong. apply Z.leb_gt in Hlong. rewrite Hlong. split; [|by eexists].
    apply Z.leb_gt in Hlong.
    unfold slice_to.
    assert (E : (0 <=? max_length - Z.of_nat (String.length suffix))%Z = true)
      by (apply Z.leb_le; lia).
    rewrite E, string_length_app, take_string_length. lia.
Qed.

Lemma truncate_string_length_witness :
  truncate_string "clearance patio set" 12 "..." = "clearance..." /\
  truncate_string "short" 12 "..." = "short".
Proof.
  destruct (truncate_string_length "short" 12 "..." ltac:(discriminate)) as [Hfit _].
  split; [reflexivity|]. apply Hfit. discriminate.
Defined.

(** A suffix longer than [max_length] makes the cut negative, which Python
    counts from the end of the text: the result is then longer than
    [max_length], not shorter. *)
Theorem truncate_string_long_suffix text max_length suffix :
  (0 <= max_length < Z.of_nat (String.length suffix))%Z ->
  (max_length < Z.of_nat (String.length text))%Z ->
  (max_length < Z.of_nat (String.length (truncate_string text max_length suffix)))%Z.
Proof.
  intros Hs Hlong. unfold truncate_string.
  apply Z.leb_gt in Hlong. rewrite Hlong.
  rewrite string_length_app. lia.
Qed.

Lemma truncate_string_long_suffix_witness :
  (2 < Z.of_nat (String.length (truncate_string "abcdef" 2 "...")))%Z.
Proof.
  apply (truncate_string_long_suffix "abcdef" 2 "...").
  - split; [discriminate|reflexivity].
  - reflexivity.
Defined.

Lemma chunks_concat {A} (n : nat) (m : nat) (l : list A) :
  (length l <= m * n)%nat ->
  concat ((fun k => take n (drop (k * n) l)) <$> seq 0 m) = l.
Proof.
  revert l. induction m as [|m IH]; intros l Hl.
  - cbn in *. destruct l; [reflexivity|cbn in Hl; lia].
  - cbn [seq fmap list_fmap concat]. rewrite <- fmap_S_seq, <- list_fmap_compose.
    rewrite Nat.mul_0_l, drop_0.
    transitivity (take n l ++ drop n l); [|apply take_drop]. f_equal.
    assert (Hlen : (length (drop n l) <= m * n)%nat) by (rewrite length_drop; lia).
    etransitivity; [|exact (IH (drop n l) Hlen)].
    f_equal. apply list_fmap_ext. intros _ k _. cbn.
    by rewrite drop_drop, (Nat.add_comm n).
Qed.

Lemma div_ceil_bound len n : (0 < n)%nat -> (len <= (len + n - 1) / n * n)%nat.
Proof.
  intros Hn. pose proof (Nat.div_mod_eq (len + n - 1) n) as Hd.
  pose proof (Nat.mod_upper_bound (len + n - 1) n ltac:(lia)). nia.
Qed.

(** For a positive chunk size, the chunks of [chunk_list] concatenate back to
    the list, none is empty and none is longer than the chunk size.  A zero
    size raises [ValueError] and a negative one gives no chunk at all. *)
Theorem chunk_list_partition {A} (items : list A) (chunk_size : Z) :
  ((0 < chunk_size)%Z ->
     exists chunks,
       chunk_list items chunk_size = Ok chunks /\
       concat chunks = items /\
       Forall (fun c => (0 < length c <= Z.to_nat chunk_size)%nat) chunks) /\
  chunk_list items 0 = Raise ValueError /\
  ((chunk_size < 0)%Z -> chunk_list items chunk_size = Ok []).
Proof.
  split; [|split].
  - intros Hpos. unfold chunk_list.
    assert (E1 : (chunk_size =? 0)%Z = false) by (apply Z.eqb_neq; lia).
    assert (E2 : (chunk_size <? 0)%Z = false) by (apply Z.ltb_ge; lia).
    rewrite E1, E2. set (n := Z.to_nat chunk_size).
    assert (Hn : (0 < n)%nat) by (unfold n; lia).
    eexists. split; [reflexivity|]. split.
    + apply chunks_concat, div_ceil_bound, Hn.
    + apply Forall_fmap, Forall_forall. intros k Hk. cbn.
      apply elem_of_seq in Hk as [_ Hk]. rewrite length_take, length_drop.
      assert (Hlt : (k * n < length items)%nat).
      { pose proof (Nat.div_mod_eq (length items + n - 1) n).
        pose proof (Nat.mod_upper_bound (length items + n - 1) n ltac:(lia)). nia. }
      lia.
  - reflexivity.
  - intros Hneg. unfold chunk_list.
    assert (E1 : (chunk_size =? 0)%Z = false) by (apply Z.eqb_neq; lia).
    assert (E2 : (chunk_size <? 0)%Z = true) by (apply Z.ltb_lt; lia).
    by rewrite E1, E2.
Qed.

Lemma chunk_list_partition_witness :
  chunk_list [1; 2; 3; 4; 5]%nat 2 = Ok [[1; 2]; [3; 4]; [5]]%nat /\
  chunk_list [1; 2; 3]%nat (-1) = Ok [].
Proof.
  destruct (chunk_list_partition [1; 2; 3]%nat (-1)) as (_ & _ & Hneg).
  split; [reflexivity|]. apply Hneg. reflexivity.
Defined.

(** A higher score never gets a lower tier, and every tier the scoring
    yields has a colour of its own, never the grey fallback. *)
Theorem opportunity_tier_monotone score score' :
  score <= score' ->
  (tier_rank (calculate_opportunity_tier score)
     <= tier_rank (calculate_opportunity_tier score'))%nat /\
  get_tier_color (calculate_opportunity_tier score) <> "#6c757d".
Proof.
  intros Hle. unfold calculate_opportunity_tier.
  repeat match goal with
         | |- context [Qgeb ?a ?b] =>
             let E := fresh "E" in
             destruct (Qgeb a b) eqn:E;
             [apply Qgeb_ge in E
             |unfold Qgeb in E; rewrite <- not_true_iff_false, Qle_bool_iff in E]
         end;
    (split; [first [cbn; lia | exfalso; lra]|discriminate]).
Qed.

Lemma opportunity_tier_monotone_witness :
  (tier_rank (calculate_opportunity_tier 35) <= tier_rank (calculate_opportunity_tier 85))%nat.
Proof. apply (opportunity_tier_monotone 35 85). discriminate. Defined.

Lemma retry_from_success {A} (func : nat -> result A) max_retries backoff_factor a k :
  forall attempt remaining delay,
    (attempt + remaining = max_retries)%nat -> (k < remaining)%nat ->
    (forall j, (j < k)%nat -> exists e, func (attempt + j)%nat = Raise e) ->
    func (attempt + k)%nat = Ok a ->
    retry_from func max_retries attempt remaining delay backoff_factor
    = (backoff_delays delay backoff_factor k, Ok (Some a)).
Proof.
  induction k as [|k IH]; intros attempt remaining delay Hsum Hk Hfail Hok.
  - destruct remaining as [|remaining]; [lia|]. cbn [retry_from backoff_delays].
    rewrite Nat.add_0_r in Hok. by rewrite Hok.
  - destruct remaining as [|remaining]; [lia|]. cbn [retry_from backoff_delays].
    destruct (Hfail 0%nat ltac:(lia)) as [e He]. rewrite Nat.add_0_r in He. rewrite He.
    assert (E : (attempt =? max_retries - 1)%nat = false) by (apply Nat.eqb_neq; lia).
    rewrite E.
    rewrite (IH (S attempt) remaining (delay * backoff_factor)); [reflexivity|lia|lia| |].
    + intros j Hj. replace (S attempt + j)%nat with (attempt + S j)%nat by lia.
      apply Hfail. lia.
    + by replace (S attempt + k)%nat with (attempt + S k)%nat by lia.
Qed.

Lemma retry_from_exhausted {A} (func : nat -> result A) max_retries backoff_factor e :
  forall remaining attempt delay,
    (attempt + remaining = max_retries)%nat -> (1 <= remaining)%nat ->
    (forall j, (j < remaining)%nat -> exists e', func (attempt + j)%nat = Raise e') ->
    func (max_retries - 1)%nat = Raise e ->
    retry_from func max_retries attempt remaining delay backoff_factor
    = (backoff_delays delay backoff_factor (remaining - 1), Raise e).
Proof.
  induction remaining as [|remaining IH]; intros attempt delay Hsum Hrem Hfail Hlast;
    [lia|].
  cbn [retry_from]. destruct (Hfail 0%nat ltac:(lia)) as [e' He'].
  rewrite Nat.add_0_r in He'. rewrite He'.
  destruct (attempt =? max_retries - 1)%nat eqn:E.
  - apply Nat.eqb_eq in E. assert (remaining = 0)%nat as -> by lia.
    cbn. rewrite <- E, He' in Hlast. by injection Hlast as ->.
  - apply Nat.eqb_neq in E.
    rewrite (IH (S attempt) (delay * backoff_factor)); [|lia|lia| |exact Hlast].
    + destruct remaining as [|remaining]; [lia|].
      cbn [Nat.sub]. rewrite Nat.sub_0_r. reflexivity.
    + intros j Hj. replace (S attempt + j)%nat with (attempt + S j)%nat by lia.
      apply Hfail. lia.
Qed.

(** [retry_with_backoff] returns the first successful call of [func] among
    the first [max_retries], having slept the geometric delays before it; if
    all of them fail it raises the last exception, with no sleep after the
    last attempt; with no attempt allowed it returns [None]. *)
Theorem retry_with_backoff_outcome {A} (func : nat -> result A) max_retries
    initial_delay backoff_factor :
  (forall k a,
     (k < max_retries)%nat ->
     (forall j, (j < k)%nat -> exists e, func j = Raise e) ->
     func k = Ok a ->
     retry_with_backoff func max_retries initial_delay backoff_factor
     = (backoff_delays initial_delay backoff_factor k, Ok (Some a))) /\
  (forall e,
     (1 <= max_retries)%nat ->
     (forall j, (j < max_retries)%nat -> exists e', func j = Raise e') ->
     func (max_retries - 1)%nat = Raise e ->
     retry_with_backoff func max_retries initial_delay backoff_factor
     = (backoff_delays initial_delay backoff_factor (max_retries - 1), Raise e)) /\
  retry_with_backoff func 0 initial_delay backoff_factor = ([], Ok None).
Proof.
  unfold retry_with_backoff. split; [|split; [|reflexivity]].
  - intros k a Hk Hfail Hok. by apply retry_from_success.
  - intros e Hm Hfail Hlast. by apply retry_from_exhausted.
Qed.

Lemma retry_with_backoff_outcome_witness :
  retry_with_backoff flaky 3 1 2 = ([1; 1 * 2], Ok (Some 42%nat)).
Proof.
  destruct (retry_with_backoff_outcome flaky 3 1 2) as (Hok & _ & _).
  apply (Hok 2%nat 42%nat); [lia| |reflexivity].
  intros j Hj. exists (RuntimeError "timeout").
  destruct j as [|[|j]]; [reflexivity|reflexivity|lia].
Defined.

Lemma Qgtb_le x y : Qgtb x y = false <-> x <= y.
Proof. unfold Qgtb. apply Qltb_ge. Qed.

Lemma Qgtb_gt x y : Qgtb x y = true <-> y < x.
Proof. unfold Qgtb. apply Qltb_lt. Qed.

(** [Cache]: a value that was set is returned, with the cache unchanged,
    up to and including its expiry time; after that [get] returns nothing
    and deletes the entry, leaving the others alone.  A lifetime of 0 is
    falsy, so it stands for the default lifetime. *)
Theorem cache_set_then_get {V} (c : Cache V) now now' key (value : V) ttl :
  let expires := now + or_else ttl (cache_default_ttl c) id in
  let c' := cache_set now key value ttl c in
  (now' <= expires -> cache_get now' key c' = (Some value, c')) /\
  (expires < now' ->
     (cache_get now' key c').1 = None /\
     cache_data (cache_get now' key c').2 !! key = None /\
     forall other, other <> key ->
       cache_data (cache_get now' key c').2 !! other = cache_data c !! other) /\
  cache_set now key value (Some 0) c = cache_set now key value None c.
Proof.
  intros expires c'. split; [|split].
  - intros Hle. unfold cache_get, c', cache_set. cbn [cache_data].
    rewrite lookup_insert_eq. fold expires.
    apply Qgtb_le in Hle. by rewrite Hle.
  - intros Hlt. unfold cache_get, c', cache_set. cbn [cache_data].
    rewrite lookup_insert_eq. fold expires.
    apply Qgtb_gt in Hlt. rewrite Hlt. cbn [fst snd cache_data].
    split; [reflexivity|]. split; [apply lookup_delete_eq|].
    intros other Hne. rewrite lookup_delete_ne by done. by rewrite lookup_insert_ne.
  - reflexivity.
Qed.

Lemma cache_set_then_get_witness :
  cache_get 3600 "k" (cache_set 0 "k" 7%nat None {| cache_data := ∅; cache_default_ttl := 3600 |})
  = (Some 7%nat,
     cache_set 0 "k" 7%nat None {| cache_data := ∅; cache_default_ttl := 3600 |}).
Proof.
  apply (cache_set_then_get {| cache_data := ∅; cache_default_ttl := 3600 |}
           0 3600 "k" 7%nat None).
  discriminate.
Defined.

(** [Cache.cleanup] keeps exactly the entries that have not expired, and
    [Cache.delete] removes its key and no other. *)
Theorem cache_cleanup_keeps_live {V} (c : Cache V) now key :
  (forall value expires,
     cache_data (cache_cleanup now c) !! key = Some (value, expires)
     <-> cache_data c !! key = Some (value, expires) /\ now <= expires) /\
  cache_data (cache_delete key c) !! key = None /\
  (forall other, other <> key ->
     cache_data (cache_delete key c) !! other = cache_data c !! other) /\
  cache_get now key (cache_delete key c) = (None, cache_delete key c).
Proof.
  split; [|split; [|split]].
  - intros value expires. unfold cache_cleanup. cbn [cache_data].
    rewrite map_lookup_filter_Some. cbn. by rewrite Qgtb_le.
  - apply lookup_delete_eq.
  - intros other Hne. cbn. by rewrite lookup_delete_ne.
  - unfold cache_get, cache_delete. cbn [cache_data]. by rewrite lookup_delete_eq.
Qed.

Lemma oldest_call_spec l c :
  oldest_call l = Ok c -> c ∈ l /\ forall x, x ∈ l -> c <= x.
Proof.
  destruct l as [|c0 l]; [discriminate|]. cbn [oldest_call]. intros [= <-].
  assert (Hgen : forall best,
    let m := foldl (fun best x => if Qltb x best then x else best) best l in
    (m = best \/ m ∈ l) /\ m <= best /\ forall x, x ∈ l -> m <= x).
  { induction l as [|y l IH]; intros best; cbn [foldl].
    - split; [by left|]. split; [lra|]. intros x Hx. by apply elem_of_nil in Hx.
    - destruct (Qltb y best) eqn:E.
      + apply Qltb_lt in E. destruct (IH y) as (Hin & Hle & Hall).
        split; [right; destruct Hin as [->|Hin]; [left|by right]|].
        split; [lra|]. intros x Hx.
        apply elem_of_cons in Hx as [->|Hx]; [exact Hle|by apply Hall].
      + apply Qltb_ge in E. destruct (IH best) as (Hin & Hle & Hall).
        split; [destruct Hin as [Heq|Hin]; [by left|right; by right]|].
        split; [exact Hle|]. intros x Hx.
        apply elem_of_cons in Hx as [->|Hx]; [lra|by apply Hall]. }
  destruct (Hgen c0) as (Hin & Hle & Hall). split.
  - destruct Hin as [->|Hin]; [left|by right].
  - intros x Hx. apply elem_of_cons in Hx as [->|Hx]; [exact Hle|by apply Hall].
Qed.

Lemma filter_length_lt {A} (P : A -> Prop) `{!forall x, Decision (P x)} (l : list A) x :
  x ∈ l -> ~ P x -> (length (filter P l) < length l)%nat.
Proof.
  intros Hx HP. induction l as [|y l IH]; [by apply elem_of_nil in Hx|].
  rewrite filter_cons. apply elem_of_cons in Hx as [<-|Hx].
  - rewrite decide_False by done. cbn. pose proof (length_filter P l). lia.
  - specialize (IH Hx). destruct (decide (P y)); cbn; lia.
Qed.

(** [RateLimiter.can_call] forgets the calls older than the window and
    answers whether fewer than [max_calls] remain.  When the recorded calls
    do not exceed the limit, waiting the time [wait_time] advises is enough:
    the advised time is never negative and a call is possible once it has
    passed. *)
Theorem wait_time_is_sufficient now later r w r' :
  now <= later ->
  (1 <= max_calls r)%nat -> (length (calls r) <= max_calls r)%nat ->
  wait_time now later r = (Ok w, r') ->
  (forall c, c ∈ calls r' <-> c ∈ calls r /\ now - c < time_window r) /\
  0 <= w /\ (can_call (later + w) r').1 = true.
Proof.
  intros Hnow Hmax Hlen. unfold wait_time, can_call.
  set (kept := filter (fun c => Qltb (now - c) (time_window r) = true) (calls r)).
  assert (Hkept : forall c, c ∈ kept <-> c ∈ calls r /\ now - c < time_window r).
  { intros c. unfold kept. rewrite list_elem_of_filter, Qltb_lt. tauto. }
  assert (Hklen : (length kept <= length (calls r))%nat) by apply length_filter.
  destruct (length kept <? max_calls r)%nat eqn:Efree.
  - intros [= <- <-]. cbn [calls time_window max_calls fst].
    split; [exact Hkept|]. split; [lra|].
    apply Nat.ltb_lt. apply Nat.ltb_lt in Efree.
    pose proof (length_filter (fun c => Qltb (later + 0 - c) (time_window r) = true) kept).
    lia.
  - cbn [calls time_window max_calls].
    destruct (oldest_call kept) as [oldest|e] eqn:Hold; [|discriminate].
    cbn [mbind result_bind]. intros [= <- <-]. cbn [calls time_window max_calls fst].
    split; [exact Hkept|].
    destruct (oldest_call_spec kept oldest Hold) as [Hin Hmin].
    assert (Hw : 0 <= max2 0 (time_window r - (later - oldest)) /\
                 time_window r - (later - oldest)
                 <= max2 0 (time_window r - (later - oldest))).
    { unfold max2. destruct (Qgtb _ 0) eqn:E;
        [apply Qgtb_gt in E|apply Qgtb_le in E]; split; lra. }
    split; [apply Hw|].
    apply Nat.ltb_lt.
    assert (Hdrop : (length (filter
               (fun c => Qltb (later + max2 0 (time_window r - (later - oldest)) - c)
                              (time_window r) = true) kept) < length kept)%nat).
    { apply (filter_length_lt _ kept oldest Hin). rewrite Qltb_lt.
      destruct Hw as [_ Hw]. lra. }
    lia.
Qed.

Lemma wait_time_is_sufficient_witness :
  (wait_time 30 31 busy_limiter).1 = Ok 39 /\
  (can_call (31 + 39) (wait_time 30 31 busy_limiter).2).1 = true.
Proof.
  destruct (wait_time 30 31 busy_limiter) as [rw r'] eqn:Hw.
  assert (Hrw : rw = Ok 39) by (vm_compute in Hw; by injection Hw as <- _).
  subst rw. split; [reflexivity|].
  apply (wait_time_is_sufficient 30 31 busy_limiter 39 r');
    [discriminate|cbn; lia|cbn; lia|exact Hw].
Defined.

(** A limiter that allows no call at all cannot advise a wait once its
    window holds no call: [min] of the empty list raises [ValueError]. *)
Theorem wait_time_without_allowance now later r :
  max_calls r = 0%nat ->
  (forall c, c ∈ calls r -> time_window r <= now - c) ->
  (wait_time now later r).1 = Raise ValueError.
Proof.
  intros Hmax Hold. unfold wait_time, can_call. rewrite Hmax.
  destruct (filter (fun c => Qltb (now - c) (time_window r) = true) (calls r))
    as [|c kept] eqn:Hkept; [reflexivity|].
  assert (Hin : c ∈ filter (fun c => Qltb (now - c) (time_window r) = true) (calls r))
    by (rewrite Hkept; left).
  apply list_elem_of_filter in Hin as [Hlt Hc]. apply Qltb_lt in Hlt.
  specialize (Hold c Hc). lra.
Qed.

Lemma wait_time_without_allowance_witness :
  (wait_time 100 101 {| max_calls := 0; time_window := 60; calls := [10] |}).1
  = Raise ValueError.
Proof.
  apply wait_time_without_allowance; [reflexivity|].
  intros c Hc. apply elem_of_cons in Hc as [->|Hc]; [discriminate|by apply elem_of_nil in Hc].
Defined.

(** ** Further properties of scraper_module.py *)

Lemma digits_value_nonneg s acc : (0 <= acc)%Z -> (0 <= digits_value acc s)%Z.
Proof.
  revert acc. induction s as [|c s IH]; intros acc Hacc; cbn [digits_value]; [exact Hacc|].
  apply IH. lia.
Qed.

Lemma float_of_decimal_nonneg s q : float_of_decimal s = Ok q -> 0 <= q.
Proof.
  unfold float_of_decimal. destruct (span is_digit s) as [ip rest].
  destruct rest as [|c fp].
  - destruct (String.eqb ip ""); [discriminate|]. intros [= <-].
    change 0 with (inject_Z 0). rewrite <- Zle_Qle. by apply digits_value_nonneg.
  - destruct (_ && _); [|discriminate]. intros [= <-].
    assert (H1 : 0 <= inject_Z (digits_value 0 ip)).
    { change 0 with (inject_Z 0). rewrite <- Zle_Qle. by apply digits_value_nonneg. }
    assert (H2 : 0 <= inject_Z (digits_value 0 fp)).
    { change 0 with (inject_Z 0). rewrite <- Zle_Qle. by apply digits_value_nonneg. }
    assert (H3 : 0 < inject_Z (10 ^ Z.of_nat (String.length fp))).
    { change 0 with (inject_Z 0). rewrite <- Zlt_Qlt. apply Z.pow_pos_nonneg; lia. }
    assert (H4 : 0 <= inject_Z (digits_value 0 fp)
                      / inject_Z (10 ^ Z.of_nat (String.length fp))).
    { apply Qle_shift_div_l; [exact H3|]. lra. }
    lra.
Qed.

Lemma html_current_price_nonneg price_elem q :
  html_current_price price_elem = Ok q -> 0 <= q.
Proof.
  unfold html_current_price. destruct price_elem as [text|]; [|intros [= <-]; lra].
  destruct (search_price (strip text)) as [g|]; [|intros [= <-]; lra].
  apply float_of_decimal_nonneg.
Qed.

(** What the Walmart HTML parser emits: nothing for an element without a
    (non-empty) [data-item-id]; otherwise an item that carries that id, a
    product URL built from it, and a price that is never negative: the text
    after the first dollar sign, or 0 when there is no price text. *)
Theorem walmart_html_item render base_url elem deal_type :
  (forall item,
     _parse_walmart_html_element render base_url elem deal_type = Some item ->
     attrs elem !! "data-item-id" = Some (product_id item) /\
     product_id item <> "" /\
     product_url item = Some (base_url +:+ "/ip/" +:+ product_id item) /\
     html_current_price (find_price elem) = Ok (current_price item) /\
     0 <= current_price item) /\
  (attrs elem !! "data-item-id" = None \/ attrs elem !! "data-item-id" = Some "" ->
     _parse_walmart_html_element render base_url elem deal_type = None).
Proof.
  unfold _parse_walmart_html_element, parse_html_element_body, tag_get. split.
  - intros item. destruct (attrs elem !! "data-item-id") as [id|]; [|discriminate].
    cbn [jtruthy str_of].
    destruct (String.eqb_spec id "") as [->|Hne]; [discriminate|]. cbn [negb].
    destruct (html_current_price (find_price elem)) as [p|e] eqn:Hp; [|discriminate].
    cbn [mbind result_bind mret result_ret]. intros [= <-]. cbn.
    repeat split; [exact Hne|]. by eapply html_current_price_nonneg.
  - intros [->| ->]; reflexivity.
Qed.

Lemma walmart_html_item_witness :
  exists item,
    _parse_walmart_html_element (fun _ => "") "https://www.walmart.com"
      priced_walmart_tag "Clearance" = Some item /\
    current_price item == 1234.5 /\ 0 <= current_price item.
Proof.
  destruct (_parse_walmart_html_element (fun _ => "") "https://www.walmart.com"
              priced_walmart_tag "Clearance") as [item|] eqn:Hitem;
    [|vm_compute in Hitem; discriminate].
  exists item. split; [reflexivity|].
  destruct (walmart_html_item (fun _ => "") "https://www.walmart.com"
              priced_walmart_tag "Clearance") as [Hsome _].
  destruct (Hsome item Hitem) as (_ & _ & _ & _ & Hp).
  split; [|exact Hp]. vm_compute in Hitem. injection Hitem as <-. reflexivity.
Defined.

Lemma walmart_product_fields render float_of_str array_gt base_url
    product deal item :
  _parse_walmart_product render float_of_str array_gt base_url product deal
    = Some item ->
  deal_type item = deal /\ raw_data item = Some product /\
  product_url item = Some (base_url +:+ "/ip/" +:+ product_id item) /\
  (forall d, discount_percent item = Some d ->
     exists o, original_price item = Some o).
Proof.
  unfold _parse_walmart_product, parse_walmart_product_body.
  intros H. repeat bind_step H.
  injection H as <-. cbn. repeat split.
  intros d ->.
  match goal with
  | E6 : (if jtruthy ?o then jgt _ _ _ else mret false) = Ok ?h,
    E7 : (if ?h then _ else mret None) = Ok (Some d),
    E17 : (if jtruthy ?o then _ else mret None) = Ok ?orig |- _ =>
      destruct (jtruthy o); destruct h; try discriminate;
      destruct (float_of float_of_str o); try discriminate;
      injection E17 as <-; by eexists
  end.
Qed.

(** The JSON product parser never emits an item without a price: the price
    field of the payload was present and truthy and is the item's price; the
    item records its deal type and the payload it came from, and it has a
    discount only together with an original price. *)
Theorem walmart_product_item render float_of_str array_gt base_url
    product deal item :
  _parse_walmart_product render float_of_str array_gt base_url product deal
    = Some item ->
  (exists v,
     walmart_price_field product = Ok v /\ jtruthy v = true /\
     float_of float_of_str v = Ok (current_price item)) /\
  deal_type item = deal /\ raw_data item = Some product /\
  (forall d, discount_percent item = Some d -> exists o, original_price item = Some o).
Proof.
  intros H. split; [by eapply walmart_product_price_present|].
  destruct (walmart_product_fields _ _ _ _ _ _ _ H) as (H1 & H2 & _ & H4). done.
Qed.

Lemma walmart_product_item_witness :
  exists item,
    _parse_walmart_product (fun _ => "") (fun _ => Raise ValueError)
      (fun _ _ => Raise TypeError) "https://www.walmart.com" demo_product "Rollback"
      = Some item /\
    deal_type item = "Rollback".
Proof.
  destruct (_parse_walmart_product (fun _ => "") (fun _ => Raise ValueError)
      (fun _ _ => Raise TypeError) "https://www.walmart.com" demo_product "Rollback")
    as [item|] eqn:Hitem; [|vm_compute in Hitem; discriminate].
  exists item. split; [reflexivity|].
  apply (walmart_product_item _ _ _ _ _ _ _ Hitem).
Defined.

Lemma parse_stacks_elem render float_of_str array_gt base_url stacks deal item :
  item ∈ parse_stacks render float_of_str array_gt base_url stacks deal ->
  exists product,
    _parse_walmart_product render float_of_str array_gt base_url product deal
      = Some item.
Proof.
  induction stacks as [|stack stacks IH]; cbn [parse_stacks];
    [intros H; by apply elem_of_nil in H|].
  destruct (jget stack "items" (JArr []) ≫= jiter) as [products|e];
    [|intros H; by apply elem_of_nil in H].
  intros [Hin|Hin]%elem_of_app; [|by apply IH].
  unfold parse_products in Hin. apply list_elem_of_omap in Hin as (product & _ & Hp).
  by exists product.
Qed.

Section NextJs.

Variable render : json -> string.
Variable float_of_str : string -> result Q.
Variable array_gt : list json -> list json -> result bool.
Variable base_url : string.

Lemma parse_stacks_prefix good products tail deal :
  Forall2 (fun stack ps => stack_products stack = Ok ps) good products ->
  parse_stacks render float_of_str array_gt base_url (good ++ tail) deal
  = omap (fun product =>
            _parse_walmart_product render float_of_str array_gt base_url product deal)
         (concat products)
    ++ parse_stacks render float_of_str array_gt base_url tail deal.
Proof.
  induction 1 as [|stack ps good products Hs _ IH]; [reflexivity|].
  cbn [app parse_stacks concat]. unfold stack_products in Hs. rewrite Hs.
  unfold parse_products. rewrite IH, omap_app, app_assoc. reflexivity.
Qed.

End NextJs.

(** Every item [_parse_nextjs_data] extracts is the parse of a product with
    a present, truthy price and carries the deal type asked for.  A payload
    whose path to the stacks is broken gives no item; a payload whose stacks
    are all well formed gives the parsed products of all of them, in order;
    and when a stack is malformed the result is exactly the parsed products of
    the stacks before it. *)
Theorem nextjs_items_have_prices render float_of_str array_gt base_url data deal :
  let parse product :=
    _parse_walmart_product render float_of_str array_gt base_url product deal in
  let items := _parse_nextjs_data render float_of_str array_gt base_url data deal in
  (forall item, item ∈ items ->
     exists product v,
       parse product = Some item /\
       walmart_price_field product = Ok v /\ jtruthy v = true /\
       float_of float_of_str v = Ok (current_price item) /\
       deal_type item = deal) /\
  (forall e, item_stacks data = Raise e -> items = []) /\
  (forall stacks products,
     item_stacks data = Ok stacks ->
     Forall2 (fun stack ps => stack_products stack = Ok ps) stacks products ->
     items = omap parse (concat products)) /\
  (forall good products bad rest e,
     item_stacks data = Ok (good ++ bad :: rest) ->
     Forall2 (fun stack ps => stack_products stack = Ok ps) good products ->
     stack_products bad = Raise e ->
     items = omap parse (concat products)).
Proof.
  intros parse items. split; [|split; [|split]].
  - subst items. unfold _parse_nextjs_data.
    destruct (_ ≫= _) as [stacks|e]; [|intros item H; by apply elem_of_nil in H].
    intros item Hin. apply parse_stacks_elem in Hin as [product Hp].
    destruct (walmart_product_price_present _ _ _ _ _ _ _ Hp) as (v & Hv & Ht & Hf).
    destruct (walmart_product_fields _ _ _ _ _ _ _ Hp) as (Hd & _).
    by exists product, v.
  - intros e He. subst items. unfold _parse_nextjs_data.
    change (match item_stacks data with
            | Ok stacks => parse_stacks render float_of_str array_gt base_url stacks deal
            | Raise _ => []
            end = []).
    by rewrite He.
  - intros stacks products Hs Hall. subst items. unfold _parse_nextjs_data.
    change (match item_stacks data with
            | Ok stacks => parse_stacks render float_of_str array_gt base_url stacks deal
            | Raise _ => []
            end = omap parse (concat products)).
    rewrite Hs. rewrite <- (app_nil_r stacks).
    rewrite (parse_stacks_prefix _ _ _ _ _ _ _ _ Hall). cbn [parse_stacks].
    by rewrite app_nil_r.
  - intros good products bad rest e Hs Hall Hbad. subst items.
    unfold _parse_nextjs_data.
    change (match item_stacks data with
            | Ok stacks => parse_stacks render float_of_str array_gt base_url stacks deal
            | Raise _ => []
            end = omap parse (concat products)).
    rewrite Hs, (parse_stacks_prefix _ _ _ _ _ _ _ _ Hall). cbn [parse_stacks].
    unfold stack_products in Hbad. rewrite Hbad. by rewrite app_nil_r.
Qed.

Lemma nextjs_items_have_prices_witness :
  exists item,
    _parse_nextjs_data (fun _ => "") (fun _ => Raise ValueError)
      (fun _ _ => Raise TypeError) "https://www.walmart.com" demo_page "Clearance"
      = [item] /\
    _parse_walmart_product (fun _ => "") (fun _ => Raise ValueError)
      (fun _ _ => Raise TypeError) "https://www.walmart.com" demo_product "Clearance"
      = Some item.
Proof.
  destruct (nextjs_items_have_prices (fun _ => "") (fun _ => Raise ValueError)
      (fun _ _ => Raise TypeError) "https://www.walmart.com" demo_page "Clearance")
    as (_ & _ & _ & Hprefix).
  destruct (_parse_walmart_product (fun _ => "") (fun _ => Raise ValueError)
      (fun _ _ => Raise TypeError) "https://www.walmart.com" demo_product "Clearance")
    as [item|] eqn:Hitem; [|vm_compute in Hitem; discriminate].
  exists item. split; [|reflexivity].
  rewrite (Hprefix [JObj [("items", JArr [demo_product; JObj [("id", JStr "9")]])]]
             [[demo_product; JObj [("id", JStr "9")]]]
             (JNum 3) [JObj [("items", JArr [demo_product])]] (AttributeError "get")).
  - vm_compute in Hitem. injection Hitem as <-. vm_compute. reflexivity.
  - reflexivity.
  - repeat constructor.
  - reflexivity.
Defined.

(** ** Further properties of api.py *)

#[global] Instance counters_grow_preorder {W} : PreOrder (@counters_grow W).
Proof.
  split.
  - intros st id s Hs. exists s. done.
  - intros a b c Hab Hbc id s Hs.
    destruct (Hab id s Hs) as (s1 & Hs1 & H1 & H2 & H3 & H4).
    destruct (Hbc id s1 Hs1) as (s2 & Hs2 & H5 & H6 & H7 & H8).
    exists s2. repeat split; [done|lia|congruence..].
Qed.

Lemma same_searches_counters {W} (st st' : State W) :
  same_searches st st' -> counters_grow st st'.
Proof. intros Hs id s Hid. exists s. unfold same_searches in Hs. by rewrite Hs. Qed.

Lemma respects_counters {W A} (m : M W A) :
  respects (@same_searches W) m -> respects (@counters_grow W) m.
Proof. intros Hm st. apply same_searches_counters, Hm. Qed.

Lemma incr_items_scraped_counters {W} search_id :
  respects (@counters_grow W) (update_search search_id incr_items_scraped).
Proof.
  intros st id s Hs. unfold update_search, bind, get_search.
  destruct (active_searches st !! search_id) as [s0|] eqn:E; cbn; [|by exists s].
  destruct (decide (search_id = id)) as [->|Hne].
  - rewrite lookup_insert_eq. rewrite E in Hs. injection Hs as ->.
    eexists. split; [reflexivity|]. cbn. repeat split. lia.
  - rewrite lookup_insert_ne by done. by exists s.
Qed.

Section OrchestratorCounters.

Context {W : Type} `{Env W}.

Lemma with_db_session_counters {A} (body : M W A) :
  respects counters_grow body -> respects counters_grow (with_db_session body).
Proof.
  intros Hbody. unfold with_db_session.
  repeat first [exact Hbody | apply respects_counters, respects_lift | respects_step].
Qed.

Lemma process_item_counters store_id search_id min_profit min_margin item :
  respects counters_grow (process_item store_id search_id min_profit min_margin item).
Proof.
  unfold process_item. respects_step; [|respects_step].
  apply with_db_session_counters. unfold item_body.
  respects_step; [apply respects_counters, respects_lift|].
  respects_step; [apply respects_counters, respects_lift|].
  respects_step.
  { destruct (jtruthy (upc item)); [|respects_step].
    apply respects_counters, check_and_save_prices_same_searches. }
  respects_step.
  { apply respects_counters, calculate_and_save_opportunity_same_searches. }
  apply incr_items_scraped_counters.
Qed.

Lemma process_store_inventory_counters store search_id min_profit min_margin :
  respects counters_grow (process_store_inventory store search_id min_profit min_margin).
Proof.
  unfold process_store_inventory. respects_step; [|respects_step].
  respects_step; [apply respects_counters, scrape_store_same_searches|].
  respects_step; [|respects_step]. respects_step.
  - apply with_db_session_counters, respects_counters, respects_lift.
  - respects_step. apply process_item_counters.
Qed.

End OrchestratorCounters.

(** Processing stores never loses ground: whatever the scrapers and the
    database do, after any number of stores every search is still registered,
    its count of scraped items has not decreased, and its other counters and
    its error are untouched. *)
Theorem store_processing_keeps_counters {W : Type} `{Env W}
    search_id request stores (st : State W) :
  counters_grow st (after_stores search_id request stores st).
Proof.
  unfold after_stores. revert st.
  induction stores as [|store stores IH]; intros st; [reflexivity|].
  cbn [foldl]. etransitivity; [|apply IH].
  apply process_store_inventory_counters.
Qed.

Lemma init_thresholds_total min_profit min_margin :
  exists c,
    ProfitCalculator.init Config.PROFIT_CONFIG None None (Some min_profit) (Some min_margin)
    = Ok c.
Proof.
  unfold ProfitCalculator.init, or_else.
  destruct (truthy min_profit), (truthy min_margin); by eexists.
Qed.

(** No opportunity is ever saved for an item whose best comparison is an
    Amazon listing: the profit analysis raises inside
    [calculate_and_save_opportunity], the exception is swallowed, and the call
    returns after the lookup alone, whatever the thresholds and prices. *)
Theorem amazon_opportunity_never_saved {W : Type} `{Env W}
    inventory_item_id buy_price min_profit min_margin (st : State W) w best :
  get_best_price inventory_item_id (world st) = (w, Ok (Some best)) ->
  lower (best_marketplace best) = "amazon" ->
  calculate_and_save_opportunity inventory_item_id buy_price min_profit min_margin st
  = ({| active_searches := active_searches st; world := w |}, Ok tt).
Proof.
  intros Hbest Hm.
  unfold calculate_and_save_opportunity, try_catch, bind, lift, of_result.
  rewrite Hbest.
  destruct (init_thresholds_total min_profit min_margin) as [c ->].
  by rewrite (calculate_profit_amazon_raise c _ _ _ _ _ Hm).
Qed.

Lemma amazon_opportunity_never_saved_witness :
  Api.world (exec (@calculate_and_save_opportunity _ amazon_env 1 10 5 (20 # 100))
               demo_state)
  = ["best price"].
Proof.
  unfold exec.
  rewrite (@amazon_opportunity_never_saved _ amazon_env 1%nat 10 5 (20 # 100) demo_state
             ["best price"]
             {| Api.best_total_price := 100; Api.best_marketplace := "amazon" |});
    reflexivity.
Defined.

(** A store whose scraping raises contributes nothing: the store run returns
    normally and the global search state is exactly what it was. *)
Theorem failed_scrape_contributes_nothing {W : Type} `{Env W}
    store search_id min_profit min_margin (st st1 : State W) e :
  scrape_store store st = (st1, Raise e) ->
  process_store_inventory store search_id min_profit min_margin st = (st1, Ok tt) /\
  active_searches st1 = active_searches st.
Proof. apply process_store_inventory_scrape_fails. Qed.

Lemma failed_scrape_contributes_nothing_witness :
  Api.active_searches
    (exec (process_store_inventory (demo_store "W1") 1 5 (20 # 100)) demo_state)
  = Api.active_searches demo_state.
Proof.
  assert (Hs : scrape_store (demo_store "W1") demo_state
               = ({| Api.active_searches := Api.active_searches demo_state;
                     Api.world := ["scrape W1"] |},
                  Raise (RuntimeError "browser crashed")))
    by (vm_compute; reflexivity).
  destruct (failed_scrape_contributes_nothing (demo_store "W1") 1%nat 5 (20 # 100)
              _ _ _ Hs) as [Hrun Hsame].
  unfold exec. rewrite Hrun. exact Hsame.
Defined.

(** An orchestrator-level fault fails the search: when store discovery
    raises, or the completion step raises (even after the status was set to
    "completed"), and the failure can be recorded, the search ends "failed"
    with the message of the exception as its error. *)
Theorem orchestrator_fault_fails_search {W : Type} `{Env W}
    search_id request (st0 st1 st2 : State W) e :
  (discover_stores search_id request st0 = (st1, Raise e) \/
   exists sta stores,
     discover_stores search_id request st0 = (sta, Ok stores) /\
     complete_search search_id request (after_stores search_id request stores sta)
       = (st1, Raise e)) ->
  fail_search search_id e st1 = (st2, Ok tt) ->
  run_full_search search_id request st0 = (st2, Ok tt) /\
  status_of search_id st2 = Some "failed" /\
  error <$> (active_searches st2 !! search_id) = Some (Some (str_exn e)).
Proof.
  intros Hfault Hfail. split.
  - unfold run_full_search, try_catch.
    destruct Hfault as [Hd|(sta & stores & Hd & Hc)].
    + by rewrite (bind_raise _ _ _ _ _ Hd).
    + rewrite (bind_ok _ _ _ _ _ Hd).
      rewrite (bind_ok _ _ _ _ _ (process_stores_all search_id request stores sta)).
      by rewrite Hc.
  - unfold fail_search in Hfail.
    apply bind_ok_inv in Hfail as (sta & [] & Hset & Hfail).
    apply bind_ok_inv in Hfail as (stb & [] & Herr & Hfail).
    assert (Hw : respects same_searches
      (with_db_session (lift (update_status search_id "failed" None (Some (str_exn e)))))).
    { apply with_db_session_same_searches. respects_step. }
    specialize (Hw stb). rewrite Hfail in Hw. cbn in Hw. unfold same_searches in Hw.
    unfold status_of. rewrite Hw.
    unfold update_search, bind, get_search in Hset, Herr.
    destruct (active_searches st1 !! search_id) as [s1|]; [|discriminate].
    injection Hset as <-. cbn in Herr. rewrite lookup_insert_eq in Herr.
    injection Herr as <-. cbn. by rewrite lookup_insert_eq.
Qed.

Lemma orchestrator_fault_fails_search_witness :
  status_of 1 (exec (@run_full_search _ amazon_env 1 demo_request) demo_state)
  = Some "failed".
Proof.
  edestruct (@orchestrator_fault_fails_search _ amazon_env 1%nat demo_request demo_state)
    as (Hrun & Hstatus & _).
  - left. vm_compute. reflexivity.
  - vm_compute. reflexivity.
  - unfold exec. rewrite Hrun. exact Hstatus.
Defined.

(** ** Properties of market_checker.py *)

Lemma insert_asc_perm {A} (key : A -> Q) x l : insert_asc key x l ≡ₚ x :: l.
Proof.
  induction l as [|y l IH]; cbn [insert_asc]; [reflexivity|].
  destruct (Qltb (key x) (key y)); [reflexivity|].
  rewrite IH. apply Permutation_swap.
Qed.

Lemma sort_asc_perm {A} (key : A -> Q) l : sort_asc key l ≡ₚ l.
Proof.
  unfold sort_asc.
  assert (Hgen : forall acc, foldl (fun acc x => insert_asc key x acc) acc l ≡ₚ acc ++ l).
  { induction l as [|x l IH]; intros acc; cbn [foldl].
    - by rewrite app_nil_r.
    - rewrite IH, insert_asc_perm. cbn [app]. apply Permutation_middle. }
  by rewrite Hgen.
Qed.

Lemma insert_asc_sorted {A} (key : A -> Q) x l :
  StronglySorted (fun a b => key a <= key b) l ->
  StronglySorted (fun a b => key a <= key b) (insert_asc key x l).
Proof.
  induction 1 as [|y l Hsorted IH Hall]; cbn [insert_asc].
  - repeat constructor.
  - destruct (Qltb (key x) (key y)) eqn:E.
    + apply Qltb_lt in E. constructor; [by constructor|].
      constructor; [lra|].
      eapply Forall_impl; [exact Hall|]. intros z Hz. cbn in Hz. lra.
    + apply Qltb_ge in E. constructor; [exact IH|].
      rewrite insert_asc_perm. by constructor.
Qed.

Lemma sort_asc_sorted {A} (key : A -> Q) l :
  StronglySorted (fun a b => key a <= key b) (sort_asc key l).
Proof.
  unfold sort_asc.
  assert (Hgen : forall acc,
    StronglySorted (fun a b => key a <= key b) acc ->
    StronglySorted (fun a b => key a <= key b)
      (foldl (fun acc x => insert_asc key x acc) acc l)).
  { induction l as [|x l IH]; intros acc Hacc; cbn [foldl]; [exact Hacc|].
    by apply IH, insert_asc_sorted. }
  apply Hgen. constructor.
Qed.

Section MarketCheckerProperties.

Import MarketChecker.

(** One marketplace failing does not touch the other: [compare_prices]
    always returns both marketplaces, and the list of each is determined by
    its own search alone, by UPC when there is one and else by name: the
    listings found when the search returns, the empty list when it raises,
    was not asked for, or had neither a UPC nor a name to search by. *)
Theorem compare_prices_isolates_failures s upc product_name check_ebay check_amazon :
  exists ebay amazon,
    compare_prices s upc product_name check_ebay check_amazon
      = [("ebay", ebay); ("amazon", amazon)] /\
    (check_ebay = true -> forall u, given upc = Some u ->
       (forall found, ebay_by_upc s u = Ok found -> ebay = found) /\
       (forall e, ebay_by_upc s u = Raise e -> ebay = [])) /\
    (check_ebay = true -> given upc = None -> forall n, given product_name = Some n ->
       (forall found, ebay_by_keyword s n = Ok found -> ebay = found) /\
       (forall e, ebay_by_keyword s n = Raise e -> ebay = [])) /\
    (check_ebay = false \/ (given upc = None /\ given product_name = None) ->
       ebay = []) /\
    (check_amazon = true -> forall u, given upc = Some u ->
       (forall found, amazon_by_upc s u = Ok found -> amazon = found) /\
       (forall e, amazon_by_upc s u = Raise e -> amazon = [])) /\
    (check_amazon = true -> given upc = None -> forall n, given product_name = Some n ->
       (forall found, amazon_by_keyword s n = Ok found -> amazon = found) /\
       (forall e, amazon_by_keyword s n = Raise e -> amazon = [])) /\
    (check_amazon = false \/ (given upc = None /\ given product_name = None) ->
       amazon = []).
Proof.
  unfold compare_prices, task_for. do 2 eexists. split; [reflexivity|].
  repeat match goal with |- _ /\ _ => split end.
  - intros -> u ->. split; [intros found ->|intros e ->]; reflexivity.
  - intros -> -> n ->. split; [intros found ->|intros e ->]; reflexivity.
  - intros [->|[-> ->]]; [reflexivity|]. by destruct check_ebay.
  - intros -> u ->. split; [intros found ->|intros e ->]; reflexivity.
  - intros -> -> n ->. split; [intros found ->|intros e ->]; reflexivity.
  - intros [->|[-> ->]]; [reflexivity|]. by destruct check_amazon.
Qed.

Lemma compare_prices_isolates_failures_witness :
  compare_prices ebay_down (Some "036000291452") None true true
    = [("ebay", []); ("amazon", [amazon_offer 30; amazon_offer 25])] /\
  compare_prices amazon_down None (Some "cordless drill") true true
    = [("ebay", [ebay_offer 12]); ("amazon", [])].
Proof.
  split.
  - destruct (compare_prices_isolates_failures ebay_down (Some "036000291452") None
                true true) as (ebay & amazon & -> & He & _ & _ & Ha & _).
    destruct (He eq_refl "036000291452" eq_refl) as [_ He'].
    destruct (Ha eq_refl "036000291452" eq_refl) as [Ha' _].
    by rewrite (He' (RuntimeError "eBay API error") eq_refl), (Ha' _ eq_refl).
  - destruct (compare_prices_isolates_failures amazon_down None (Some "cordless drill")
                true true) as (ebay & amazon & -> & _ & He & _ & _ & Ha & _).
    destruct (He eq_refl eq_refl "cordless drill" eq_refl) as [He' _].
    destruct (Ha eq_refl eq_refl "cordless drill" eq_refl) as [_ Ha'].
    by rewrite (He' _ eq_refl), (Ha' (RuntimeError "blocked") eq_refl).
Defined.

(** [get_best_price] returns nothing exactly when no marketplace returned a
    listing; otherwise it returns one of the listings found, and none of them
    has a lower total price. *)
Theorem get_best_price_is_cheapest s upc product_name :
  let found := concat ((compare_prices s upc product_name true true).*2) in
  (get_best_price s upc product_name = None <-> found = []) /\
  (forall best,
     get_best_price s upc product_name = Some best ->
     best ∈ found /\ forall l, l ∈ found -> total_price best <= total_price l).
Proof.
  intros found. unfold get_best_price. fold found.
  pose proof (sort_asc_perm total_price found) as Hperm.
  pose proof (sort_asc_sorted total_price found) as Hsorted.
  destruct found as [|x found'] eqn:Hf; cbn [is_empty].
  - split; [done|discriminate].
  - destruct (sort_asc total_price (x :: found')) as [|b rest] eqn:Hs.
    { apply Permutation_nil_l in Hperm. discriminate. }
    cbn [head]. split; [split; discriminate|].
    intros best [= <-]. split.
    + rewrite <- Hperm. left.
    + intros l Hl. rewrite <- Hperm in Hl.
      apply StronglySorted_inv in Hsorted as [_ Hall].
      apply elem_of_cons in Hl as [->|Hl]; [lra|].
      by eapply Forall_forall in Hall.
Qed.

Lemma get_best_price_is_cheapest_witness :
  get_best_price ebay_down (Some "036000291452") None = Some (amazon_offer 25).
Proof.
  destruct (get_best_price ebay_down (Some "036000291452") None) as [best|] eqn:Hb;
    [|vm_compute in Hb; discriminate].
  destruct (get_best_price_is_cheapest ebay_down (Some "036000291452") None)
    as [_ Hmin].
  destruct (Hmin best Hb) as [_ _]. vm_compute in Hb. injection Hb as <-. reflexivity.
Defined.

Lemma round_half_even_comp x y : x == y -> round_half_even x = round_half_even y.
Proof.
  intros Hxy. unfold round_half_even.
  assert (Hf : Qfloor x = Qfloor y) by (by apply Qfloor_comp).
  rewrite Hf.
  assert (Hc : Qcompare (x - inject_Z (Qfloor y)) (1 # 2)
               = Qcompare (y - inject_Z (Qfloor y)) (1 # 2))
    by (apply Qcompare_comp; [by rewrite Hxy|reflexivity]).
  by rewrite Hc.
Qed.

Lemma round2_comp x y : x == y -> round2 x = round2 y.
Proof.
  intros Hxy. unfold round2. f_equal. apply round_half_even_comp. by rewrite Hxy.
Qed.

(** The two fee estimators agree on eBay: the total the profit calculator
    charges is the total of the price-comparison engine rounded to cents.  For
    a marketplace the engine does not know it charges nothing. *)
Theorem ebay_fee_estimates_agree self listing :
  (marketplace listing = "ebay" ->
   exists engine_fees calculator_fees engine_total,
     calculate_fees Config.PROFIT_CONFIG listing = Ok engine_fees /\
     ProfitCalculator.calculate_ebay_fees Config.PROFIT_CONFIG self (price listing)
       = Ok calculator_fees /\
     engine_fees !! "total_fees" = Some engine_total /\
     calculator_fees !! "total_fees" = Some (round2 engine_total)) /\
  (marketplace listing <> "amazon" -> marketplace listing <> "ebay" ->
   calculate_fees Config.PROFIT_CONFIG listing = Ok {["total_fees" := 0]}).
Proof.
  split.
  - intros Hm. unfold calculate_fees. rewrite Hm. cbn [String.eqb Ascii.eqb Bool.eqb].
    rewrite ebay_fees_ok.
    do 3 eexists. split; [reflexivity|]. split; [reflexivity|].
    split; [reflexivity|].
    match goal with |- ?l !! _ = _ =>
      change (l !! "total_fees") with
        (Some (round2 (price listing * (13 # 100)
                       + (price listing * (29 # 1000) + (30 # 100)) + 0)))
    end.
    f_equal. apply round2_comp. ring.
  - intros Ha He. unfold calculate_fees.
    apply String.eqb_neq in Ha, He. by rewrite Ha, He.
Qed.

Lemma ebay_fee_estimates_agree_witness :
  exists fees total,
    calculate_fees Config.PROFIT_CONFIG
      {| marketplace := "ebay"; listing_id := None; price := 20;
         shipping_cost := 0; total_price := 20 |} = Ok fees /\
    fees !! "total_fees" = Some total.
Proof.
  destruct (ebay_fee_estimates_agree default_calculator
              {| marketplace := "ebay"; listing_id := None; price := 20;
                 shipping_cost := 0; total_price := 20 |}) as [Hebay _].
  destruct (Hebay eq_refl) as (fees & cfees & total & Hfees & _ & Htotal & _).
  exists fees, total. split; [exact Hfees|exact Htotal].
Defined.

End MarketCheckerProperties.

(** ** The scoring and the two fee models, for every input *)

(** The opportunity score never decreases when net profit, margin or ROI
    increase, and it never exceeds 100. *)
Theorem opportunity_score_monotone_and_capped n n' m m' r r' :
  n <= n' -> m <= m' -> r <= r' ->
  _calculate_opportunity_score n m r <= _calculate_opportunity_score n' m' r' /\
  _calculate_opportunity_score n' m' r' <= 100.
Proof.
  intros Hn Hm Hr. split; [by apply opportunity_score_monotone|].
  apply opportunity_score_le_100.
Qed.

Lemma opportunity_score_monotone_and_capped_witness :
  _calculate_opportunity_score 10 20 30 <= _calculate_opportunity_score 1000 20 30.
Proof.
  apply (opportunity_score_monotone_and_capped 10 1000 20 20 30 30); discriminate.
Defined.

(** Under the shipped configuration the Amazon fee model cannot be used at
    all: [calculate_amazon_fees] raises [AttributeError] for every price and
    category, and so does [calculate_profit] for every marketplace name that
    lower-cases to 'amazon'. *)
Theorem amazon_model_always_raises self buy_price sell_price marketplace category
    include_shipping :
  lower marketplace = "amazon" ->
  calculate_amazon_fees Config.PROFIT_CONFIG self sell_price category
    = Raise (AttributeError "CATEGORY_MARGINS") /\
  calculate_profit Config.PROFIT_CONFIG self buy_price sell_price marketplace category
    include_shipping = Raise (AttributeError "CATEGORY_MARGINS").
Proof.
  intros Hm. split; [apply amazon_fees_raise|by apply calculate_profit_amazon_raise].
Qed.

Lemma amazon_model_always_raises_witness :
  calculate_profit Config.PROFIT_CONFIG default_calculator 5 40 "Amazon" "Toys" false
  = Raise (AttributeError "CATEGORY_MARGINS").
Proof.
  apply (amazon_model_always_raises default_calculator 5 40 "Amazon" "Toys" false).
  reflexivity.
Defined.

(** Selling at cost on the eBay fee model always loses money under the
    shipped configuration: for every price p >= 0 the analysis is returned,
    its net profit is negative and it is flagged not profitable. *)
Theorem ebay_sell_at_cost_loses p marketplace category :
  0 <= p -> lower marketplace <> "amazon" ->
  exists a,
    calculate_profit Config.PROFIT_CONFIG default_calculator p p marketplace category true
      = Ok a /\
    net_profit a < 0 /\ is_profitable a = false.
Proof. apply sell_at_cost_ebay. Qed.

Lemma ebay_sell_at_cost_loses_witness :
  exists a,
    calculate_profit Config.PROFIT_CONFIG default_calculator 10 10 "ebay" "Other" true
      = Ok a /\
    net_profit a < 0 /\ is_profitable a = false.
Proof.
  apply (ebay_sell_at_cost_loses 10 "ebay" "Other"); discriminate.
Defined.
